(** * events-consumer: the batch consumption loop and the event dispatcher

    A shallow embedding of [scripts/events-consumer.py].  The script is a
    single-threaded loop around four external collaborators (the Kafka
    consumer, the Apicurio registry client, the [kuadrantctl] and [git]
    subprocesses) and the local output tree.  The embedding keeps the
    control flow of the script, statement by statement, in a state and
    exception monad over a [World]:

    - the output tree below [<parent-of-cwd>/api-resources/api-resources]
      is a finite map from paths to nodes; a path is the list of directory
      names below that root, and the group, artifact and version of a
      coordinate each name one directory, as in the layout the script
      creates.  A name that is empty, a dot name, holds a separator or is
      too long would resolve to another place on a real file system or be
      refused: the tree primitives are the script's on plain paths
      ([plain_path]), and every property that says where something is or
      is not on disk assumes them;
    - everything the script does to the outside (lines printed, registry
      requests, subprocesses started, the consumer being closed) is
      recorded in a chronological event list, newest first;
    - the collaborators themselves are the fields of an [Env]: what the
      JSON and YAML parsers return on a text, what the registry answers
      for a coordinate, how a subprocess ends; the calls to
      [consumer.consume] are a script of polls, and a run of the loop is a
      run on the polls made so far;
    - Python exceptions are values of [exn]; [except] clauses catch by
      class, and [except Exception] does not catch [KeyboardInterrupt].

    The properties follow the definitions: the idle loop (C1), the
    release of the consumer (C7), the dispatch on the event (C10, C5, C4,
    C3, C2), and the output tree (C6, C9, C8).  The further properties
    (X1 to X24) cover what these leave out: messages that are not events
    and events that are not handled, the failures of the registry, the
    generators and [git], the start of the process in [main], and the
    output tree over whole runs (its layout, what is never on disk, what
    an event undoes or leaves behind). *)

From stdpp Require Import base option list strings gmap fin_maps.

Set Warnings "-register-all".

Open Scope string_scope.
Open Scope list_scope.
Open Scope Z_scope.

(** ** Python values *)

(** What [json.loads] and [yaml.safe_load] return.  Mappings keep their
    insertion order, as Python dictionaries do; keys are strings. *)
Inductive pyval : Type :=
| PNone
| PBool (b : bool)
| PInt (n : Z)
| PStr (s : string)
| PList (l : list pyval)
| PDict (d : list (string * pyval)).

(** The exception classes the script can meet.  [OtherException] stands
    for any further subclass of [Exception] a collaborator may raise. *)
Inductive exn : Type :=
| JSONDecodeError
| KeyError (key : string)
| TypeError
| AttributeError
| UnicodeDecodeError
| YAMLError
| OSError
| CalledProcessError (stderr : option string)
| OtherException (name : string)
| KeyboardInterrupt
| SystemExit.

Inductive result (A : Type) : Type :=
| Ok (a : A)
| Raise (e : exn).
Arguments Ok {A} a.
Arguments Raise {A} e.

(** [except Exception]: every class but the two that derive from
    [BaseException] directly. *)
Definition is_Exception (e : exn) : bool :=
  match e with
  | KeyboardInterrupt | SystemExit => false
  | _ => true
  end.

Definition is_JSONDecodeError (e : exn) : bool :=
  match e with JSONDecodeError => true | _ => false end.

Definition is_KeyError (e : exn) : bool :=
  match e with KeyError _ => true | _ => false end.

Definition is_CalledProcessError (e : exn) : bool :=
  match e with CalledProcessError _ => true | _ => false end.

(** ** Dictionaries *)

(** [d.get(key)] on a dictionary: the first binding of the key. *)
Fixpoint dict_get (key : string) (d : list (string * pyval)) : option pyval :=
  match d with
  | [] => None
  | (k, v) :: d' => if String.eqb k key then Some v else dict_get key d'
  end.

(** [d.pop(key, None)] on a dictionary: the key is gone afterwards, the
    other bindings stay in place. *)
Fixpoint dict_pop (key : string) (d : list (string * pyval)) : list (string * pyval) :=
  match d with
  | [] => []
  | (k, v) :: d' =>
      if String.eqb k key then dict_pop key d' else (k, v) :: dict_pop key d'
  end.

(** [v == "literal"]: only a string compares equal to a string. *)
Definition py_eq_str (v : pyval) (s : string) : bool :=
  match v with
  | PStr s' => String.eqb s' s
  | _ => false
  end.

(** ** Messages, registry answers, subprocess results *)

(** A [bytes] object, seen through [.decode('utf-8')]. *)
Inductive bytes_val : Type :=
| Utf8 (text : string)
| NotUtf8.

(** [KafkaError._PARTITION_EOF] *)
Definition _PARTITION_EOF : Z := -191.

(** A Kafka message: [msg.error()] is [None] or an error with a code,
    [msg.value()] is [None] or the payload bytes. *)
Record Message : Type := {
  msg_error : option Z;
  msg_value : option bytes_val
}.

(** What one [consumer.consume(batch_size, timeout=timeout)] call does. *)
Inductive poll : Type :=
| Batch (messages : list Message)
| PollRaises (e : exn).

Inductive VersionState : Type := ENABLED | DISABLED | DEPRECATED | DRAFT.

(** How [subprocess.run] ends: the process ran and exited, or it could
    not be started (or was interrupted) and [run] raised. *)
Inductive proc_result : Type :=
| Completed (returncode : Z) (stdout stderr : string)
| RunRaises (e : exn).

(** The collaborators. *)
Record Env : Type := {
  (** [json.loads] on a text; [None] is [JSONDecodeError] *)
  json_loads : string → option pyval;
  (** [yaml.safe_load] on a text; [None] is [YAMLError] *)
  yaml_safe_load : string → option pyval;
  (** [...versions.by_version_expression(version).content.get()] *)
  registry_content : pyval → pyval → pyval → result (option bytes_val);
  (** [...versions.by_version_expression(version).state.get()]: the
      wrapped state object, or [None]; its [.state] field may be [None] *)
  registry_state : pyval → pyval → pyval → result (option (option VersionState));
  (** [subprocess.run(args, input=...)] *)
  subprocess_run : list string → option string → proc_result;
  (** [os.path.join(os.path.dirname(os.getcwd()), 'api-resources/api-resources')] *)
  api_resources_path : string
}.

(** ** The world: output tree and observable events *)

Inductive node : Type :=
| Dir
| File (document : pyval).

(** The lines the script prints, one constructor per [print] statement,
    carrying the values the f-string interpolates. *)
Inductive LogLine : Type :=
| LogKafkaError (code : Z)
| LogErrorDecodingMessage
| LogVersionCreated (event_type artifact_id version : pyval)
| LogVersionEnabled (event_type artifact_id version : pyval)
| LogSkippingNewState (artifact_id new_state : pyval)
| LogArtifactDeleted (event_type artifact_id : pyval)
| LogVersionDeleted (event_type artifact_id version : pyval)
| LogOtherEvent (event_type artifact_id version : pyval)
| LogFailedToDecodeJSON
| LogMissingExpectedKey (key : string)
| LogFailedToRetrieve (artifact_id version : pyval) (e : exn)
| LogDeletedArtifactDirectory (folder_path : list string)
| LogArtifactDirectoryDoesNotExist (folder_path : list string)
| LogDeletedDirectory (folder_path : list string)
| LogDirectoryDoesNotExist (folder_path : list string)
| LogResourceSaved (file_path : list string)
| LogErrorGenerating (stderr : option string)
| LogNoMessagesLeft
| LogGitPushed
| LogErrorGit (stderr : option string).

Inductive Event : Type :=
| EvPrint (line : LogLine)
| EvRegistryContent (group_id artifact_id version : pyval)
| EvRegistryState (group_id artifact_id version : pyval)
| EvRun (args : list string) (input : option string)
| EvClose.

Record World : Type := {
  fs : gmap (list string) node;
  events : list Event
}.

Definition with_fs (f : gmap (list string) node) (w : World) : World :=
  {| fs := f; events := events w |}.

Definition emit (e : Event) (w : World) : World :=
  {| fs := fs w; events := e :: events w |}.

(** ** The monad of the script: state and exceptions *)

Definition M (A : Type) : Type := World → World * result A.

Definition ret {A} (a : A) : M A := λ w, (w, Ok a).

Definition raise {A} (e : exn) : M A := λ w, (w, Raise e).

Definition bind {A B} (m : M A) (k : A → M B) : M B :=
  λ w, match m w with
       | (w', Ok a) => k a w'
       | (w', Raise e) => (w', Raise e)
       end.

Declare Scope py_scope.
Delimit Scope py_scope with py.
Notation "x <- m ;; k" := (bind m (λ x, k))
  (at level 100, m at next level, right associativity) : py_scope.
Notation "m ;;; k" := (bind m (λ _, k))
  (at level 100, right associativity) : py_scope.
Open Scope py_scope.

(** [try: body except <class> as e: handler e except ...]: the first
    clause whose class matches handles the exception; an exception no
    clause matches goes on. *)
Fixpoint handle {A} (clauses : list ((exn → bool) * (exn → M A))) (e : exn) : M A :=
  match clauses with
  | [] => λ w, (w, Raise e)
  | (catches, handler) :: clauses' =>
      if catches e then handler e else handle clauses' e
  end.

Definition try_except {A} (body : M A) (clauses : list ((exn → bool) * (exn → M A))) : M A :=
  λ w, match body w with
       | (w', Ok a) => (w', Ok a)
       | (w', Raise e) => handle clauses e w'
       end.

(** [try: body finally: cleanup] *)
Definition try_finally {A} (body : M A) (cleanup : M unit) : M A :=
  λ w, match body w with
       | (w', r) =>
           match cleanup w' with
           | (w'', Ok _) => (w'', r)
           | (w'', Raise e) => (w'', Raise e)
           end
       end.

Definition lift {A} (r : result A) : M A := λ w, (w, r).

Definition print (line : LogLine) : M unit := λ w, (emit (EvPrint line) w, Ok ()).

Definition trace (e : Event) : M unit := λ w, (emit e w, Ok ()).


(** ** The output tree *)

(** Paths are relative to the output root and are never empty: the root
    itself is not a node of the map. *)

(** [os.path.join] takes strings: a [None] (an absent field) or any other
    value raises [TypeError].  A string is taken as the name of one
    directory entry, which is what [os.path.join] and the operating system
    make of a plain name ([plain_name] below); the script does not inspect
    the names, and the properties about places on disk assume them plain. *)
Definition path_component (v : pyval) : result string :=
  match v with
  | PStr s => Ok s
  | _ => Raise TypeError
  end.

(** [os.path.join(root, *parts)], as the list of entries below the
    root: the place the joined path names when the parts are plain names. *)
Fixpoint os_path_join (parts : list pyval) : result (list string) :=
  match parts with
  | [] => Ok []
  | v :: parts' =>
      match path_component v with
      | Ok s =>
          match os_path_join parts' with
          | Ok p => Ok (s :: p)
          | Raise e => Raise e
          end
      | Raise e => Raise e
      end
  end.

(** [os.path.exists] *)
Definition os_path_exists (p : list string) : M bool :=
  λ w, (w, Ok (bool_decide (is_Some (fs w !! p)))).

(** [os.makedirs(p, exist_ok=True)], walking [todo] below the directory
    [above]: a directory on the way is kept, a missing one is created, a
    regular file in the way is an [OSError]. *)
Fixpoint makedirs_from (above todo : list string) (f : gmap (list string) node)
  : gmap (list string) node * result unit :=
  match todo with
  | [] => (f, Ok ())
  | name :: todo' =>
      let p := above ++ [name] in
      match f !! p with
      | Some Dir => makedirs_from p todo' f
      | Some (File _) => (f, Raise OSError)
      | None => makedirs_from p todo' (<[p := Dir]> f)
      end
  end.

Definition os_makedirs (p : list string) : M unit :=
  λ w, match makedirs_from [] p (fs w) with
       | (f, r) => (with_fs f w, r)
       end.

(** [shutil.rmtree(p)]: the directory and everything below it. *)
Definition shutil_rmtree (p : list string) : M unit :=
  λ w, match fs w !! p with
       | Some Dir => (with_fs (filter (λ kv, ¬ p `prefix_of` kv.1) (fs w)) w, Ok ())
       | _ => (w, Raise OSError)
       end.

(** [with open(file_path, 'w') as file: yaml.dump(data, file, ...)]:
    the file holds the dump of [data]; it is kept as the document.  The
    file is the entry [filename] of [folder_path], which is where
    [os.path.join(folder_path, filename)] is when [filename] is a plain
    name. *)
Definition write_yaml (folder_path : list string) (filename : string) (data : pyval) : M unit :=
  λ w, match fs w !! folder_path with
       | Some Dir =>
           match fs w !! (folder_path ++ [filename]) with
           | Some Dir => (w, Raise OSError)
           | _ => (with_fs (<[folder_path ++ [filename] := File data]> (fs w)) w, Ok ())
           end
       | _ => (w, Raise OSError)
       end.

(** ** Names that are one directory entry *)

(** The script joins the group, the artifact and the version of an
    event into a path and hands it to the operating system as it is.  A
    name (the bytes of its file-system encoding) is one entry of a
    directory when it is not empty, is neither [.] nor [..], holds no
    separator and no NUL, and is not longer than a file name may be; a path
    of such names is plain when, below the output root, it is not longer
    than a path may be.  Any other string resolves to another place (an
    empty version to the artifact directory, [..] to the directory above, a
    name with a separator to a deeper one) or is refused by the system. *)
Definition NAME_MAX : Z := 255.
Definition PATH_MAX : Z := 4096.

Definition separator : Ascii.ascii := Ascii.ascii_of_nat 47.

Definition plain_char (c : Ascii.ascii) : bool :=
  negb (Ascii.eqb c separator) && negb (Ascii.eqb c Ascii.zero).

Definition plain_name (s : string) : bool :=
  negb (String.eqb s EmptyString) && negb (String.eqb s ".") && negb (String.eqb s "..")
  && forallb plain_char (String.list_ascii_of_string s)
  && (Z.of_nat (String.length s) <=? NAME_MAX).

(** The length of [/name/name...] below the root. *)
Fixpoint path_length (p : list string) : Z :=
  match p with
  | [] => 0
  | name :: p' => 1 + Z.of_nat (String.length name) + path_length p'
  end.

Definition plain_path (env : Env) (p : list string) : bool :=
  forallb plain_name p
  && (Z.of_nat (String.length (api_resources_path env)) + path_length p <? PATH_MAX).

(** ** The script *)

Section Script.
Context (env : Env).

(** [subprocess.run(args, input=input, ..., check=True)];
    [capture] is [capture_output]: without it the exception carries no
    [stderr]. *)
Definition run_checked (capture : bool) (args : list string) (input : option string) : M string :=
  trace (EvRun args input) ;;;
  match subprocess_run env args input with
  | Completed returncode stdout stderr =>
      if returncode =? 0 then ret stdout
      else raise (CalledProcessError (if capture then Some stderr else None))
  | RunRaises e => raise e
  end.

(** [data.pop('status', None)]: a method of dictionaries; a list has a
    [pop] of one argument, the other values have none. *)
Definition pop_status (data : pyval) : M pyval :=
  match data with
  | PDict d => ret (PDict (dict_pop "status" d))
  | PList _ => raise TypeError
  | _ => raise AttributeError
  end.

(** [openapi_content.decode("utf-8")] when the content is [bytes] *)
Definition decode_content (openapi_content : option bytes_val) : M (option string) :=
  match openapi_content with
  | Some (Utf8 text) => ret (Some text)
  | Some NotUtf8 => raise UnicodeDecodeError
  | None => ret None
  end.

Definition invoke_kuadrant_command (group_id artifact_id version : pyval)
    (args : list string) (openapi_content : option bytes_val) (filename : string) : M unit :=
  g <- lift (path_component group_id) ;;
  a <- lift (path_component artifact_id) ;;
  v <- lift (path_component version) ;;
  let folder_path := [g; a; v] in
  os_makedirs folder_path ;;;
  let filename := g +:+ "_" +:+ a +:+ "_v" +:+ v +:+ "_" +:+ filename +:+ ".yaml" in
  try_except
    (openapi_content <- decode_content openapi_content ;;
     stdout <- run_checked true args openapi_content ;;
     data <- match yaml_safe_load env stdout with
             | Some data => ret data
             | None => raise YAMLError
             end ;;
     data <- pop_status data ;;
     write_yaml folder_path filename data ;;;
     print (LogResourceSaved (folder_path ++ [filename])))
    [(is_CalledProcessError,
      λ e, match e with
           | CalledProcessError stderr => print (LogErrorGenerating stderr)
           | _ => ret ()
           end)].

Definition httproute_args : list string :=
  ["kuadrantctl"; "generate"; "gatewayapi"; "httproute"; "--oas"; "-"].
Definition authpolicy_args : list string :=
  ["kuadrantctl"; "generate"; "kuadrant"; "authpolicy"; "--oas"; "-"].
Definition ratelimitpolicy_args : list string :=
  ["kuadrantctl"; "generate"; "kuadrant"; "ratelimitpolicy"; "--oas"; "-"].

Definition invoke_kuadrant_cli (group_id artifact_id version : pyval)
    (openapi_content : option bytes_val) : M unit :=
  invoke_kuadrant_command group_id artifact_id version httproute_args openapi_content "httproute" ;;;
  invoke_kuadrant_command group_id artifact_id version authpolicy_args openapi_content "authpolicy" ;;;
  invoke_kuadrant_command group_id artifact_id version ratelimitpolicy_args openapi_content "ratelimiting_policy".

Definition get_artifact_content (group_id artifact_id version : pyval) : M unit :=
  try_except
    (trace (EvRegistryContent group_id artifact_id version) ;;;
     artifact_content <- lift (registry_content env group_id artifact_id version) ;;
     trace (EvRegistryState group_id artifact_id version) ;;;
     state <- lift (registry_state env group_id artifact_id version) ;;
     match state with
     | None => raise AttributeError
     | Some state_state =>
         match state_state with
         | Some ENABLED => invoke_kuadrant_cli group_id artifact_id version artifact_content
         | _ => ret ()
         end
     end)
    [(is_Exception, λ e, print (LogFailedToRetrieve artifact_id version e))].

Definition delete_artifact_directory (group_id artifact_id : pyval) : M unit :=
  folder_path <- lift (os_path_join [group_id; artifact_id]) ;;
  b <- os_path_exists folder_path ;;
  if b : bool then
    shutil_rmtree folder_path ;;;
    print (LogDeletedArtifactDirectory folder_path)
  else
    print (LogArtifactDirectoryDoesNotExist folder_path).

Definition delete_version (group_id artifact_id version : pyval) : M unit :=
  folder_path <- lift (os_path_join [group_id; artifact_id; version]) ;;
  b <- os_path_exists folder_path ;;
  if b : bool then
    shutil_rmtree folder_path ;;;
    print (LogDeletedDirectory folder_path)
  else
    print (LogDirectoryDoesNotExist folder_path).

(** [msg_value['payload']]: [KeyError] on a dictionary without the key,
    [TypeError] on a value that is not a dictionary. *)
Definition subscript (value : pyval) (key : string) : M pyval :=
  match value with
  | PDict d =>
      match dict_get key d with
      | Some v => ret v
      | None => raise (KeyError key)
      end
  | _ => raise TypeError
  end.

(** [json.loads(x)]: [x] must be text. *)
Definition py_json_loads (x : pyval) : M pyval :=
  match x with
  | PStr text =>
      match json_loads env text with
      | Some v => ret v
      | None => raise JSONDecodeError
      end
  | _ => raise TypeError
  end.

(** [payload.get(key, default)]: a method of dictionaries only. *)
Definition py_get (payload : pyval) (key : string) (default : pyval) : M pyval :=
  match payload with
  | PDict d =>
      match dict_get key d with
      | Some v => ret v
      | None => ret default
      end
  | _ => raise AttributeError
  end.

(** [msg.value().decode('utf-8')] *)
Definition decode_value (msg : Message) : M pyval :=
  match msg_value msg with
  | None => raise AttributeError
  | Some (Utf8 text) => ret (PStr text)
  | Some NotUtf8 => raise UnicodeDecodeError
  end.

(** The dispatch of [process_message]: the [try] block from the point
    where [payload] is bound. *)
Definition dispatch (payload : pyval) : M unit :=
  artifact_id <- py_get payload "artifactId" PNone ;;
  version <- py_get payload "version" PNone ;;
  event_type <- py_get payload "eventType" PNone ;;
  group_id <- py_get payload "groupId" (PStr "default") ;;
  if py_eq_str event_type "ARTIFACT_VERSION_CREATED" then
    print (LogVersionCreated event_type artifact_id version) ;;;
    get_artifact_content group_id artifact_id version
  else if py_eq_str event_type "ARTIFACT_VERSION_STATE_CHANGED" then
    new_state <- py_get payload "newState" PNone ;;
    if py_eq_str new_state "ENABLED" then
      print (LogVersionEnabled event_type artifact_id version) ;;;
      get_artifact_content group_id artifact_id version
    else
      print (LogSkippingNewState artifact_id new_state)
  else if py_eq_str event_type "ARTIFACT_DELETED" then
    print (LogArtifactDeleted event_type artifact_id) ;;;
    delete_artifact_directory group_id artifact_id
  else if py_eq_str event_type "ARTIFACT_VERSION_DELETED" then
    print (LogVersionDeleted event_type artifact_id version) ;;;
    delete_version group_id artifact_id version
  else
    print (LogOtherEvent event_type artifact_id version).

Definition process_message (msg : Message) : M unit :=
  try_except
    (text <- decode_value msg ;;
     msg_value <- py_json_loads text ;;
     payload <- (p <- subscript msg_value "payload" ;; py_json_loads p) ;;
     dispatch payload)
    [(is_JSONDecodeError, λ _, print LogFailedToDecodeJSON);
     (is_KeyError,
      λ e, match e with
           | KeyError key => print (LogMissingExpectedKey key)
           | _ => ret ()
           end)].

Fixpoint process_messages (messages : list Message) : M unit :=
  match messages with
  | [] => ret ()
  | msg :: messages' =>
      match msg_error msg with
      | Some code =>
          if code =? _PARTITION_EOF then ret ()
          else print (LogKafkaError code)
      | None =>
          try_except (process_message msg)
            [(is_JSONDecodeError, λ _, print LogErrorDecodingMessage)]
      end ;;;
      process_messages messages'
  end.

Definition git_add : list string :=
  ["git"; "-C"; api_resources_path env; "add"; "."].
Definition git_commit : list string :=
  ["git"; "-C"; api_resources_path env; "commit"; "-m"; "Update Kuadrant resources"].
Definition git_push : list string :=
  ["git"; "-C"; api_resources_path env; "push"].

Definition commit_and_push_to_git : M unit :=
  try_except
    (run_checked false git_add None ;;;
     run_checked false git_commit None ;;;
     run_checked false git_push None ;;;
     print LogGitPushed)
    [(is_CalledProcessError,
      λ e, match e with
           | CalledProcessError stderr => print (LogErrorGit stderr)
           | _ => ret ()
           end)].

(** Where the [while True] loop stands after an iteration: back at the
    top with its idle counter, or left through [break]. *)
Inductive loop_state : Type :=
| Polling (idle_time : Z)
| Break.

(** One iteration of the loop body, on what [consumer.consume] does. *)
Definition loop_body (timeout idle_timeout : Z) (p : poll) (idle_time : Z) : M loop_state :=
  messages <- match p with
              | Batch messages => ret messages
              | PollRaises e => raise e
              end ;;
  match messages with
  | _ :: _ =>
      let idle_time := 0 in
      process_messages messages ;;;
      ret (Polling idle_time)
  | [] =>
      let idle_time := idle_time + timeout in
      if idle_time >=? idle_timeout then
        print LogNoMessagesLeft ;;;
        commit_and_push_to_git ;;;
        ret Break
      else ret (Polling idle_time)
  end.

(** The loop on a script of polls: the calls to [consumer.consume] made
    so far.  When the script runs out the loop is still polling. *)
Fixpoint while_True (timeout idle_timeout : Z) (polls : list poll) (idle_time : Z) : M loop_state :=
  match polls with
  | [] => ret (Polling idle_time)
  | p :: polls' =>
      st <- loop_body timeout idle_timeout p idle_time ;;
      match st with
      | Polling idle_time' => while_True timeout idle_timeout polls' idle_time'
      | Break => ret Break
      end
  end.

(** [consumer.close()] *)
Definition consumer_close : M unit := trace EvClose.

(** The function on a script of polls.  [batch_size] bounds what the
    consumer hands over per call, which the script of polls has fixed
    already.  The [finally] clause runs when the loop is left, by [break]
    or by an exception; while the loop is polling the function has not
    come to it. *)
Definition consume_messages_in_batches (polls : list poll)
    (batch_size timeout idle_timeout : Z) : M loop_state :=
  let idle_time := 0 in
  λ w, match while_True timeout idle_timeout polls idle_time w with
       | (w', Ok (Polling idle_time')) => (w', Ok (Polling idle_time'))
       | _ => try_finally (while_True timeout idle_timeout polls idle_time) consumer_close w
       end.

End Script.

(** ** Reading a message the way [process_message] does *)

(** The payload dictionary of a message, when the two [json.loads] calls
    and the subscript of lines 76-77 go through and yield a dictionary. *)
Definition payload_of (env : Env) (msg : Message) : option (list (string * pyval)) :=
  match msg_value msg with
  | Some (Utf8 text) =>
      match json_loads env text with
      | Some (PDict top) =>
          match dict_get "payload" top with
          | Some (PStr ptext) =>
              match json_loads env ptext with
              | Some (PDict d) => Some d
              | _ => None
              end
          | _ => None
          end
      | _ => None
      end
  | _ => None
  end.

(** [payload.get(key, default)] as a value. *)
Definition field (key : string) (default : pyval) (d : list (string * pyval)) : pyval :=
  match dict_get key d with
  | Some v => v
  | None => default
  end.

Definition artifact_id_of := field "artifactId" PNone.
Definition version_of := field "version" PNone.
Definition event_type_of := field "eventType" PNone.
Definition group_id_of := field "groupId" (PStr "default").
Definition new_state_of := field "newState" PNone.

(** ** Observations on a run *)

(** The loop has been left, by [break] or by an exception. *)
Definition exited (r : result loop_state) : Prop :=
  match r with
  | Ok (Polling _) => False
  | _ => True
  end.

(** The synchronizer has been invoked once for each [git add] started:
    it is the first thing [commit_and_push_to_git] does, and nothing else
    starts one. *)
Definition is_sync (env : Env) (e : Event) : bool :=
  match e with
  | EvRun args _ => bool_decide (args = git_add env)
  | _ => false
  end.

Definition sync_count (env : Env) (w : World) : nat :=
  length (List.filter (is_sync env) (events w)).

(** [preserves R m]: every run of [m], returning or raising, takes a
    world to one related to it by [R]. *)
Definition preserves {A} (R : World → World → Prop) (m : M A) : Prop :=
  ∀ w w' r, m w = (w', r) → R w w'.

(** No new event of the kind [q]: the events after are the events before
    with others on top, none of them a [q]. *)
Definition quiet (q : Event → bool) (w w' : World) : Prop :=
  ∃ new, events w' = new ++ events w ∧ Forall (λ e, q e = false) new.

(** A subprocess was started. *)
Definition is_run (e : Event) : bool :=
  match e with
  | EvRun _ _ => true
  | _ => false
  end.

(** Neither generation nor a change of the output tree: no subprocess
    was started and the tree is the same. *)
Definition untouched (w w' : World) : Prop :=
  fs w' = fs w ∧ quiet is_run w w'.

(** The text a generator gets on its standard input. *)
Definition content_text (openapi_content : option bytes_val) : option string :=
  match openapi_content with
  | Some (Utf8 text) => Some text
  | _ => None
  end.

(** The name of the file for a coordinate and a mode. *)
Definition output_filename (g a v mode : string) : string :=
  g +:+ "_" +:+ a +:+ "_v" +:+ v +:+ "_" +:+ mode +:+ ".yaml".

(** Nothing of the wrong kind sits where the script wants a directory
    or a file. *)
Definition not_a_file (f : gmap (list string) node) (p : list string) : Prop :=
  ∀ document, f !! p ≠ Some (File document).

Definition not_a_directory (f : gmap (list string) node) (p : list string) : Prop :=
  f !! p ≠ Some Dir.

(** The effect of the script on the output tree alone, as functions of
    the tree, on the entries [g], [a], [v] as [path_component] takes them
    (the places of the script for plain names); the lemmas
    [invoke_kuadrant_command_fs], [invoke_kuadrant_cli_fs] and
    [process_message_created_fs] below show that the script follows
    them. *)

(** What the [try] block of [invoke_kuadrant_command] has in hand when
    it comes to the write: the document to dump, or the exception of an
    earlier statement. *)
Definition generated (env : Env) (args : list string) (openapi_content : option bytes_val)
  : result pyval :=
  match openapi_content with
  | Some NotUtf8 => Raise UnicodeDecodeError
  | _ =>
      match subprocess_run env args (content_text openapi_content) with
      | RunRaises e => Raise e
      | Completed returncode stdout stderr =>
          if returncode =? 0 then
            match yaml_safe_load env stdout with
            | None => Raise YAMLError
            | Some (PDict d) => Ok (PDict (dict_pop "status" d))
            | Some (PList _) => Raise TypeError
            | Some _ => Raise AttributeError
            end
          else Raise (CalledProcessError (Some stderr))
      end
  end.

(** The tree after [invoke_kuadrant_command], and whether the function
    returned ([true]) or raised ([false]). *)
Definition command_fs (env : Env) (g a v : string) (args : list string)
    (openapi_content : option bytes_val) (mode : string)
    (f : gmap (list string) node) : gmap (list string) node * bool :=
  match makedirs_from [] [g; a; v] f with
  | (f1, Raise _) => (f1, false)
  | (f1, Ok _) =>
      match generated env args openapi_content with
      | Ok data =>
          match f1 !! [g; a; v; output_filename g a v mode] with
          | Some Dir => (f1, false)
          | _ => (<[ [g; a; v; output_filename g a v mode] := File data ]> f1, true)
          end
      | Raise e => (f1, is_CalledProcessError e)
      end
  end.

(** The tree after [invoke_kuadrant_cli]: the three commands in turn, up
    to the first that raises. *)
Definition cli_fs (env : Env) (g a v : string) (openapi_content : option bytes_val)
    (f : gmap (list string) node) : gmap (list string) node :=
  match command_fs env g a v httproute_args openapi_content "httproute" f with
  | (f1, false) => f1
  | (f1, true) =>
      match command_fs env g a v authpolicy_args openapi_content "authpolicy" f1 with
      | (f2, false) => f2
      | (f2, true) =>
          (command_fs env g a v ratelimitpolicy_args openapi_content "ratelimiting_policy" f2).1
      end
  end.

(** The tree after [get_artifact_content]. *)
Definition fetched_fs (env : Env) (group_id artifact_id version : pyval)
    (f : gmap (list string) node) : gmap (list string) node :=
  match registry_content env group_id artifact_id version,
        registry_state env group_id artifact_id version,
        group_id, artifact_id, version with
  | Ok openapi_content, Ok (Some (Some ENABLED)), PStr g, PStr a, PStr v =>
      cli_fs env g a v openapi_content f
  | _, _, _, _, _ => f
  end.

(** The three directories of a coordinate are in place. *)
Definition settled (g a v : string) (f : gmap (list string) node) : Prop :=
  f !! [g] = Some Dir ∧ f !! [g; a] = Some Dir ∧ f !! [g; a; v] = Some Dir.

(** ** A sample deployment *)

(** The texts of the sample messages stand for JSON documents; the
    parser of the sample environment maps the text of an envelope to a
    dictionary whose [payload] is a second text, and that text to the
    event fields. *)
Fixpoint loads_from (known : list (string * list (string * pyval))) (text : string)
  : option pyval :=
  match known with
  | [] => None
  | (label, fields) :: known' =>
      if String.eqb text label then
        Some (PDict [("payload", PStr (label +:+ ".payload"))])
      else if String.eqb text (label +:+ ".payload") then
        Some (PDict fields)
      else loads_from known' text
  end.

Definition sample_events : list (string * list (string * pyval)) :=
  [ ("created",
     [("eventType", PStr "ARTIFACT_VERSION_CREATED"); ("artifactId", PStr "orders-api");
      ("version", PStr "1"); ("groupId", PStr "shop")]);
    ("enabled",
     [("eventType", PStr "ARTIFACT_VERSION_STATE_CHANGED"); ("artifactId", PStr "orders-api");
      ("version", PStr "1"); ("groupId", PStr "shop"); ("newState", PStr "ENABLED")]);
    ("state-changed",
     [("eventType", PStr "ARTIFACT_VERSION_STATE_CHANGED"); ("artifactId", PStr "orders-api");
      ("version", PStr "1"); ("groupId", PStr "shop")]);
    ("artifact-deleted",
     [("eventType", PStr "ARTIFACT_DELETED"); ("artifactId", PStr "orders-api");
      ("groupId", PStr "shop")]);
    ("version-deleted",
     [("eventType", PStr "ARTIFACT_VERSION_DELETED"); ("artifactId", PStr "orders-api");
      ("version", PStr "1"); ("groupId", PStr "shop")]);
    ("version-deleted-no-version",
     [("eventType", PStr "ARTIFACT_VERSION_DELETED"); ("artifactId", PStr "orders-api");
      ("groupId", PStr "shop")]);
    ("artifact-deleted-no-artifact",
     [("eventType", PStr "ARTIFACT_DELETED"); ("groupId", PStr "shop")]);
    ("created-no-artifact",
     [("eventType", PStr "ARTIFACT_VERSION_CREATED"); ("version", PStr "1");
      ("groupId", PStr "shop")]) ].

Definition message (label : string) : Message :=
  {| msg_error := None; msg_value := Some (Utf8 label) |}.

(** The sample registry answers for coordinates given as strings and
    raises on any other, as a client that checks its arguments does.
    The sample generator prints, for each mode, a document with a
    [status] block; the sample YAML parser reads those three texts and
    rejects every other text. *)
Definition sample_yaml (text : string) : option pyval :=
  if String.eqb text "httproute.yaml" then
    Some (PDict [("kind", PStr "HTTPRoute"); ("status", PDict [("parents", PList [])])])
  else if String.eqb text "authpolicy.yaml" then
    Some (PDict [("kind", PStr "AuthPolicy"); ("status", PStr "stale")])
  else if String.eqb text "ratelimitpolicy.yaml" then
    Some (PDict [("status", PNone); ("kind", PStr "RateLimitPolicy")])
  else None.

Definition sample_tool (args : list string) (input : option string) : proc_result :=
  match args with
  | ["kuadrantctl"; "generate"; _; mode; "--oas"; "-"] =>
      Completed 0 (mode +:+ ".yaml") ""
  | _ => Completed 0 "" ""
  end.

Definition sample_env (state : VersionState)
    (tool : list string → option string → proc_result) : Env :=
  {| json_loads := loads_from sample_events;
     yaml_safe_load := sample_yaml;
     registry_content := λ group_id artifact_id version,
       match group_id, artifact_id, version with
       | PStr _, PStr _, PStr _ => Ok (Some (Utf8 "openapi: 3.0.0"))
       | _, _, _ => Raise TypeError
       end;
     registry_state := λ group_id artifact_id version,
       match group_id, artifact_id, version with
       | PStr _, PStr _, PStr _ => Ok (Some (Some state))
       | _, _, _ => Raise TypeError
       end;
     subprocess_run := tool;
     api_resources_path := "/work/api-resources/api-resources" |}.

(** Two generators that differ from the sample one on [httproute]: one
    exits with status 0 and prints something that is not YAML, one exits
    with status 1. *)
Definition tool_httproute_garbled (args : list string) (input : option string) : proc_result :=
  match args with
  | ["kuadrantctl"; "generate"; "gatewayapi"; "httproute"; "--oas"; "-"] =>
      Completed 0 "<html>502 Bad Gateway</html>" ""
  | _ => sample_tool args input
  end.

Definition tool_httproute_fails (args : list string) (input : option string) : proc_result :=
  match args with
  | ["kuadrantctl"; "generate"; "gatewayapi"; "httproute"; "--oas"; "-"] =>
      Completed 1 "" "Error: invalid OpenAPI document"
  | _ => sample_tool args input
  end.

Definition empty_world : World := {| fs := ∅; events := [] |}.

(** An output tree holding versions 1 and 2 of [shop/orders-api], each
    with one generated file. *)
Definition two_versions : World :=
  {| fs := list_to_map
       [ (["shop"], Dir);
         (["shop"; "orders-api"], Dir);
         (["shop"; "orders-api"; "1"], Dir);
         (["shop"; "orders-api"; "1"; "shop_orders-api_v1_httproute.yaml"],
          File (PDict [("kind", PStr "HTTPRoute")]));
         (["shop"; "orders-api"; "2"], Dir);
         (["shop"; "orders-api"; "2"; "shop_orders-api_v2_httproute.yaml"],
          File (PDict [("kind", PStr "HTTPRoute")])) ];
     events := [] |}.

(** ** The start of the process *)

(** [create_consumer] and [main].  The Kafka client is two more
    collaborators: the constructor [Consumer(config)] and
    [consumer.subscribe(topics)], each of which returns or raises.  What
    happens before the loop is recorded apart from the [World] of the loop,
    newest first as well: all of it comes before the first poll. *)
Record Kafka : Type := {
  (** [Consumer({...})] *)
  new_consumer : list (string * string) → result ();
  (** [consumer.subscribe([kafka_topic])] *)
  consumer_subscribe : list string → result ()
}.

Inductive StartEvent : Type :=
| StPrintBootstrapServer (kafka_bootstrap_server : string)
| StPrintRegistryUrl (apicurio_registry_url : string)
| StPrintTopic (kafka_topic : string)
| StConsumer (config : list (string * string))
| StSubscribe (topics : list string).

(** The configuration [create_consumer] builds; [GROUP_ID] is the
    module-level [uuid.uuid4()], drawn once per process. *)
Definition consumer_config (GROUP_ID kafka_bootstrap_server : string) : list (string * string) :=
  [ ("bootstrap.servers", kafka_bootstrap_server);
    ("group.id", GROUP_ID);
    ("auto.offset.reset", "earliest");
    ("security.protocol", "SSL");
    ("enable.ssl.certificate.verification", "false") ].

(** [create_consumer]: the events so far, and whether a consumer came
    out of it. *)
Definition create_consumer (kafka : Kafka) (GROUP_ID kafka_bootstrap_server kafka_topic : string)
    (started : list StartEvent) : list StartEvent * result () :=
  let config := consumer_config GROUP_ID kafka_bootstrap_server in
  match new_consumer kafka config with
  | Raise e => (StConsumer config :: started, Raise e)
  | Ok _ =>
      match consumer_subscribe kafka [kafka_topic] with
      | Raise e => (StSubscribe [kafka_topic] :: StConsumer config :: started, Raise e)
      | Ok _ => (StSubscribe [kafka_topic] :: StConsumer config :: started, Ok ())
      end
  end.

(** [main], on the polls the consumer will answer with. *)
Definition main (kafka : Kafka) (env : Env) (GROUP_ID : string) (polls : list poll)
    (kafka_bootstrap_server apicurio_registry_url kafka_topic : string) (w : World)
  : list StartEvent * World * result loop_state :=
  let started :=
    [ StPrintTopic kafka_topic;
      StPrintRegistryUrl apicurio_registry_url;
      StPrintBootstrapServer kafka_bootstrap_server ] in
  match create_consumer kafka GROUP_ID kafka_bootstrap_server kafka_topic started with
  | (started', Raise e) => (started', w, Raise e)
  | (started', Ok _) =>
      match consume_messages_in_batches env polls 10 5 10 w with
      | (w', r) => (started', w', r)
      end
  end.

(** ** The tree after a message *)

(** The tree after [delete_artifact_directory] or [delete_version] on
    the path [p], a list of entries: the place [os.path.join] names when
    the entries are plain names. *)
Definition deleted_fs (p : list string) (f : gmap (list string) node)
  : gmap (list string) node :=
  match f !! p with
  | Some Dir => filter (λ kv, ¬ p `prefix_of` kv.1) f
  | _ => f
  end.

(** The tree after [dispatch] on a payload dictionary. *)
Definition dispatched_fs (env : Env) (d : list (string * pyval))
    (f : gmap (list string) node) : gmap (list string) node :=
  if py_eq_str (event_type_of d) "ARTIFACT_VERSION_CREATED" then
    fetched_fs env (group_id_of d) (artifact_id_of d) (version_of d) f
  else if py_eq_str (event_type_of d) "ARTIFACT_VERSION_STATE_CHANGED" then
    if py_eq_str (new_state_of d) "ENABLED" then
      fetched_fs env (group_id_of d) (artifact_id_of d) (version_of d) f
    else f
  else if py_eq_str (event_type_of d) "ARTIFACT_DELETED" then
    match os_path_join [group_id_of d; artifact_id_of d] with
    | Ok folder_path => deleted_fs folder_path f
    | Raise _ => f
    end
  else if py_eq_str (event_type_of d) "ARTIFACT_VERSION_DELETED" then
    match os_path_join [group_id_of d; artifact_id_of d; version_of d] with
    | Ok folder_path => deleted_fs folder_path f
    | Raise _ => f
    end
  else f.

(** The tree after [process_message]. *)
Definition processed_fs (env : Env) (msg : Message) (f : gmap (list string) node)
  : gmap (list string) node :=
  match payload_of env msg with
  | Some d => dispatched_fs env d f
  | None => f
  end.

(** ** Events with plain names *)

(** The names an event brings to the disk are plain: for an
    ArtifactDeleted event the path of the artifact directory, for any other
    event the path of the files of the version (the longest of the three
    file names stands for all).  An event whose group, artifact or version
    is not a string does not come to the disk: [os.path.join] raises. *)
Definition plain_event (env : Env) (d : list (string * pyval)) : bool :=
  if py_eq_str (event_type_of d) "ARTIFACT_DELETED" then
    match group_id_of d, artifact_id_of d with
    | PStr g, PStr a => plain_path env [g; a]
    | _, _ => true
    end
  else
    match group_id_of d, artifact_id_of d, version_of d with
    | PStr g, PStr a, PStr v =>
        plain_path env [g; a; v; output_filename g a v "ratelimiting_policy"]
    | _, _, _ => true
    end.

Definition plain_message (env : Env) (msg : Message) : bool :=
  match payload_of env msg with
  | Some d => plain_event env d
  | None => true
  end.

(** ** Shapes of the output tree *)

(** The layout the script builds: directories at depth one to three,
    files at depth four, and below the first level every node sits in a
    directory. *)
Definition layout (f : gmap (list string) node) : Prop :=
  ∀ p n, f !! p = Some n →
    match n with
    | Dir => (1 ≤ length p ≤ 3)%nat
    | File _ => length p = 4%nat
    end
    ∧ ∀ q x, p = q ++ [x] → q ≠ [] → f !! q = Some Dir.

(** Every file holds a mapping without a top-level [status]. *)
Definition no_status_on_disk (f : gmap (list string) node) : Prop :=
  ∀ p document, f !! p = Some (File document) →
    ∃ d, document = PDict d ∧ dict_get "status" d = None.

(** The lines [process_messages] prints for the delivery errors of a
    batch, newest first: one for each error that is not the end of a
    partition. *)
Fixpoint kafka_error_lines (messages : list Message) (printed : list Event) : list Event :=
  match messages with
  | [] => printed
  | msg :: messages' =>
      match msg_error msg with
      | Some code =>
          if code =? _PARTITION_EOF then kafka_error_lines messages' printed
          else kafka_error_lines messages' (EvPrint (LogKafkaError code) :: printed)
      | None => kafka_error_lines messages' printed
      end
  end.

(** A sample Kafka client that accepts the configuration and the
    subscription, and one whose broker cannot be reached on subscribe. *)
Definition sample_kafka : Kafka :=
  {| new_consumer := λ _, Ok (); consumer_subscribe := λ _, Ok () |}.

Definition unreachable_kafka : Kafka :=
  {| new_consumer := λ _, Ok ();
     consumer_subscribe := λ _, Raise (OtherException "KafkaException") |}.

(** ** More of the sample deployment *)

(** More sample events, for the properties beyond the claims. *)
Definition more_events : list (string * list (string * pyval)) :=
  [ ("version-deleted-no-group",
     [("eventType", PStr "ARTIFACT_VERSION_DELETED"); ("artifactId", PStr "orders-api");
      ("version", PStr "1")]);
    ("version-deleted-default-group",
     [("eventType", PStr "ARTIFACT_VERSION_DELETED"); ("artifactId", PStr "orders-api");
      ("version", PStr "1"); ("groupId", PStr "default")]);
    ("artifact-deleted-null-group",
     [("eventType", PStr "ARTIFACT_DELETED"); ("artifactId", PStr "orders-api");
      ("groupId", PNone)]);
    ("disabled",
     [("eventType", PStr "ARTIFACT_VERSION_STATE_CHANGED"); ("artifactId", PStr "orders-api");
      ("version", PStr "1"); ("groupId", PStr "shop"); ("newState", PStr "DISABLED")]);
    ("metadata-updated",
     [("eventType", PStr "ARTIFACT_VERSION_METADATA_UPDATED"); ("artifactId", PStr "orders-api");
      ("version", PStr "1"); ("groupId", PStr "shop")]) ].

Definition more_env (state : VersionState)
    (tool : list string → option string → proc_result) : Env :=
  {| json_loads := loads_from (sample_events ++ more_events);
     yaml_safe_load := yaml_safe_load (sample_env state tool);
     registry_content := registry_content (sample_env state tool);
     registry_state := registry_state (sample_env state tool);
     subprocess_run := tool;
     api_resources_path := api_resources_path (sample_env state tool) |}.

(** A [git] that has nothing to commit. *)
Definition git_nothing_to_commit (args : list string) (input : option string) : proc_result :=
  match args with
  | ["git"; "-C"; _; "commit"; "-m"; _] => Completed 1 "" ""
  | _ => Completed 0 "" ""
  end.

(** ** The messages of a run *)

(** The messages of a script of polls that reach [process_message], in
    the order polled: those without a delivery error, up to the first poll
    that raises. *)
Definition no_delivery_error (msg : Message) : bool :=
  match msg_error msg with
  | None => true
  | Some _ => false
  end.

Fixpoint delivered (polls : list poll) : list Message :=
  match polls with
  | [] => []
  | Batch messages :: polls' => List.filter no_delivery_error messages ++ delivered polls'
  | PollRaises _ :: _ => []
  end.

(** The tree after the messages [msgs], processed in order. *)
Definition tree_after (env : Env) (msgs : list Message) (f : gmap (list string) node)
  : gmap (list string) node :=
  foldl (λ f msg, processed_fs env msg f) f msgs.

(** An output tree that knows the artifact [shop/orders-api] and holds
    no version of it. *)
Definition known_artifact : World :=
  {| fs := <[ ["shop"; "orders-api"] := Dir ]> (<[ ["shop"] := Dir ]> ∅);
     events := [] |}.

(** A deployment whose generators exit with status 0 and print nothing,
    which YAML reads as null, and one whose registry hands over bytes that
    are not UTF-8. *)
Definition silent_generators : Env :=
  {| json_loads := loads_from sample_events;
     yaml_safe_load := λ text, if String.eqb text "" then Some PNone else sample_yaml text;
     registry_content := registry_content (sample_env ENABLED sample_tool);
     registry_state := registry_state (sample_env ENABLED sample_tool);
     subprocess_run := λ _ _, Completed 0 "" "";
     api_resources_path := api_resources_path (sample_env ENABLED sample_tool) |}.

Definition binary_content : Env :=
  {| json_loads := loads_from sample_events;
     yaml_safe_load := sample_yaml;
     registry_content := λ _ _ _, Ok (Some NotUtf8);
     registry_state := registry_state (sample_env ENABLED sample_tool);
     subprocess_run := sample_tool;
     api_resources_path := api_resources_path (sample_env ENABLED sample_tool) |}.

(** The same tree with a regular file where the directory of version
    [1] would be. *)
Definition version_is_a_file : World :=
  {| fs := <[ ["shop"; "orders-api"; "1"] := File PNone ]> (fs known_artifact);
     events := [] |}.

(** * Properties *)

(** ** Reading a message *)

(** A message whose payload decodes to the dictionary [d] is handed to
    [dispatch] under the two [except] clauses of [process_message]. *)
Lemma process_message_decoded env msg d w :
  payload_of env msg = Some d →
  process_message env msg w =
  try_except (dispatch env (PDict d))
    [(is_JSONDecodeError, λ _, print LogFailedToDecodeJSON);
     (is_KeyError,
      λ e, match e with
           | KeyError key => print (LogMissingExpectedKey key)
           | _ => ret ()
           end)] w.
Proof.
  unfold payload_of, process_message, decode_value.
  destruct (msg_value msg) as [[text|]|]; try discriminate.
  unfold try_except, bind, ret, raise, py_json_loads, subscript. cbn.
  destruct (json_loads env text) as [[| | | |l|top]|]; try discriminate. cbn.
  destruct (dict_get "payload" top) as [[| | |ptext| |]|]; try discriminate. cbn.
  destruct (json_loads env ptext) as [[| | | | |d']|]; try discriminate.
  intros [= ->]. reflexivity.
Qed.

(** The four fields [dispatch] reads off a dictionary. *)
Lemma py_get_dict d key default w :
  py_get (PDict d) key default w = (w, Ok (field key default d)).
Proof. unfold py_get, field. destruct (dict_get key d); reflexivity. Qed.

(** [dispatch] on a dictionary, with the fields read. *)
Lemma dispatch_dict env d w :
  dispatch env (PDict d) w =
  (if py_eq_str (event_type_of d) "ARTIFACT_VERSION_CREATED" then
     print (LogVersionCreated (event_type_of d) (artifact_id_of d) (version_of d)) ;;;
     get_artifact_content env (group_id_of d) (artifact_id_of d) (version_of d)
   else if py_eq_str (event_type_of d) "ARTIFACT_VERSION_STATE_CHANGED" then
     if py_eq_str (new_state_of d) "ENABLED" then
       print (LogVersionEnabled (event_type_of d) (artifact_id_of d) (version_of d)) ;;;
       get_artifact_content env (group_id_of d) (artifact_id_of d) (version_of d)
     else
       print (LogSkippingNewState (artifact_id_of d) (new_state_of d))
   else if py_eq_str (event_type_of d) "ARTIFACT_DELETED" then
     print (LogArtifactDeleted (event_type_of d) (artifact_id_of d)) ;;;
     delete_artifact_directory (group_id_of d) (artifact_id_of d)
   else if py_eq_str (event_type_of d) "ARTIFACT_VERSION_DELETED" then
     print (LogVersionDeleted (event_type_of d) (artifact_id_of d) (version_of d)) ;;;
     delete_version (group_id_of d) (artifact_id_of d) (version_of d)
   else
     print (LogOtherEvent (event_type_of d) (artifact_id_of d) (version_of d))) w.
Proof.
  unfold dispatch, bind. rewrite !py_get_dict.
  fold (artifact_id_of d) (version_of d) (event_type_of d) (group_id_of d).
  destruct (py_eq_str (event_type_of d) "ARTIFACT_VERSION_CREATED"); [reflexivity|].
  destruct (py_eq_str (event_type_of d) "ARTIFACT_VERSION_STATE_CHANGED"); [|reflexivity].
  rewrite py_get_dict. reflexivity.
Qed.

(** An event type given as a string is what the comparisons see. *)
Lemma event_type_of_Some d s :
  dict_get "eventType" d = Some (PStr s) → event_type_of d = PStr s.
Proof. unfold event_type_of, field. by intros ->. Qed.

(** ** C10: a state change without [newState] *)

(** C10. An ARTIFACT_VERSION_STATE_CHANGED event whose payload has no
    [newState] field is handled like a state change to a state other than
    ENABLED: [process_message] prints the skip line and does nothing else.
    The world after it is the world before plus that one line, so there is
    no registry request, no subprocess, no write and no deletion, and the
    function returns normally: neither [except] clause is taken. *)
Theorem state_changed_without_newState_is_skipped env msg d w :
  payload_of env msg = Some d →
  dict_get "eventType" d = Some (PStr "ARTIFACT_VERSION_STATE_CHANGED") →
  dict_get "newState" d = None →
  process_message env msg w =
  (emit (EvPrint (LogSkippingNewState (artifact_id_of d) PNone)) w, Ok ()).
Proof.
  intros Hd Het Hns.
  rewrite (process_message_decoded _ _ _ _ Hd).
  unfold try_except. rewrite dispatch_dict.
  rewrite (event_type_of_Some _ _ Het). cbn.
  unfold new_state_of, field. rewrite Hns. reflexivity.
Qed.

Lemma state_changed_without_newState_is_skipped_witness :
  process_message (sample_env ENABLED sample_tool) (message "state-changed") empty_world =
  (emit (EvPrint (LogSkippingNewState (PStr "orders-api") PNone)) empty_world, Ok ()).
Proof.
  apply (state_changed_without_newState_is_skipped
           (sample_env ENABLED sample_tool) (message "state-changed")
           [("eventType", PStr "ARTIFACT_VERSION_STATE_CHANGED"); ("artifactId", PStr "orders-api");
            ("version", PStr "1"); ("groupId", PStr "shop")]);
    reflexivity.
Defined.

(** ** C7: the consumer is closed on every exit *)

(** C7. Whenever [consume_messages_in_batches] is over, whether the loop
    was left by [break] after the idle threshold, by an exception that
    escaped the processing of a message, or by an interruption, the result
    is the one of the loop and [consumer.close()] is the last thing that
    happened: the world is the one the loop left, with the close event on
    top of it. *)
Theorem consumer_closed_on_every_exit env polls batch_size timeout idle_timeout w w' r :
  consume_messages_in_batches env polls batch_size timeout idle_timeout w = (w', r) →
  exited r →
  ∃ w1, while_True env timeout idle_timeout polls 0 w = (w1, r)
        ∧ w' = emit EvClose w1
        ∧ events w' = EvClose :: events w1.
Proof.
  unfold consume_messages_in_batches, try_finally, consumer_close, trace.
  destruct (while_True env timeout idle_timeout polls 0 w) as [w1 [[i|]|e]] eqn:E.
  - intros [= <- <-] [].
  - intros [= <- <-] _. eauto.
  - intros [= <- <-] _. eauto.
Qed.

(** The three ways out, on the sample deployment: the idle threshold, an
    exception escaping from a message, an interruption of the poll. *)
Lemma consumer_closed_on_every_exit_witness :
  ∃ w1, while_True (sample_env ENABLED sample_tool) 5 10
          [Batch [message "created"]; PollRaises KeyboardInterrupt] 0 empty_world
        = (w1, Raise KeyboardInterrupt)
        ∧ (consume_messages_in_batches (sample_env ENABLED sample_tool)
             [Batch [message "created"]; PollRaises KeyboardInterrupt] 10 5 10 empty_world).1
          = emit EvClose w1
        ∧ events (consume_messages_in_batches (sample_env ENABLED sample_tool)
             [Batch [message "created"]; PollRaises KeyboardInterrupt] 10 5 10 empty_world).1
          = EvClose :: events w1.
Proof.
  apply (consumer_closed_on_every_exit (sample_env ENABLED sample_tool)
           [Batch [message "created"]; PollRaises KeyboardInterrupt] 10 5 10 empty_world).
  - vm_compute. reflexivity.
  - exact I.
Defined.

(** ** What a computation leaves alone *)

Section Preserves.
Context (R : World → World → Prop) `{!PreOrder R}.

Lemma preserves_ret {A} (a : A) : preserves R (ret a).
Proof. intros w w' r [= <- <-]. reflexivity. Qed.

Lemma preserves_raise {A} e : preserves R (raise (A:=A) e).
Proof. intros w w' r [= <- <-]. reflexivity. Qed.

Lemma preserves_lift {A} (x : result A) : preserves R (lift x).
Proof. intros w w' r [= <- <-]. reflexivity. Qed.

Lemma preserves_bind {A B} (m : M A) (k : A → M B) :
  preserves R m → (∀ a, preserves R (k a)) → preserves R (bind m k).
Proof.
  intros Hm Hk w w' r. unfold bind.
  destruct (m w) as [w1 [a|e]] eqn:E.
  - intros H. etrans; [exact (Hm _ _ _ E)|exact (Hk _ _ _ _ H)].
  - intros [= <- <-]. exact (Hm _ _ _ E).
Qed.

Lemma preserves_handle {A} (clauses : list ((exn → bool) * (exn → M A))) e :
  Forall (λ c, ∀ e, preserves R (c.2 e)) clauses → preserves R (handle clauses e).
Proof.
  induction 1 as [|[catches handler] clauses H _ IH]; cbn.
  - intros w w' r [= <- <-]. reflexivity.
  - destruct (catches e); [apply H|apply IH].
Qed.

Lemma preserves_try_except {A} (body : M A) clauses :
  preserves R body →
  Forall (λ c, ∀ e, preserves R (c.2 e)) clauses →
  preserves R (try_except body clauses).
Proof.
  intros Hb Hc w w' r. unfold try_except.
  destruct (body w) as [w1 [a|e]] eqn:E.
  - intros [= <- <-]. exact (Hb _ _ _ E).
  - intros H. etrans; [exact (Hb _ _ _ E)|exact (preserves_handle _ _ Hc _ _ _ H)].
Qed.

End Preserves.

#[local] Instance quiet_preorder q : PreOrder (quiet q).
Proof.
  split.
  - intros w. exists []. split; [reflexivity|constructor].
  - intros w1 w2 w3 (n1 & E1 & F1) (n2 & E2 & F2).
    exists (n2 ++ n1). rewrite E2, E1, app_assoc. split; [reflexivity|].
    apply Forall_app; split; assumption.
Qed.

Lemma quiet_emit q e w : q e = false → quiet q w (emit e w).
Proof. intros H. exists [e]. split; [reflexivity|]. repeat constructor. exact H. Qed.

Lemma quiet_with_fs q f w : quiet q w (with_fs f w).
Proof. exists []. split; [reflexivity|constructor]. Qed.

Lemma preserves_quiet_trace q e : q e = false → preserves (quiet q) (trace e).
Proof. intros H w w' r [= <- <-]. by apply quiet_emit. Qed.

Lemma preserves_quiet_print q line :
  q (EvPrint line) = false → preserves (quiet q) (print line).
Proof. apply preserves_quiet_trace. Qed.

Lemma preserves_quiet_exists q p : preserves (quiet q) (os_path_exists p).
Proof. intros w w' r [= <- <-]. reflexivity. Qed.

Lemma preserves_quiet_makedirs q p : preserves (quiet q) (os_makedirs p).
Proof.
  intros w w' r. unfold os_makedirs.
  destruct (makedirs_from [] p (fs w)). intros [= <- <-]. apply quiet_with_fs.
Qed.

Lemma preserves_quiet_rmtree q p : preserves (quiet q) (shutil_rmtree p).
Proof.
  intros w w' r. unfold shutil_rmtree.
  destruct (fs w !! p) as [[|?]|]; intros [= <- <-];
    first [apply quiet_with_fs | reflexivity].
Qed.

Lemma preserves_quiet_write q folder filename data :
  preserves (quiet q) (write_yaml folder filename data).
Proof.
  intros w w' r. unfold write_yaml.
  destruct (fs w !! folder) as [[|?]|];
    [|intros [= <- <-]; reflexivity|intros [= <- <-]; reflexivity].
  destruct (fs w !! (folder ++ [filename])) as [[|?]|]; intros [= <- <-];
    first [apply quiet_with_fs | reflexivity].
Qed.

(** Going through a definition of the script, statement by statement. *)
Ltac preserves_step :=
  lazymatch goal with
  | |- preserves ?R (bind _ _) => apply (preserves_bind R); [|intros ?]
  | |- preserves ?R (ret _) => apply (preserves_ret R)
  | |- preserves ?R (raise _) => apply (preserves_raise R)
  | |- preserves ?R (lift _) => apply (preserves_lift R)
  | |- preserves ?R (try_except _ _) =>
      apply (preserves_try_except R); [|repeat (constructor; [intros ?; cbn [snd]|])]
  | |- preserves _ (os_path_exists _) => apply preserves_quiet_exists
  | |- preserves _ (os_makedirs _) => apply preserves_quiet_makedirs
  | |- preserves _ (shutil_rmtree _) => apply preserves_quiet_rmtree
  | |- preserves _ (write_yaml _ _ _) => apply preserves_quiet_write
  | |- preserves _ (match ?x with _ => _ end) => destruct x
  | |- Forall _ [] => constructor
  end.

(** Processing messages prints, calls the registry and runs the three
    generator commands, and nothing else: a kind of event [q] that none of
    these is does not occur. *)
Section MessagesAreQuiet.
Context (env : Env) (q : Event → bool).
Context (q_print : ∀ line, q (EvPrint line) = false).
Context (q_content : ∀ g a v, q (EvRegistryContent g a v) = false).
Context (q_state : ∀ g a v, q (EvRegistryState g a v) = false).
Context (q_generate : ∀ args input,
           args ∈ [httproute_args; authpolicy_args; ratelimitpolicy_args] →
           q (EvRun args input) = false).

Ltac quiet_step :=
  first
    [ apply preserves_quiet_print; apply q_print
    | apply preserves_quiet_trace; first [apply q_content | apply q_state]
    | preserves_step ].

Lemma run_checked_quiet capture args input :
  args ∈ [httproute_args; authpolicy_args; ratelimitpolicy_args] →
  preserves (quiet q) (run_checked env capture args input).
Proof.
  intros Hin. unfold run_checked. preserves_step.
  - apply preserves_quiet_trace. by apply q_generate.
  - repeat quiet_step.
Qed.

Lemma invoke_kuadrant_command_quiet g a v args content filename :
  args ∈ [httproute_args; authpolicy_args; ratelimitpolicy_args] →
  preserves (quiet q) (invoke_kuadrant_command env g a v args content filename).
Proof.
  intros Hin. unfold invoke_kuadrant_command, decode_content, pop_status.
  repeat first [ apply run_checked_quiet; assumption | quiet_step ].
Qed.

Lemma invoke_kuadrant_cli_quiet g a v content :
  preserves (quiet q) (invoke_kuadrant_cli env g a v content).
Proof.
  unfold invoke_kuadrant_cli.
  repeat first
    [ apply invoke_kuadrant_command_quiet; set_solver
    | quiet_step ].
Qed.

Lemma get_artifact_content_quiet g a v :
  preserves (quiet q) (get_artifact_content env g a v).
Proof.
  unfold get_artifact_content.
  repeat first [ apply invoke_kuadrant_cli_quiet | quiet_step ].
Qed.

Lemma dispatch_quiet payload : preserves (quiet q) (dispatch env payload).
Proof.
  unfold dispatch, py_get, delete_artifact_directory, delete_version.
  repeat first [ apply get_artifact_content_quiet | quiet_step ].
Qed.

Lemma process_message_quiet msg : preserves (quiet q) (process_message env msg).
Proof.
  unfold process_message, decode_value, py_json_loads, subscript.
  repeat first [ apply dispatch_quiet | quiet_step ].
Qed.

Lemma process_messages_quiet messages :
  preserves (quiet q) (process_messages env messages).
Proof.
  induction messages as [|msg messages IH]; cbn [process_messages].
  - preserves_step.
  - repeat first [ apply process_message_quiet | exact IH | quiet_step ].
Qed.

End MessagesAreQuiet.

(** In particular the synchronizer is not invoked. *)
Lemma process_messages_no_sync env messages :
  preserves (quiet (is_sync env)) (process_messages env messages).
Proof.
  apply process_messages_quiet; try reflexivity.
  intros args input Hin. cbn. apply bool_decide_eq_false.
  intros ->. set_unfold in Hin. by destruct Hin as [|[|[|[]]]].
Qed.

(** A quiet stretch leaves the count of synchronizer invocations. *)
Lemma quiet_sync_count env w w' :
  quiet (is_sync env) w w' → sync_count env w' = sync_count env w.
Proof.
  intros (new & E & F). unfold sync_count. rewrite E, List.filter_app, length_app.
  assert (List.filter (is_sync env) new = []) as ->; [|reflexivity].
  clear E. induction F as [|e new He _ IH]; [reflexivity|].
  cbn [List.filter]. rewrite He. exact IH.
Qed.

(** ** C1: the idle counter and the idle threshold *)

Section IdleLoop.
Context (env : Env).

Lemma sync_count_emit_sync input w :
  sync_count env (emit (EvRun (git_add env) input) w) = S (sync_count env w).
Proof.
  unfold sync_count. cbn. by rewrite bool_decide_eq_true_2.
Qed.

Lemma sync_count_emit_other e w :
  is_sync env e = false → sync_count env (emit e w) = sync_count env w.
Proof. intros H. unfold sync_count. cbn. by rewrite H. Qed.

Lemma git_commit_not_sync input : is_sync env (EvRun (git_commit env) input) = false.
Proof. cbn. apply bool_decide_eq_false. discriminate. Qed.

Lemma git_push_not_sync input : is_sync env (EvRun (git_push env) input) = false.
Proof. cbn. apply bool_decide_eq_false. discriminate. Qed.

(** [commit_and_push_to_git] starts [git add] once, whatever becomes of
    the three commands; it returns unless a command cannot be run. *)
Lemma commit_and_push_to_git_syncs_once w w' r :
  commit_and_push_to_git env w = (w', r) →
  sync_count env w' = S (sync_count env w)
  ∧ fs w' = fs w
  ∧ (r = Ok () ∨ ∃ e args, r = Raise e ∧ subprocess_run env args None = RunRaises e).
Proof.
  unfold commit_and_push_to_git, run_checked, try_except, bind, trace, ret, raise, print.
  assert (∀ e args, subprocess_run env args None = RunRaises e →
          Raise e = Ok () ∨ ∃ e' args', Raise (A:=()) e = Raise e'
                       ∧ subprocess_run env args' None = RunRaises e') as Hraise
    by (intros; right; eauto).
  destruct (subprocess_run env (git_add env) None) as [rc1 o1 e1|x1] eqn:E1;
    [destruct (rc1 =? 0);
     [destruct (subprocess_run env (git_commit env) None) as [rc2 o2 e2|x2] eqn:E2;
      [destruct (rc2 =? 0);
       [destruct (subprocess_run env (git_push env) None) as [rc3 o3 e3|x3] eqn:E3;
        [destruct (rc3 =? 0)|destruct x3]
       |]
      |destruct x2]
     |]
    |destruct x1];
    cbn; intros [= <- <-];
    repeat first
      [ rewrite sync_count_emit_sync
      | rewrite sync_count_emit_other
          by first [reflexivity | apply git_commit_not_sync | apply git_push_not_sync] ];
    (split; [reflexivity|split; [reflexivity|]]);
    first [by left | eapply Hraise; eassumption].
Qed.

(** The loop on a script that goes on: first the polls so far, then,
    if the loop is still polling, the next ones. *)
Lemma while_True_app timeout idle_timeout pre post idle_time w :
  while_True env timeout idle_timeout (pre ++ post) idle_time w =
  match while_True env timeout idle_timeout pre idle_time w with
  | (w1, Ok (Polling idle_time1)) => while_True env timeout idle_timeout post idle_time1 w1
  | other => other
  end.
Proof.
  revert idle_time w. induction pre as [|p pre IH]; intros idle_time w; [reflexivity|].
  cbn [app while_True]. unfold bind.
  destruct (loop_body env timeout idle_timeout p idle_time w) as [w1 [[i1|]|e]];
    [apply IH|reflexivity|reflexivity].
Qed.

Lemma loop_body_raises timeout idle_timeout e idle_time w :
  loop_body env timeout idle_timeout (PollRaises e) idle_time w = (w, Raise e).
Proof. reflexivity. Qed.

(** An empty batch below the threshold: the counter grows by the
    timeout and nothing else happens. *)
Lemma loop_body_empty_below timeout idle_timeout idle_time w :
  idle_time + timeout < idle_timeout →
  loop_body env timeout idle_timeout (Batch []) idle_time w =
  (w, Ok (Polling (idle_time + timeout))).
Proof.
  intros H. unfold loop_body, bind, ret.
  destruct (Z.geb_spec (idle_time + timeout) idle_timeout); [lia|reflexivity].
Qed.

(** An empty batch that reaches the threshold: one synchronizer
    invocation, then [break]. *)
Lemma loop_body_empty_reached timeout idle_timeout idle_time w w' r :
  idle_timeout ≤ idle_time + timeout →
  loop_body env timeout idle_timeout (Batch []) idle_time w = (w', r) →
  sync_count env w' = S (sync_count env w)
  ∧ fs w' = fs w
  ∧ (r = Ok Break ∨ ∃ e args, r = Raise e ∧ subprocess_run env args None = RunRaises e).
Proof.
  intros H. unfold loop_body, bind, ret, print.
  destruct (Z.geb_spec (idle_time + timeout) idle_timeout); [|lia].
  destruct (commit_and_push_to_git env (emit (EvPrint LogNoMessagesLeft) w))
    as [w1 r1] eqn:E.
  apply commit_and_push_to_git_syncs_once in E as (Hc & Hf & Hr).
  rewrite sync_count_emit_other in Hc by reflexivity.
  destruct Hr as [->|(e & args & -> & Hr)]; intros [= <- <-]; eauto 8.
Qed.

(** A batch with messages: the counter is back at zero and the
    synchronizer is not invoked. *)
Lemma loop_body_nonempty timeout idle_timeout msg messages idle_time w w' r :
  loop_body env timeout idle_timeout (Batch (msg :: messages)) idle_time w = (w', r) →
  sync_count env w' = sync_count env w
  ∧ (r = Ok (Polling 0) ∨ ∃ e, r = Raise e).
Proof.
  unfold loop_body, bind, ret.
  destruct (process_messages env (msg :: messages) w) as [w1 [[]|e]] eqn:E;
    intros [= <- <-];
    (split; [apply quiet_sync_count; exact (process_messages_no_sync _ _ _ _ _ E)|]);
    eauto.
Qed.

(** With timeout 5 and threshold 10, started at zero: while the loop is
    polling the counter is 0 or 5 and the synchronizer has not run. *)
Lemma polling_invariant polls idle_time w w1 idle_time1 :
  idle_time = 0 ∨ idle_time = 5 →
  while_True env 5 10 polls idle_time w = (w1, Ok (Polling idle_time1)) →
  sync_count env w1 = sync_count env w ∧ (idle_time1 = 0 ∨ idle_time1 = 5).
Proof.
  revert idle_time w. induction polls as [|p polls IH]; intros i w Hi.
  - intros [= <- <-]. auto.
  - cbn [while_True]. unfold bind.
    destruct (loop_body env 5 10 p i w) as [w2 [[i2|]|e]] eqn:E; try discriminate.
    intros H. destruct p as [[|msg messages]|e].
    + destruct (decide (i + 5 < 10)) as [Hlt|Hge].
      * rewrite loop_body_empty_below in E by exact Hlt. injection E as <- <-.
        destruct (IH (i + 5) w) as [-> ?]; [right; lia|exact H|auto].
      * apply loop_body_empty_reached in E as (_ & _ & [?|(? & ? & ? & _)]);
          [discriminate|discriminate|lia].
    + apply loop_body_nonempty in E as [Hc [[= ->]|[? ?]]]; [|discriminate].
      destruct (IH 0 w2) as [-> ?]; [by left|exact H|auto].
    + discriminate.
Qed.

(** Where the loop breaks: at an empty batch met with the counter at 5. *)
Lemma break_point polls idle_time w w' :
  idle_time = 0 ∨ idle_time = 5 →
  while_True env 5 10 polls idle_time w = (w', Ok Break) →
  ∃ pre rest w1,
    polls = pre ++ Batch [] :: rest
    ∧ while_True env 5 10 pre idle_time w = (w1, Ok (Polling 5))
    ∧ sync_count env w' = S (sync_count env w1)
    ∧ fs w' = fs w1.
Proof.
  revert idle_time w. induction polls as [|p polls IH]; intros i w Hi; [discriminate|].
  cbn [while_True]. unfold bind.
  destruct (loop_body env 5 10 p i w) as [w2 [[i2|]|e]] eqn:E; try discriminate.
  - intros H.
    assert (i2 = 0 ∨ i2 = 5) as Hi2.
    { eapply (polling_invariant [p] i w w2 i2 Hi).
      cbn [while_True]. unfold bind. rewrite E. reflexivity. }
    destruct (IH _ _ Hi2 H) as (pre & rest & w1 & -> & Hpre & Hc & Hf).
    exists (p :: pre), rest, w1. split; [reflexivity|]. split; [|auto].
    cbn [while_True]. unfold bind. rewrite E. exact Hpre.
  - intros [= <-]. destruct p as [[|msg messages]|e].
    + destruct (decide (i + 5 < 10)) as [Hlt|Hge].
      * rewrite loop_body_empty_below in E by exact Hlt. discriminate.
      * apply loop_body_empty_reached in E as (Hc & Hf & _); [|lia].
        exists [], polls, w. replace i with 5 by lia. auto.
    + apply loop_body_nonempty in E as [_ [[=]|[? [=]]]].
    + discriminate.
Qed.

(** The counter stands at 5 only right after an empty batch met at 0. *)
Lemma polling_5_after_empty pre w w1 :
  while_True env 5 10 pre 0 w = (w1, Ok (Polling 5)) →
  ∃ pre', pre = pre' ++ [Batch []] ∧ while_True env 5 10 pre' 0 w = (w1, Ok (Polling 0)).
Proof.
  destruct pre as [|p pre _] using rev_ind; [discriminate|].
  rewrite while_True_app.
  destruct (while_True env 5 10 pre 0 w) as [w0 [[i0|]|e]] eqn:E; try discriminate.
  destruct (polling_invariant pre 0 w w0 i0) as [_ Hi0]; [by left|exact E|].
  cbn [while_True]. unfold bind.
  destruct (loop_body env 5 10 p i0 w0) as [w2 [[i2|]|e]] eqn:E2; try discriminate.
  intros [= <- ->]. destruct p as [[|msg messages]|e].
  - destruct (decide (i0 + 5 < 10)) as [Hlt|Hge].
    + rewrite loop_body_empty_below in E2 by exact Hlt. injection E2 as <- Hi.
      exists pre. replace i0 with 0 in * by lia. auto.
    + apply loop_body_empty_reached in E2 as (_ & _ & [?|(? & ? & ? & _)]);
        [discriminate|discriminate|lia].
  - apply loop_body_nonempty in E2 as [_ [[=]|[? [=]]]].
  - discriminate.
Qed.

End IdleLoop.

(** C1. With [timeout = 5] and [idle_timeout = 10], on every script of
    polls: (1) a batch with messages puts the idle counter back to zero,
    without a synchronizer invocation; (2) an empty batch below the
    threshold adds the timeout to the counter and does nothing else;
    (3) one empty poll after the counter stood at zero leaves the loop
    polling, with the world as it was; (4) a second empty poll right after
    it invokes the synchronizer, for the only time in the run, and the loop
    is left, by [break] unless a [git] command could not be run at all;
    (5) the loop is left by [break] only so: the polls up to the break end
    with two empty ones in a row, and the synchronizer has run once. *)
Theorem idle_threshold env :
  (∀ msg messages idle_time w w' st,
     loop_body env 5 10 (Batch (msg :: messages)) idle_time w = (w', Ok st) →
     st = Polling 0 ∧ sync_count env w' = sync_count env w)
  ∧ (∀ idle_time w,
       idle_time + 5 < 10 →
       loop_body env 5 10 (Batch []) idle_time w = (w, Ok (Polling (idle_time + 5))))
  ∧ (∀ pre w w1,
       while_True env 5 10 pre 0 w = (w1, Ok (Polling 0)) →
       while_True env 5 10 (pre ++ [Batch []]) 0 w = (w1, Ok (Polling 5))
       ∧ sync_count env w1 = sync_count env w)
  ∧ (∀ pre rest w w1,
       while_True env 5 10 pre 0 w = (w1, Ok (Polling 0)) →
       ∃ w2 r,
         while_True env 5 10 (pre ++ Batch [] :: Batch [] :: rest) 0 w = (w2, r)
         ∧ exited r
         ∧ sync_count env w2 = S (sync_count env w)
         ∧ fs w2 = fs w1
         ∧ (r = Ok Break
            ∨ ∃ e args, r = Raise e ∧ subprocess_run env args None = RunRaises e))
  ∧ (∀ polls w w',
       while_True env 5 10 polls 0 w = (w', Ok Break) →
       ∃ pre rest w1,
         polls = pre ++ Batch [] :: Batch [] :: rest
         ∧ while_True env 5 10 pre 0 w = (w1, Ok (Polling 0))
         ∧ sync_count env w' = S (sync_count env w)).
Proof.
  split_and!.
  - intros msg messages i w w' st E.
    apply loop_body_nonempty in E as [Hc [[= ->]|[? [=]]]]. auto.
  - intros i w H. by apply loop_body_empty_below.
  - intros pre w w1 E. split.
    + rewrite while_True_app, E. cbn [while_True]. unfold bind.
      rewrite loop_body_empty_below by lia. reflexivity.
    + eapply polling_invariant; [|exact E]. by left.
  - intros pre rest w w1 E.
    destruct (polling_invariant env pre 0 w w1 0) as [Hc0 _]; [by left|exact E|].
    rewrite while_True_app, E. cbn [while_True]. unfold bind.
    rewrite loop_body_empty_below by lia. change (0 + 5) with 5.
    destruct (loop_body env 5 10 (Batch []) 5 w1) as [w2 r2] eqn:E2.
    apply loop_body_empty_reached in E2 as (Hc & Hf & Hr); [|lia].
    rewrite Hc0 in Hc.
    destruct Hr as [->|(e & args & -> & Hr)].
    + exists w2, (Ok Break). split_and!; auto. exact I.
    + exists w2, (Raise e). split_and!; eauto. exact I.
  - intros polls w w' E.
    apply break_point in E as (pre & rest & w1 & -> & E & Hc & _); [|by left].
    apply polling_5_after_empty in E as (pre' & -> & E).
    destruct (polling_invariant env pre' 0 w w1 0) as [Hc0 _]; [by left|exact E|].
    exists pre', rest, w1. rewrite <- app_assoc. split_and!; [reflexivity|exact E|congruence].
Qed.

Lemma idle_threshold_witness :
  ∃ w2 r,
    while_True (sample_env ENABLED sample_tool) 5 10
      ([Batch [message "created"]] ++ Batch [] :: Batch [] :: [Batch [message "enabled"]])
      0 empty_world = (w2, r)
    ∧ exited r
    ∧ sync_count (sample_env ENABLED sample_tool) w2
      = S (sync_count (sample_env ENABLED sample_tool) empty_world)
    ∧ fs w2 = fs (process_message (sample_env ENABLED sample_tool)
                    (message "created") empty_world).1
    ∧ (r = Ok Break
       ∨ ∃ e args, r = Raise e ∧ sample_tool args None = RunRaises e).
Proof.
  destruct (idle_threshold (sample_env ENABLED sample_tool)) as (_ & _ & _ & H & _).
  apply (H [Batch [message "created"]] [Batch [message "enabled"]] empty_world).
  vm_compute. reflexivity.
Defined.

(** ** C5: the state the registry reports decides *)

#[local] Instance untouched_preorder : PreOrder untouched.
Proof.
  split.
  - intros w. split; reflexivity.
  - intros w1 w2 w3 [F1 Q1] [F2 Q2]. split; [congruence|by etrans].
Qed.

Lemma untouched_emit e w : is_run e = false → untouched w (emit e w).
Proof. intros H. split; [reflexivity|by apply quiet_emit]. Qed.

Lemma preserves_untouched_trace e : is_run e = false → preserves untouched (trace e).
Proof. intros H w w' r [= <- <-]. by apply untouched_emit. Qed.

(** The two [except] clauses of [process_message] only print. *)
Lemma process_message_preserves_untouched env msg d :
  payload_of env msg = Some d →
  preserves untouched (dispatch env (PDict d)) →
  preserves untouched (process_message env msg).
Proof.
  intros Hd Hb w w' r. rewrite (process_message_decoded _ _ _ _ Hd).
  revert w w' r. apply (preserves_try_except untouched); [exact Hb|].
  constructor; [|constructor; [|constructor]]; intros e; cbn [snd].
  - by apply preserves_untouched_trace.
  - destruct e; first [by apply preserves_untouched_trace | apply (preserves_ret untouched)].
Qed.

(** Unless the registry reports ENABLED, [get_artifact_content] stops
    after the two requests. *)
Lemma get_artifact_content_not_enabled env g a v :
  registry_state env g a v ≠ Ok (Some (Some ENABLED)) →
  preserves untouched (get_artifact_content env g a v).
Proof.
  intros Hs. unfold get_artifact_content.
  apply (preserves_try_except untouched).
  - apply (preserves_bind untouched); [by apply preserves_untouched_trace|intros _].
    apply (preserves_bind untouched); [apply (preserves_lift untouched)|intros content].
    apply (preserves_bind untouched); [by apply preserves_untouched_trace|intros _].
    intros w w' r. unfold bind, lift, ret, raise.
    destruct (registry_state env g a v) as [[[[]|]|]|e]; try congruence;
      intros [= <- <-]; reflexivity.
  - constructor; [|constructor]. intros e. by apply preserves_untouched_trace.
Qed.


(** C5. For a VersionCreated event, and for a VersionStateChanged event
    with [newState = ENABLED], when the state the registry reports at fetch
    time is not ENABLED (another state, no state, or a failed request), the
    processing of the message starts no generator and leaves the output
    tree as it was: the event's own claim of enablement does not count. *)
Theorem registry_state_is_authoritative env msg d w w' r :
  payload_of env msg = Some d →
  event_type_of d = PStr "ARTIFACT_VERSION_CREATED"
  ∨ (event_type_of d = PStr "ARTIFACT_VERSION_STATE_CHANGED"
     ∧ new_state_of d = PStr "ENABLED") →
  registry_state env (group_id_of d) (artifact_id_of d) (version_of d)
    ≠ Ok (Some (Some ENABLED)) →
  process_message env msg w = (w', r) →
  fs w' = fs w ∧ quiet is_run w w'.
Proof.
  intros Hd Ht Hs. revert w w' r.
  apply (process_message_preserves_untouched env msg d Hd).
  intros w w' r. rewrite dispatch_dict.
  destruct Ht as [->|[-> ->]]; cbn [py_eq_str String.eqb Ascii.eqb Bool.eqb];
    revert w w' r;
    (apply (preserves_bind untouched);
     [by apply preserves_untouched_trace
     |intros _; by apply get_artifact_content_not_enabled]).
Qed.

Lemma registry_state_is_authoritative_witness :
  fs (process_message (sample_env DISABLED sample_tool) (message "enabled") empty_world).1
  = fs empty_world
  ∧ quiet is_run empty_world
      (process_message (sample_env DISABLED sample_tool) (message "enabled") empty_world).1.
Proof.
  apply (registry_state_is_authoritative
           (sample_env DISABLED sample_tool) (message "enabled")
           [("eventType", PStr "ARTIFACT_VERSION_STATE_CHANGED"); ("artifactId", PStr "orders-api");
            ("version", PStr "1"); ("groupId", PStr "shop"); ("newState", PStr "ENABLED")]
           empty_world _
           (process_message (sample_env DISABLED sample_tool) (message "enabled") empty_world).2).
  - reflexivity.
  - right. split; reflexivity.
  - discriminate.
  - apply surjective_pairing.
Defined.

(** ** C4: events without [artifactId] *)

(** With [None] for the artifact, [os.path.join] raises before anything
    is done: in the generator call and in both deletions. *)
Lemma invoke_kuadrant_command_no_artifact env g v args content filename w :
  invoke_kuadrant_command env g PNone v args content filename w = (w, Raise TypeError).
Proof. unfold invoke_kuadrant_command, bind, lift. destruct g; reflexivity. Qed.

Lemma invoke_kuadrant_cli_no_artifact env g v content w :
  invoke_kuadrant_cli env g PNone v content w = (w, Raise TypeError).
Proof.
  unfold invoke_kuadrant_cli, bind. by rewrite invoke_kuadrant_command_no_artifact.
Qed.

Lemma delete_artifact_directory_no_artifact g w :
  delete_artifact_directory g PNone w = (w, Raise TypeError).
Proof. unfold delete_artifact_directory, bind, lift. destruct g; reflexivity. Qed.

Lemma delete_version_no_artifact g v w :
  delete_version g PNone v w = (w, Raise TypeError).
Proof. unfold delete_version, bind, lift. destruct g; reflexivity. Qed.

Lemma get_artifact_content_no_artifact env g v :
  preserves untouched (get_artifact_content env g PNone v).
Proof.
  unfold get_artifact_content.
  apply (preserves_try_except untouched).
  - apply (preserves_bind untouched); [by apply preserves_untouched_trace|intros _].
    apply (preserves_bind untouched); [apply (preserves_lift untouched)|intros content].
    apply (preserves_bind untouched); [by apply preserves_untouched_trace|intros _].
    apply (preserves_bind untouched); [apply (preserves_lift untouched)|intros state].
    destruct state as [[[]|]|];
      first [ apply (preserves_ret untouched) | apply (preserves_raise untouched) | idtac ].
    intros w w' r. rewrite invoke_kuadrant_cli_no_artifact. intros [= <- <-]. reflexivity.
  - constructor; [|constructor]. intros e. by apply preserves_untouched_trace.
Qed.

Lemma dispatch_no_artifact env d :
  dict_get "artifactId" d = None → preserves untouched (dispatch env (PDict d)).
Proof.
  intros Ha w w' r. rewrite dispatch_dict.
  assert (artifact_id_of d = PNone) as -> by (unfold artifact_id_of, field; by rewrite Ha).
  revert w w' r.
  lazymatch goal with
  | |- ∀ w w' r, ?m w = (w', r) → untouched w w' => change (preserves untouched m)
  end.
  repeat lazymatch goal with
  | |- preserves _ (if ?b then _ else _) => destruct b
  | |- preserves _ (bind (print _) _) =>
      apply (preserves_bind untouched); [by apply preserves_untouched_trace|intros _]
  | |- preserves _ (print _) => by apply preserves_untouched_trace
  | |- preserves _ (get_artifact_content _ _ _ _) => apply get_artifact_content_no_artifact
  | |- preserves _ (delete_artifact_directory _ _) =>
      intros w w' r; rewrite delete_artifact_directory_no_artifact;
      intros [= <- <-]; reflexivity
  | |- preserves _ (delete_version _ _ _) =>
      intros w w' r; rewrite delete_version_no_artifact;
      intros [= <- <-]; reflexivity
  end.
Qed.

Lemma quiet_In q w w' e : quiet q w w' → In e (events w) → In e (events w').
Proof. intros (new & -> & _) H. apply in_or_app. by right. Qed.

(** What is recorded first in a [try] block is still there at the end. *)
Lemma traced_first_stays {A} q e (k : M A) clauses w w' r :
  preserves (quiet q) k →
  Forall (λ c, ∀ e, preserves (quiet q) (c.2 e)) clauses →
  try_except (trace e ;;; k) clauses w = (w', r) →
  In e (events w').
Proof.
  intros Hk Hc. unfold try_except, bind, trace.
  destruct (k (emit e w)) as [w1 [a|x]] eqn:E.
  - intros [= <- <-]. eapply quiet_In; [exact (Hk _ _ _ E)|]. by left.
  - intros H. eapply quiet_In; [exact (preserves_handle _ _ _ Hc _ _ _ H)|].
    eapply quiet_In; [exact (Hk _ _ _ E)|]. by left.
Qed.

(** [get_artifact_content] calls the registry client with the
    coordinate it is given, whatever the coordinate is. *)
Lemma get_artifact_content_calls_registry env g a v w w' r :
  get_artifact_content env g a v w = (w', r) →
  In (EvRegistryContent g a v) (events w').
Proof.
  unfold get_artifact_content. apply (traced_first_stays (λ _, false)).
  - repeat first
      [ apply invoke_kuadrant_cli_quiet; by intros
      | apply preserves_quiet_trace; reflexivity
      | preserves_step ].
  - constructor; [|constructor]. intros e. by apply preserves_quiet_trace.
Qed.

(** C4, as the code has it.  An event whose payload has no [artifactId]
    is not rejected: it is dispatched on its type with [None] for the
    artifact.  Whatever its type, no generator is started and the output
    tree stays as it was (nothing written, nothing deleted); a
    VersionCreated event, and a VersionStateChanged event to ENABLED, still
    reach the registry client, with [None] for the artifact. *)
Theorem without_artifactId_nothing_generated_or_changed env msg d w w' r :
  payload_of env msg = Some d →
  dict_get "artifactId" d = None →
  process_message env msg w = (w', r) →
  fs w' = fs w
  ∧ quiet is_run w w'
  ∧ (event_type_of d = PStr "ARTIFACT_VERSION_CREATED"
     ∨ (event_type_of d = PStr "ARTIFACT_VERSION_STATE_CHANGED"
        ∧ new_state_of d = PStr "ENABLED") →
     In (EvRegistryContent (group_id_of d) PNone (version_of d)) (events w')).
Proof.
  intros Hd Ha H.
  destruct (process_message_preserves_untouched env msg d Hd
              (dispatch_no_artifact env d Ha) _ _ _ H) as [Hf Hq].
  split; [exact Hf|]. split; [exact Hq|]. intros Ht.
  rewrite (process_message_decoded _ _ _ _ Hd) in H.
  unfold try_except in H. rewrite dispatch_dict in H.
  assert (artifact_id_of d = PNone) as Ea by (unfold artifact_id_of, field; by rewrite Ha).
  rewrite Ea in H.
  assert (∃ line w1 r1,
            get_artifact_content env (group_id_of d) PNone (version_of d)
              (emit (EvPrint line) w) = (w1, r1)
            ∧ match r1 with
              | Ok a => (w1, Ok a)
              | Raise e =>
                  handle
                    [(is_JSONDecodeError, λ _, print LogFailedToDecodeJSON);
                     (is_KeyError,
                      λ e, match e with
                           | KeyError key => print (LogMissingExpectedKey key)
                           | _ => ret ()
                           end)] e w1
              end = (w', r)) as (line & w1 & r1 & E & H').
  { destruct Ht as [Ht|[Ht Hn]]; rewrite Ht in H; try rewrite Hn in H;
      cbn [py_eq_str String.eqb Ascii.eqb Bool.eqb] in H;
      unfold bind at 1, print at 1 in H;
      match type of H with
      | context [get_artifact_content env ?g ?a ?v ?w0] =>
          destruct (get_artifact_content env g a v w0) as [w1 r1] eqn:E
      end; eauto 6. }
  apply get_artifact_content_calls_registry in E.
  assert (quiet (λ _, false) w1 w') as Hg.
  { destruct r1 as [[]|x].
    - injection H' as <- <-. reflexivity.
    - revert H'. apply (preserves_handle (quiet (λ _, false))).
      constructor; [|constructor; [|constructor]]; intros x'; cbn [snd].
      + by apply preserves_quiet_trace.
      + destruct x'; first [by apply preserves_quiet_trace | apply (preserves_ret _)]. }
  exact (quiet_In _ _ _ _ Hg E).
Qed.

(** C4 as the specification has it fails on two sample events without
    [artifactId]: the ArtifactDeleted one is not logged and
    skipped, [process_message] raises [TypeError] on it (from
    [os.path.join] in [delete_artifact_directory]), which no [except]
    clause on the way up catches; the VersionCreated one reaches the
    registry client. *)
Lemma artifactId_required_counterexample :
  payload_of (sample_env ENABLED sample_tool) (message "artifact-deleted-no-artifact")
  = Some [("eventType", PStr "ARTIFACT_DELETED"); ("groupId", PStr "shop")]
  ∧ dict_get "artifactId" [("eventType", PStr "ARTIFACT_DELETED"); ("groupId", PStr "shop")]
    = None
  ∧ process_message (sample_env ENABLED sample_tool)
      (message "artifact-deleted-no-artifact") empty_world
    = (emit (EvPrint (LogArtifactDeleted (PStr "ARTIFACT_DELETED") PNone)) empty_world,
       Raise TypeError)
  ∧ process_messages (sample_env ENABLED sample_tool)
      [message "artifact-deleted-no-artifact"; message "created"] empty_world
    = (emit (EvPrint (LogArtifactDeleted (PStr "ARTIFACT_DELETED") PNone)) empty_world,
       Raise TypeError)
  ∧ payload_of (sample_env ENABLED sample_tool) (message "created-no-artifact")
    = Some [("eventType", PStr "ARTIFACT_VERSION_CREATED"); ("version", PStr "1");
            ("groupId", PStr "shop")]
  ∧ process_message (sample_env ENABLED sample_tool)
      (message "created-no-artifact") empty_world
    = ({| fs := ∅;
          events := [EvPrint (LogFailedToRetrieve PNone (PStr "1") TypeError);
                     EvRegistryContent (PStr "shop") PNone (PStr "1");
                     EvPrint (LogVersionCreated (PStr "ARTIFACT_VERSION_CREATED")
                                PNone (PStr "1"))] |},
       Ok ()).
Proof. repeat split. Qed.

Lemma without_artifactId_nothing_generated_or_changed_witness :
  fs (process_message (sample_env ENABLED sample_tool)
        (message "created-no-artifact") empty_world).1 = fs empty_world
  ∧ quiet is_run empty_world
      (process_message (sample_env ENABLED sample_tool)
         (message "created-no-artifact") empty_world).1
  ∧ In (EvRegistryContent (PStr "shop") PNone (PStr "1"))
       (events (process_message (sample_env ENABLED sample_tool)
                  (message "created-no-artifact") empty_world).1).
Proof.
  destruct (without_artifactId_nothing_generated_or_changed
              (sample_env ENABLED sample_tool) (message "created-no-artifact")
              [("eventType", PStr "ARTIFACT_VERSION_CREATED"); ("version", PStr "1");
               ("groupId", PStr "shop")]
              empty_world _
              (process_message (sample_env ENABLED sample_tool)
                 (message "created-no-artifact") empty_world).2
              eq_refl eq_refl
              (surjective_pairing _)) as (Hf & Hq & Hr).
  split; [exact Hf|]. split; [exact Hq|]. apply Hr. left. reflexivity.
Defined.

(** ** C3: errors that are not caught *)

(** [delete_version] without a version: [os.path.join] raises, and the
    two [except] clauses of [process_message] are for other classes. *)
Lemma version_deleted_without_version_raises env msg d w :
  payload_of env msg = Some d →
  dict_get "eventType" d = Some (PStr "ARTIFACT_VERSION_DELETED") →
  dict_get "version" d = None →
  process_message env msg w =
  (emit (EvPrint (LogVersionDeleted (PStr "ARTIFACT_VERSION_DELETED") (artifact_id_of d) PNone)) w,
   Raise TypeError).
Proof.
  intros Hd Ht Hv. rewrite (process_message_decoded _ _ _ _ Hd).
  unfold try_except. rewrite dispatch_dict.
  rewrite (event_type_of_Some _ _ Ht).
  assert (version_of d = PNone) as -> by (unfold version_of, field; by rewrite Hv).
  cbn [py_eq_str String.eqb Ascii.eqb Bool.eqb].
  unfold bind, print, delete_version, lift.
  destruct (group_id_of d); try reflexivity.
  destruct (artifact_id_of d); reflexivity.
Qed.

(** C3, on the code.  A decoded VersionDeleted event that has no
    [version] makes [delete_version] raise [TypeError]; nothing catches it:
    the rest of the batch is not processed, the loop is left without a
    synchronizer invocation, and [consume_messages_in_batches] raises (the
    consumer is closed on the way out). *)
Theorem version_deleted_without_version_aborts_the_loop :
  consume_messages_in_batches (sample_env ENABLED sample_tool)
    [Batch [message "version-deleted-no-version"; message "created"]; Batch []; Batch []]
    10 5 10 empty_world
  = ({| fs := ∅;
        events := [EvClose;
                   EvPrint (LogVersionDeleted (PStr "ARTIFACT_VERSION_DELETED")
                              (PStr "orders-api") PNone)] |},
     Raise TypeError).
Proof. reflexivity. Qed.

(** ** C2: a generation mode that fails *)

(** C2, on the code.  The [httproute] generator exits with status 0 and
    prints a text that is not YAML: [yaml.safe_load] raises, the [except
    subprocess.CalledProcessError] clause of [invoke_kuadrant_command] does
    not catch it, and it leaves [invoke_kuadrant_cli]: the [authpolicy]
    and [ratelimitpolicy] generators are never started although both would
    succeed, no file is written, and the failure is printed once by
    [get_artifact_content], as a failure to retrieve the artifact. *)
Theorem garbled_httproute_output_skips_the_other_modes :
  (process_message (sample_env ENABLED tool_httproute_garbled) (message "created") empty_world).2
  = Ok ()
  ∧ events (process_message (sample_env ENABLED tool_httproute_garbled)
              (message "created") empty_world).1
    = [EvPrint (LogFailedToRetrieve (PStr "orders-api") (PStr "1") YAMLError);
       EvRun httproute_args (Some "openapi: 3.0.0");
       EvRegistryState (PStr "shop") (PStr "orders-api") (PStr "1");
       EvRegistryContent (PStr "shop") (PStr "orders-api") (PStr "1");
       EvPrint (LogVersionCreated (PStr "ARTIFACT_VERSION_CREATED")
                  (PStr "orders-api") (PStr "1"))]
  ∧ ∀ filename,
      fs (process_message (sample_env ENABLED tool_httproute_garbled)
            (message "created") empty_world).1
      !! ["shop"; "orders-api"; "1"; filename] = None.
Proof.
  split; [reflexivity|]. split; [reflexivity|]. intros filename.
  change (fs (process_message (sample_env ENABLED tool_httproute_garbled)
                (message "created") empty_world).1)
    with (<[ ["shop"; "orders-api"; "1"] := Dir ]>
            (<[ ["shop"; "orders-api"] := Dir ]>
               (<[ ["shop"] := Dir ]> (∅ : gmap (list string) node)))).
  by rewrite !lookup_insert_ne, lookup_empty.
Qed.

(** The sibling path: when the same generator exits with status 1
    instead, the failure is printed for that mode and the two other modes
    run and write their files. *)
Lemma failing_httproute_leaves_the_other_modes :
  events (process_message (sample_env ENABLED tool_httproute_fails)
            (message "created") empty_world).1
  = [EvPrint (LogResourceSaved ["shop"; "orders-api"; "1";
                                "shop_orders-api_v1_ratelimiting_policy.yaml"]);
     EvRun ratelimitpolicy_args (Some "openapi: 3.0.0");
     EvPrint (LogResourceSaved ["shop"; "orders-api"; "1";
                                "shop_orders-api_v1_authpolicy.yaml"]);
     EvRun authpolicy_args (Some "openapi: 3.0.0");
     EvPrint (LogErrorGenerating (Some "Error: invalid OpenAPI document"));
     EvRun httproute_args (Some "openapi: 3.0.0");
     EvRegistryState (PStr "shop") (PStr "orders-api") (PStr "1");
     EvRegistryContent (PStr "shop") (PStr "orders-api") (PStr "1");
     EvPrint (LogVersionCreated (PStr "ARTIFACT_VERSION_CREATED")
                (PStr "orders-api") (PStr "1"))].
Proof. reflexivity. Qed.

(** ** C6: what a deletion removes *)

(** [shutil.rmtree] on a directory: it and everything below it is gone,
    everything else is as before. *)
Lemma rmtree_directory p w :
  fs w !! p = Some Dir →
  ∃ w', shutil_rmtree p w = (w', Ok ())
        ∧ events w' = events w
        ∧ (∀ q, p `prefix_of` q → fs w' !! q = None)
        ∧ (∀ q, ¬ p `prefix_of` q → fs w' !! q = fs w !! q).
Proof.
  intros Hp. unfold shutil_rmtree. rewrite Hp.
  eexists. split; [reflexivity|]. split; [reflexivity|]. cbn. split.
  - intros q Hq. apply map_lookup_filter_None. right. intros x _ Hn. by apply Hn.
  - intros q Hq. destruct (fs w !! q) as [x|] eqn:E.
    + by apply map_lookup_filter_Some.
    + apply map_lookup_filter_None. by left.
Qed.

(** The two deletions, on a directory that is there and on one that is
    not. *)
Lemma delete_artifact_directory_present g a w :
  fs w !! [g; a] = Some Dir →
  ∃ w', delete_artifact_directory (PStr g) (PStr a) w = (w', Ok ())
        ∧ events w' = EvPrint (LogDeletedArtifactDirectory [g; a]) :: events w
        ∧ (∀ q, [g; a] `prefix_of` q → fs w' !! q = None)
        ∧ (∀ q, ¬ [g; a] `prefix_of` q → fs w' !! q = fs w !! q).
Proof.
  intros Hp. destruct (rmtree_directory _ _ Hp) as (w1 & E & Hev & Hin & Hout).
  unfold delete_artifact_directory, bind, lift, os_path_exists. cbn [os_path_join path_component].
  rewrite Hp, bool_decide_eq_true_2 by eauto. rewrite E.
  eexists. split; [reflexivity|]. cbn. rewrite Hev. auto.
Qed.

Lemma delete_artifact_directory_absent g a w :
  fs w !! [g; a] = None →
  delete_artifact_directory (PStr g) (PStr a) w
  = (emit (EvPrint (LogArtifactDirectoryDoesNotExist [g; a])) w, Ok ()).
Proof.
  intros Hp. unfold delete_artifact_directory, bind, lift, os_path_exists.
  cbn [os_path_join path_component].
  rewrite Hp, bool_decide_eq_false_2; [reflexivity|]. by intros [? [=]].
Qed.

Lemma delete_version_present g a v w :
  fs w !! [g; a; v] = Some Dir →
  ∃ w', delete_version (PStr g) (PStr a) (PStr v) w = (w', Ok ())
        ∧ events w' = EvPrint (LogDeletedDirectory [g; a; v]) :: events w
        ∧ (∀ q, [g; a; v] `prefix_of` q → fs w' !! q = None)
        ∧ (∀ q, ¬ [g; a; v] `prefix_of` q → fs w' !! q = fs w !! q).
Proof.
  intros Hp. destruct (rmtree_directory _ _ Hp) as (w1 & E & Hev & Hin & Hout).
  unfold delete_version, bind, lift, os_path_exists. cbn [os_path_join path_component].
  rewrite Hp, bool_decide_eq_true_2 by eauto. rewrite E.
  eexists. split; [reflexivity|]. cbn. rewrite Hev. auto.
Qed.

Lemma delete_version_absent g a v w :
  fs w !! [g; a; v] = None →
  delete_version (PStr g) (PStr a) (PStr v) w
  = (emit (EvPrint (LogDirectoryDoesNotExist [g; a; v])) w, Ok ()).
Proof.
  intros Hp. unfold delete_version, bind, lift, os_path_exists.
  cbn [os_path_join path_component].
  rewrite Hp, bool_decide_eq_false_2; [reflexivity|]. by intros [? [=]].
Qed.




(** On that tree the two deletions differ as they should: version 2 and
    its file outlive the deletion of version 1, not that of the artifact. *)
Example version_deleted_keeps_sibling :
  fs (process_message (sample_env ENABLED sample_tool) (message "version-deleted") two_versions).1
  !! ["shop"; "orders-api"; "2"; "shop_orders-api_v2_httproute.yaml"]
  = Some (File (PDict [("kind", PStr "HTTPRoute")]))
  ∧ fs (process_message (sample_env ENABLED sample_tool) (message "version-deleted") two_versions).1
    !! ["shop"; "orders-api"; "1"; "shop_orders-api_v1_httproute.yaml"] = None.
Proof. split; vm_compute; reflexivity. Qed.

Example artifact_deleted_removes_all_versions :
  map_to_list
    (fs (process_message (sample_env ENABLED sample_tool)
           (message "artifact-deleted") two_versions).1)
  = [(["shop"], Dir)].
Proof. vm_compute. reflexivity. Qed.

(** ** C9: the [status] field is not written *)

Lemma dict_get_pop_same key d : dict_get key (dict_pop key d) = None.
Proof.
  induction d as [|[k x] d IH]; [reflexivity|]. cbn.
  destruct (String.eqb k key) eqn:E; [exact IH|]. cbn. by rewrite E.
Qed.


(** [os.makedirs] for a coordinate, when no regular file is in the way:
    the three directories are there afterwards and nothing else changed. *)
Lemma makedirs_clear g a v f :
  not_a_file f [g] → not_a_file f [g; a] → not_a_file f [g; a; v] →
  ∃ f1, makedirs_from [] [g; a; v] f = (f1, Ok ())
        ∧ f1 !! [g] = Some Dir ∧ f1 !! [g; a] = Some Dir ∧ f1 !! [g; a; v] = Some Dir
        ∧ ∀ q, q ≠ [g] → q ≠ [g; a] → q ≠ [g; a; v] → f1 !! q = f !! q.
Proof.
  unfold not_a_file. intros H1 H2 H3. cbn.
  destruct (f !! [g]) as [[|?]|] eqn:E1; [|by destruct (H1 document)|];
    rewrite ?lookup_insert_ne by discriminate;
    (destruct (f !! [g; a]) as [[|?]|] eqn:E2; [|by destruct (H2 document)|]);
    rewrite ?lookup_insert_ne by discriminate;
    (destruct (f !! [g; a; v]) as [[|?]|] eqn:E3; [|by destruct (H3 document)|]);
    eexists; (split; [reflexivity|]);
    split_and!; intros; by simplify_map_eq.
Qed.



(** ** C2, for every deployment: the two ways a mode fails *)

(** A generator that exits with a non-zero status: the failure is
    printed for the mode and the command returns, so the next mode runs. *)
Lemma nonzero_exit_is_caught_for_the_mode
    env g a v args content mode returncode stdout stderr w :
  content ≠ Some NotUtf8 →
  subprocess_run env args (content_text content) = Completed returncode stdout stderr →
  returncode ≠ 0 →
  not_a_file (fs w) [g] → not_a_file (fs w) [g; a] → not_a_file (fs w) [g; a; v] →
  ∃ w', invoke_kuadrant_command env (PStr g) (PStr a) (PStr v) args content mode w = (w', Ok ())
        ∧ events w' = EvPrint (LogErrorGenerating (Some stderr))
                      :: EvRun args (content_text content) :: events w.
Proof.
  intros Hc Hrun Hrc H1 H2 H3.
  destruct (makedirs_clear g a v (fs w) H1 H2 H3) as (f1 & Emk & _).
  assert (decode_content content = ret (content_text content)) as Edec
    by (destruct content as [[|]|]; [reflexivity|congruence|reflexivity]).
  unfold invoke_kuadrant_command, bind at 1 2 3, lift. cbn [path_component].
  unfold bind at 1, os_makedirs. rewrite Emk.
  unfold try_except. rewrite Edec. unfold bind at 1, ret at 1.
  unfold run_checked, bind at 1 2, trace. rewrite Hrun.
  destruct (Z.eqb_spec returncode 0) as [|_]; [done|].
  eexists. split; reflexivity.
Qed.

(** A generator that exits with status 0 and prints what is not YAML:
    the command raises, and with it [invoke_kuadrant_cli] when the command
    is the first one, after that one subprocess only. *)
Lemma unparsable_output_is_not_caught env g a v args content mode stdout stderr w :
  content ≠ Some NotUtf8 →
  subprocess_run env args (content_text content) = Completed 0 stdout stderr →
  yaml_safe_load env stdout = None →
  not_a_file (fs w) [g] → not_a_file (fs w) [g; a] → not_a_file (fs w) [g; a; v] →
  ∃ w', invoke_kuadrant_command env (PStr g) (PStr a) (PStr v) args content mode w
        = (w', Raise YAMLError)
        ∧ events w' = EvRun args (content_text content) :: events w.
Proof.
  intros Hc Hrun Hyaml H1 H2 H3.
  destruct (makedirs_clear g a v (fs w) H1 H2 H3) as (f1 & Emk & _).
  assert (decode_content content = ret (content_text content)) as Edec
    by (destruct content as [[|]|]; [reflexivity|congruence|reflexivity]).
  unfold invoke_kuadrant_command, bind at 1 2 3, lift. cbn [path_component].
  unfold bind at 1, os_makedirs. rewrite Emk.
  unfold try_except. rewrite Edec. unfold bind at 1, ret at 1.
  unfold run_checked, bind at 1 2, trace. rewrite Hrun. cbn [Z.eqb]. unfold ret at 1.
  rewrite Hyaml. eexists. split; reflexivity.
Qed.

Lemma unparsable_httproute_output_leaves_the_cli env g a v content stdout stderr w :
  content ≠ Some NotUtf8 →
  subprocess_run env httproute_args (content_text content) = Completed 0 stdout stderr →
  yaml_safe_load env stdout = None →
  not_a_file (fs w) [g] → not_a_file (fs w) [g; a] → not_a_file (fs w) [g; a; v] →
  ∃ w', invoke_kuadrant_cli env (PStr g) (PStr a) (PStr v) content w = (w', Raise YAMLError)
        ∧ events w' = EvRun httproute_args (content_text content) :: events w.
Proof.
  intros Hc Hrun Hyaml H1 H2 H3.
  destruct (unparsable_output_is_not_caught env g a v httproute_args content "httproute"
              stdout stderr w Hc Hrun Hyaml H1 H2 H3) as (w' & E & Hev).
  exists w'. unfold invoke_kuadrant_cli, bind at 1. by rewrite E.
Qed.

(** ** C8: the same event again *)

(** *** [os.makedirs] on a coordinate *)

Ltac makedirs_cases g a v f :=
  cbn [makedirs_from app];
  destruct (f !! [g]) as [[|?]|] eqn:?E1;
  rewrite ?lookup_insert_ne by discriminate;
  destruct (f !! [g; a]) as [[|?]|] eqn:?E2;
  rewrite ?lookup_insert_ne by discriminate;
  destruct (f !! [g; a; v]) as [[|?]|] eqn:?E3.

(** When it returns, the three directories are there. *)
Lemma makedirs_ok_dirs g a v f f1 :
  makedirs_from [] [g; a; v] f = (f1, Ok ()) →
  f1 !! [g] = Some Dir ∧ f1 !! [g; a] = Some Dir ∧ f1 !! [g; a; v] = Some Dir.
Proof.
  makedirs_cases g a v f; intros [= <-]; split_and!; by simplify_map_eq.
Qed.

(** It touches the three directories only. *)
Lemma makedirs_frame g a v f f1 r q :
  makedirs_from [] [g; a; v] f = (f1, r) →
  q ≠ [g] → q ≠ [g; a] → q ≠ [g; a; v] →
  f1 !! q = f !! q.
Proof.
  makedirs_cases g a v f; intros [= <- <-] ? ? ?; by simplify_map_eq.
Qed.

(** On a tree that has the three directories as it left them, it does
    the same and changes nothing. *)
Lemma makedirs_replay g a v f f1 r f2 :
  makedirs_from [] [g; a; v] f = (f1, r) →
  f2 !! [g] = f1 !! [g] →
  f2 !! [g; a] = f1 !! [g; a] →
  f2 !! [g; a; v] = f1 !! [g; a; v] →
  makedirs_from [] [g; a; v] f2 = (f2, r).
Proof.
  makedirs_cases g a v f; intros [= <- <-];
    rewrite ?lookup_insert_eq, ?lookup_insert_ne by discriminate;
    rewrite ?lookup_insert_eq, ?lookup_insert_ne by discriminate;
    rewrite ?lookup_insert_eq, ?lookup_insert_ne by discriminate;
    rewrite ?E1, ?E2, ?E3; intros H1 H2 H3;
    cbn [makedirs_from app]; rewrite ?H1, ?H2, ?H3; reflexivity.
Qed.

(** *** The script follows the tree functions *)

Ltac destruct_run env args :=
  match goal with
  | |- context [subprocess_run env args ?i] =>
      let rc := fresh "rc" in
      let out := fresh "out" in
      let err := fresh "err" in
      let e := fresh "e" in
      destruct (subprocess_run env args i) as [rc out err|e];
      [destruct (rc =? 0);
       [destruct (yaml_safe_load env out) as [[| | | | |?]|]|]
      |destruct e]
  end.

Lemma invoke_kuadrant_command_fs env g a v args content mode w w' r :
  invoke_kuadrant_command env (PStr g) (PStr a) (PStr v) args content mode w = (w', r) →
  fs w' = (command_fs env g a v args content mode (fs w)).1
  ∧ (r = Ok () ↔ (command_fs env g a v args content mode (fs w)).2 = true).
Proof.
  unfold invoke_kuadrant_command, command_fs, generated, bind at 1 2 3, lift.
  cbn [path_component]. unfold bind at 1, os_makedirs.
  destruct (makedirs_from [] [g; a; v] (fs w)) as [f1 [[]|e]] eqn:Emk.
  2: { intros [= <- <-]. cbn. split; [reflexivity|]. split; discriminate. }
  destruct (makedirs_ok_dirs _ _ _ _ _ Emk) as (_ & _ & Hdir).
  fold (output_filename g a v mode).
  unfold try_except, decode_content, run_checked, pop_status, write_yaml,
    bind, ret, raise, trace, print.
  destruct content as [[text|]|]; cbn [content_text handle is_CalledProcessError];
    try destruct_run env args;
    cbn [handle is_CalledProcessError fs emit with_fs];
    rewrite ?Hdir;
    change ([g; a; v] ++ [output_filename g a v mode])
      with [g; a; v; output_filename g a v mode];
    try destruct (f1 !! [g; a; v; output_filename g a v mode]) as [[|?]|];
    intros [= <- <-]; cbn; (split; [reflexivity|]); split;
    (reflexivity || discriminate).
Qed.

Lemma invoke_kuadrant_cli_fs env g a v content w w' r :
  invoke_kuadrant_cli env (PStr g) (PStr a) (PStr v) content w = (w', r) →
  fs w' = cli_fs env g a v content (fs w).
Proof.
  unfold invoke_kuadrant_cli, cli_fs, bind.
  destruct (invoke_kuadrant_command env (PStr g) (PStr a) (PStr v) httproute_args content
              "httproute" w) as [w1 r1] eqn:E1.
  apply invoke_kuadrant_command_fs in E1 as [F1 C1].
  destruct (command_fs env g a v httproute_args content "httproute" (fs w)) as [f1 c1].
  cbn [fst snd] in *. subst f1.
  destruct r1 as [[]|e1].
  2: { intros [= <- <-]. destruct c1; [|reflexivity]. discriminate (proj2 C1 eq_refl). }
  destruct c1; [|discriminate (proj1 C1 eq_refl)].
  destruct (invoke_kuadrant_command env (PStr g) (PStr a) (PStr v) authpolicy_args content
              "authpolicy" w1) as [w2 r2] eqn:E2.
  apply invoke_kuadrant_command_fs in E2 as [F2 C2].
  destruct (command_fs env g a v authpolicy_args content "authpolicy" (fs w1)) as [f2 c2].
  cbn [fst snd] in *. subst f2.
  destruct r2 as [[]|e2].
  2: { intros [= <- <-]. destruct c2; [|reflexivity]. discriminate (proj2 C2 eq_refl). }
  destruct c2; [|discriminate (proj1 C2 eq_refl)].
  intros E3. by apply invoke_kuadrant_command_fs in E3 as [F3 _].
Qed.

(** A coordinate that is not three strings: [os.path.join] raises in the
    first command. *)
Lemma invoke_kuadrant_cli_not_strings env g a v content w :
  (∀ sg sa sv, ¬ (g = PStr sg ∧ a = PStr sa ∧ v = PStr sv)) →
  invoke_kuadrant_cli env g a v content w = (w, Raise TypeError).
Proof.
  intros H. unfold invoke_kuadrant_cli, invoke_kuadrant_command, bind at 1 2 3 4 5, lift.
  destruct g as [| | |sg| |]; try reflexivity.
  destruct a as [| | |sa| |]; try reflexivity.
  destruct v as [| | |sv| |]; try reflexivity.
  by destruct (H sg sa sv).
Qed.

Lemma get_artifact_content_fs env g a v w w' r :
  get_artifact_content env g a v w = (w', r) →
  fs w' = fetched_fs env g a v (fs w).
Proof.
  unfold get_artifact_content, fetched_fs, try_except, bind at 1 2 3 4, trace, lift.
  destruct (registry_content env g a v) as [content|e].
  2: { cbn. destruct (is_Exception e); intros [= <- <-]; reflexivity. }
  destruct (registry_state env g a v) as [[[[]|]|]|e].
  2-7: cbn; try destruct (is_Exception e); intros [= <- <-];
       destruct g, a, v; reflexivity.
  destruct (invoke_kuadrant_cli env g a v content
              (emit (EvRegistryState g a v) (emit (EvRegistryContent g a v) w)))
    as [w1 r1] eqn:E.
  intros H.
  assert (fs w' = fs w1) as ->.
  { destruct r1 as [[]|e]; cbn in H; [|destruct (is_Exception e)];
      injection H as <- _; reflexivity. }
  destruct g as [| | |sg| |], a as [| | |sa| |], v as [| | |sv| |];
    first [ by apply invoke_kuadrant_cli_fs in E
          | rewrite invoke_kuadrant_cli_not_strings in E
              by (intros ? ? ? (? & ? & ?); discriminate);
            by injection E as <- _ ].
Qed.


(** *** The three files do not collide *)

Lemma append_inj_l (s x y : string) : s +:+ x = s +:+ y → x = y.
Proof. induction s as [|c s IH]; [done|]. intros [= H]. by apply IH. Qed.

Lemma output_filename_inj g a v mode mode' :
  output_filename g a v mode = output_filename g a v mode' →
  mode +:+ ".yaml" = mode' +:+ ".yaml".
Proof.
  unfold output_filename. intros H.
  do 6 apply append_inj_l in H. exact H.
Qed.

Lemma output_filenames_distinct g a v :
  output_filename g a v "httproute" ≠ output_filename g a v "authpolicy"
  ∧ output_filename g a v "httproute" ≠ output_filename g a v "ratelimiting_policy"
  ∧ output_filename g a v "authpolicy" ≠ output_filename g a v "ratelimiting_policy".
Proof. split_and!; intros H; apply output_filename_inj in H; discriminate. Qed.

(** *** One command, on the tree *)

(** It touches the three directories and its own file only. *)
Lemma command_frame env g a v args content mode f f' c q :
  command_fs env g a v args content mode f = (f', c) →
  q ≠ [g] → q ≠ [g; a] → q ≠ [g; a; v] → q ≠ [g; a; v; output_filename g a v mode] →
  f' !! q = f !! q.
Proof.
  unfold command_fs.
  destruct (makedirs_from [] [g; a; v] f) as [f1 [[]|e]] eqn:Emk; intros H ? ? ? ?.
  - rewrite <- (makedirs_frame _ _ _ _ _ _ q Emk) by assumption.
    destruct (generated env args content) as [data|e]; [|by injection H as <- _].
    destruct (f1 !! [g; a; v; output_filename g a v mode]) as [[|?]|];
      injection H as <- _; by rewrite ?lookup_insert_ne.
  - injection H as <- _. by eapply makedirs_frame.
Qed.

(** When it returns, the three directories are in place. *)
Lemma command_settled env g a v args content mode f f' :
  command_fs env g a v args content mode f = (f', true) → settled g a v f'.
Proof.
  unfold command_fs, settled.
  destruct (makedirs_from [] [g; a; v] f) as [f1 [[]|e]] eqn:Emk; [|discriminate].
  destruct (makedirs_ok_dirs _ _ _ _ _ Emk) as (H1 & H2 & H3).
  destruct (generated env args content) as [data|e]; [|by intros [= <- _]].
  destruct (f1 !! [g; a; v; output_filename g a v mode]) as [[|?]|];
    intros [= <-]; by rewrite !lookup_insert_ne.
Qed.

(** With the directories in place it changes its own file at most. *)
Lemma command_on_settled env g a v args content mode f f' c :
  settled g a v f →
  command_fs env g a v args content mode f = (f', c) →
  settled g a v f'
  ∧ ∀ q, q ≠ [g; a; v; output_filename g a v mode] → f' !! q = f !! q.
Proof.
  intros (H1 & H2 & H3). unfold command_fs. cbn [makedirs_from app].
  rewrite H1, H2, H3.
  destruct (generated env args content) as [data|e];
    [destruct (f !! [g; a; v; output_filename g a v mode]) as [[|?]|]|];
    intros [= <- <-]; unfold settled;
    (split; [by rewrite ?lookup_insert_ne|]); intros q Hq; by rewrite ?lookup_insert_ne.
Qed.

(** On a tree that has the three directories and the file as the
    command left them, the command does the same and changes nothing. *)
Lemma command_replay env g a v args content mode f f' c f2 :
  command_fs env g a v args content mode f = (f', c) →
  f2 !! [g] = f' !! [g] →
  f2 !! [g; a] = f' !! [g; a] →
  f2 !! [g; a; v] = f' !! [g; a; v] →
  f2 !! [g; a; v; output_filename g a v mode] = f' !! [g; a; v; output_filename g a v mode] →
  command_fs env g a v args content mode f2 = (f2, c).
Proof.
  unfold command_fs.
  destruct (makedirs_from [] [g; a; v] f) as [f1 [[]|e]] eqn:Emk.
  - destruct (generated env args content) as [data|e].
    + destruct (f1 !! [g; a; v; output_filename g a v mode]) as [[|?]|] eqn:Ef;
        intros [= <- <-]; rewrite ?lookup_insert_ne by discriminate;
        intros H1 H2 H3 H4;
        rewrite (makedirs_replay _ _ _ _ _ _ f2 Emk H1 H2 H3);
        rewrite ?lookup_insert_eq in H4; rewrite ?Ef in H4; rewrite H4;
        first [reflexivity | by rewrite insert_id].
    + intros [= <- <-] H1 H2 H3 _.
      by rewrite (makedirs_replay _ _ _ _ _ _ f2 Emk H1 H2 H3).
  - intros [= <- <-] H1 H2 H3 _.
    by rewrite (makedirs_replay _ _ _ _ _ _ f2 Emk H1 H2 H3).
Qed.

(** *** The three commands, on the tree *)

Lemma cli_fs_idempotent env g a v content f :
  cli_fs env g a v content (cli_fs env g a v content f) = cli_fs env g a v content f.
Proof.
  destruct (output_filenames_distinct g a v) as (N12 & N13 & N23).
  unfold cli_fs.
  destruct (command_fs env g a v httproute_args content "httproute" f)
    as [f1 [|]] eqn:E1.
  2: { by rewrite (command_replay _ _ _ _ _ _ _ _ _ _ f1 E1). }
  pose proof (command_settled _ _ _ _ _ _ _ _ _ E1) as S1.
  destruct (command_fs env g a v authpolicy_args content "authpolicy" f1)
    as [f2 [|]] eqn:E2;
    destruct (command_on_settled _ _ _ _ _ _ _ _ _ _ S1 E2) as [S2 Fr2].
  2: { rewrite (command_replay _ _ _ _ _ _ _ _ _ _ f2 E1)
         by (apply Fr2; intros [= ?]; congruence).
       by rewrite (command_replay _ _ _ _ _ _ _ _ _ _ f2 E2). }
  destruct (command_fs env g a v ratelimitpolicy_args content "ratelimiting_policy" f2)
    as [f3 c3] eqn:E3.
  destruct (command_on_settled _ _ _ _ _ _ _ _ _ _ S2 E3) as [S3 Fr3]. cbn [fst].
  rewrite (command_replay _ _ _ _ _ _ _ _ _ _ f3 E1)
    by (rewrite Fr3, Fr2 by (intros [= ?]; congruence); reflexivity).
  rewrite (command_replay _ _ _ _ _ _ _ _ _ _ f3 E2)
    by (apply Fr3; intros [= ?]; congruence).
  by rewrite (command_replay _ _ _ _ _ _ _ _ _ _ f3 E3).
Qed.

Lemma cli_fs_frame env g a v content f q :
  q ≠ [g] → q ≠ [g; a] → q ≠ [g; a; v] →
  (∀ mode, mode ∈ ["httproute"; "authpolicy"; "ratelimiting_policy"] →
           q ≠ [g; a; v; output_filename g a v mode]) →
  cli_fs env g a v content f !! q = f !! q.
Proof.
  intros H1 H2 H3 Hm. unfold cli_fs.
  destruct (command_fs env g a v httproute_args content "httproute" f)
    as [f1 c1] eqn:E1.
  rewrite <- (command_frame _ _ _ _ _ _ _ _ _ _ q E1) by (auto; apply Hm; set_solver).
  destruct c1; [|reflexivity].
  destruct (command_fs env g a v authpolicy_args content "authpolicy" f1)
    as [f2 c2] eqn:E2.
  rewrite <- (command_frame _ _ _ _ _ _ _ _ _ _ q E2) by (auto; apply Hm; set_solver).
  destruct c2; [|reflexivity].
  destruct (command_fs env g a v ratelimitpolicy_args content "ratelimiting_policy" f2)
    as [f3 c3] eqn:E3.
  cbn [fst]. apply (command_frame _ _ _ _ _ _ _ _ _ _ q E3); auto. apply Hm; set_solver.
Qed.

Lemma fetched_fs_idempotent env g a v f :
  fetched_fs env g a v (fetched_fs env g a v f) = fetched_fs env g a v f.
Proof.
  unfold fetched_fs.
  destruct (registry_content env g a v) as [content|]; [|reflexivity].
  destruct (registry_state env g a v) as [[[[]|]|]|]; try reflexivity.
  destruct g, a, v; try reflexivity. apply cli_fs_idempotent.
Qed.



(** The end-to-end scenario: the three files of [shop/orders-api/1],
    each without its [status]. *)
Example created_event_writes_three_files :
  let tree :=
    fs (process_message (sample_env ENABLED sample_tool) (message "created") empty_world).1 in
  tree !! ["shop"; "orders-api"; "1"; "shop_orders-api_v1_httproute.yaml"]
  = Some (File (PDict [("kind", PStr "HTTPRoute")]))
  ∧ tree !! ["shop"; "orders-api"; "1"; "shop_orders-api_v1_authpolicy.yaml"]
    = Some (File (PDict [("kind", PStr "AuthPolicy")]))
  ∧ tree !! ["shop"; "orders-api"; "1"; "shop_orders-api_v1_ratelimiting_policy.yaml"]
    = Some (File (PDict [("kind", PStr "RateLimitPolicy")]))
  ∧ size tree = 6%nat.
Proof. split_and!; vm_compute; reflexivity. Qed.

(** * Further properties *)

(** ** Batches *)

(** The monad laws the script relies on. *)
Lemma bind_assoc {A B C} (m : M A) (k : A → M B) (h : B → M C) w :
  bind (bind m k) h w = bind m (λ a, bind (k a) h) w.
Proof. unfold bind. destruct (m w) as [w1 [a|e]]; reflexivity. Qed.

Lemma bind_ext {A B} (m : M A) (k k' : A → M B) w :
  (∀ a w1, k a w1 = k' a w1) → bind m k w = bind m k' w.
Proof. intros H. unfold bind. destruct (m w) as [w1 [a|e]]; [apply H|reflexivity]. Qed.

(** A batch is processed message by message, in the order received: a
    batch in two parts is the first part, then, unless that raised, the
    second. *)
Lemma process_messages_app env a b w :
  process_messages env (a ++ b) w
  = (process_messages env a ;;; process_messages env b) w.
Proof.
  revert w. induction a as [|msg a IH]; intros w; [reflexivity|].
  cbn [app process_messages]. rewrite bind_assoc.
  apply bind_ext. intros _ w1. apply IH.
Qed.

(** An iteration on a batch with messages. *)
Lemma while_True_batch env timeout idle_timeout msg messages rest idle_time w :
  while_True env timeout idle_timeout (Batch (msg :: messages) :: rest) idle_time w
  = match process_messages env (msg :: messages) w with
    | (w1, Ok _) => while_True env timeout idle_timeout rest 0 w1
    | (w1, Raise e) => (w1, Raise e)
    end.
Proof.
  cbn [while_True]. unfold loop_body, bind, ret.
  destruct (process_messages env (msg :: messages) w) as [w1 [[]|e]]; reflexivity.
Qed.

(** X1. How the consumer cuts the stream into batches does not matter:
    a batch of messages handed over in one poll and the same messages
    handed over in two polls, neither of them empty, take the loop to the
    same world and the same state, whatever they do, raising included. *)
Theorem batch_boundaries_do_not_matter env timeout idle_timeout a b rest idle_time w :
  a ≠ [] → b ≠ [] →
  while_True env timeout idle_timeout (Batch (a ++ b) :: rest) idle_time w
  = while_True env timeout idle_timeout (Batch a :: Batch b :: rest) idle_time w.
Proof.
  destruct a as [|ma a]; [done|]. destruct b as [|mb b]; [done|]. intros _ _.
  rewrite (while_True_batch env timeout idle_timeout ma a).
  change ((ma :: a) ++ mb :: b) with (ma :: (a ++ mb :: b)).
  rewrite while_True_batch.
  change (ma :: (a ++ mb :: b)) with ((ma :: a) ++ mb :: b).
  rewrite process_messages_app. unfold bind.
  destruct (process_messages env (ma :: a) w) as [w1 [[]|e]]; [|reflexivity].
  by rewrite while_True_batch.
Qed.

Lemma batch_boundaries_do_not_matter_witness :
  while_True (sample_env ENABLED sample_tool) 5 10
    (Batch ([message "created"] ++ [message "version-deleted"]) :: [Batch []]) 0 empty_world
  = while_True (sample_env ENABLED sample_tool) 5 10
      (Batch [message "created"] :: Batch [message "version-deleted"] :: [Batch []])
      0 empty_world.
Proof.
  apply (batch_boundaries_do_not_matter (sample_env ENABLED sample_tool) 5 10
           [message "created"] [message "version-deleted"] [Batch []] 0 empty_world);
    discriminate.
Defined.

(** X2. Messages that carry a delivery error are never decoded: a
    batch of such messages returns, leaves the tree alone and prints one
    line for each error that is not the end of a partition, in the order
    received; the end of a partition prints nothing. *)
Theorem delivery_errors_are_skipped env messages w :
  Forall (λ msg, msg_error msg ≠ None) messages →
  process_messages env messages w
  = ({| fs := fs w; events := kafka_error_lines messages (events w) |}, Ok ()).
Proof.
  intros H. revert w. induction H as [|msg messages Hm _ IH]; intros w.
  - by destruct w.
  - cbn [process_messages kafka_error_lines].
    destruct (msg_error msg) as [code|]; [|done].
    unfold bind. destruct (code =? _PARTITION_EOF); cbn; by rewrite IH.
Qed.

Lemma delivery_errors_are_skipped_witness :
  process_messages (sample_env ENABLED sample_tool)
    [ {| msg_error := Some (-195); msg_value := None |};
      {| msg_error := Some _PARTITION_EOF; msg_value := Some (Utf8 "created") |};
      {| msg_error := Some (-185); msg_value := Some NotUtf8 |} ] empty_world
  = ({| fs := ∅;
        events := [EvPrint (LogKafkaError (-185)); EvPrint (LogKafkaError (-195))] |},
     Ok ()).
Proof.
  apply (delivery_errors_are_skipped (sample_env ENABLED sample_tool)
           [ {| msg_error := Some (-195); msg_value := None |};
             {| msg_error := Some _PARTITION_EOF; msg_value := Some (Utf8 "created") |};
             {| msg_error := Some (-185); msg_value := Some NotUtf8 |} ] empty_world).
  repeat constructor; discriminate.
Defined.

(** ** Messages that do not decode *)

(** X3. The two decoding failures [process_message] has clauses for: a
    value, or a [payload] inside it, that is not JSON is printed as a
    decoding failure, an envelope without the [payload] key as a missing
    key; in each case the message is skipped, with that one line and
    nothing else. *)
Theorem undecodable_messages_are_logged_and_skipped env msg text w :
  msg_value msg = Some (Utf8 text) →
  (json_loads env text = None →
   process_message env msg w = (emit (EvPrint LogFailedToDecodeJSON) w, Ok ()))
  ∧ (∀ top,
       json_loads env text = Some (PDict top) →
       dict_get "payload" top = None →
       process_message env msg w
       = (emit (EvPrint (LogMissingExpectedKey "payload")) w, Ok ()))
  ∧ (∀ top ptext,
       json_loads env text = Some (PDict top) →
       dict_get "payload" top = Some (PStr ptext) →
       json_loads env ptext = None →
       process_message env msg w = (emit (EvPrint LogFailedToDecodeJSON) w, Ok ())).
Proof.
  intros Hv. unfold process_message, decode_value, try_except, bind, ret, raise. rewrite Hv.
  cbn [py_json_loads]. split_and!.
  - intros ->. reflexivity.
  - intros top -> Hp. cbn. by rewrite Hp.
  - intros top ptext -> Hp Hj. cbn. rewrite Hp. cbn. by rewrite Hj.
Qed.

Lemma undecodable_messages_are_logged_and_skipped_witness :
  process_message (sample_env ENABLED sample_tool) (message "<<not json>>") empty_world
  = (emit (EvPrint LogFailedToDecodeJSON) empty_world, Ok ()).
Proof.
  apply (undecodable_messages_are_logged_and_skipped
           (sample_env ENABLED sample_tool) (message "<<not json>>") "<<not json>>" empty_world);
    reflexivity.
Defined.

(** An exception of [process_message] that is not a decoding error goes
    through [process_messages]: the rest of the batch is not processed. *)
Lemma process_messages_propagates env msg rest w w' e :
  msg_error msg = None →
  process_message env msg w = (w', Raise e) →
  is_JSONDecodeError e = false →
  process_messages env (msg :: rest) w = (w', Raise e).
Proof.
  intros He H Hj. cbn [process_messages]. rewrite He.
  unfold bind, try_except. rewrite H. cbn [handle]. by rewrite Hj.
Qed.

(** X4. The malformed messages no clause is for.  A message without a
    value (a tombstone), a value that is not UTF-8, an envelope that is not
    a JSON object, a [payload] that is not a text, a payload text that is
    JSON but not an object: each raises out of [process_message] and out of
    [process_messages], with nothing printed and nothing done, and the
    messages after it in the batch are not processed. *)
Theorem malformed_messages_abort_the_batch env msg rest w :
  msg_error msg = None →
  (msg_value msg = None →
   process_messages env (msg :: rest) w = (w, Raise AttributeError))
  ∧ (msg_value msg = Some NotUtf8 →
     process_messages env (msg :: rest) w = (w, Raise UnicodeDecodeError))
  ∧ (∀ text top,
       msg_value msg = Some (Utf8 text) →
       json_loads env text = Some top →
       (∀ d, top ≠ PDict d) →
       process_messages env (msg :: rest) w = (w, Raise TypeError))
  ∧ (∀ text top p,
       msg_value msg = Some (Utf8 text) →
       json_loads env text = Some (PDict top) →
       dict_get "payload" top = Some p →
       (∀ ptext, p ≠ PStr ptext) →
       process_messages env (msg :: rest) w = (w, Raise TypeError))
  ∧ (∀ text top ptext payload,
       msg_value msg = Some (Utf8 text) →
       json_loads env text = Some (PDict top) →
       dict_get "payload" top = Some (PStr ptext) →
       json_loads env ptext = Some payload →
       (∀ d, payload ≠ PDict d) →
       process_messages env (msg :: rest) w = (w, Raise AttributeError)).
Proof.
  intros He. split_and!.
  - intros Hv. apply process_messages_propagates; [done| |done].
    unfold process_message, decode_value, try_except, bind, raise. by rewrite Hv.
  - intros Hv. apply process_messages_propagates; [done| |done].
    unfold process_message, decode_value, try_except, bind, raise. by rewrite Hv.
  - intros text top Hv Hj Hn. apply process_messages_propagates; [done| |done].
    unfold process_message, decode_value, try_except, bind, ret, raise. rewrite Hv.
    cbn [py_json_loads]. rewrite Hj. destruct top; try reflexivity. by destruct (Hn d).
  - intros text top p Hv Hj Hp Hn. apply process_messages_propagates; [done| |done].
    unfold process_message, decode_value, try_except, bind, ret, raise. rewrite Hv.
    cbn [py_json_loads]. rewrite Hj. cbn. rewrite Hp.
    destruct p; try reflexivity. by destruct (Hn s).
  - intros text top ptext payload Hv Hj Hp Hj' Hn.
    apply process_messages_propagates; [done| |done].
    unfold process_message, decode_value, try_except, bind, ret, raise. rewrite Hv.
    cbn [py_json_loads]. rewrite Hj. cbn. rewrite Hp. cbn. rewrite Hj'.
    destruct payload; try reflexivity. by destruct (Hn d).
Qed.

Lemma malformed_messages_abort_the_batch_witness :
  process_messages (sample_env ENABLED sample_tool)
    ({| msg_error := None; msg_value := None |} :: [message "created"]) empty_world
  = (empty_world, Raise AttributeError).
Proof.
  apply (malformed_messages_abort_the_batch (sample_env ENABLED sample_tool)
           {| msg_error := None; msg_value := None |} [message "created"] empty_world);
    reflexivity.
Defined.

(** ** The dispatch table *)

Lemma py_eq_str_false v s : v ≠ PStr s → py_eq_str v s = false.
Proof.
  intros H. destruct v; try reflexivity. cbn.
  destruct (String.eqb_spec s0 s) as [->|]; [done|reflexivity].
Qed.

(** X5. The rows of the dispatch table that do nothing.  An event whose
    type is none of the four the script knows (an absent or non-text type
    included), and a VersionStateChanged event to any state but ENABLED,
    print one line and are skipped: no registry request, no subprocess, no
    change of the tree, no exception. *)
Theorem unhandled_events_are_logged_and_skipped env msg d w :
  payload_of env msg = Some d →
  (event_type_of d ≠ PStr "ARTIFACT_VERSION_CREATED" →
   event_type_of d ≠ PStr "ARTIFACT_VERSION_STATE_CHANGED" →
   event_type_of d ≠ PStr "ARTIFACT_DELETED" →
   event_type_of d ≠ PStr "ARTIFACT_VERSION_DELETED" →
   process_message env msg w
   = (emit (EvPrint (LogOtherEvent (event_type_of d) (artifact_id_of d) (version_of d))) w,
      Ok ()))
  ∧ (event_type_of d = PStr "ARTIFACT_VERSION_STATE_CHANGED" →
     new_state_of d ≠ PStr "ENABLED" →
     process_message env msg w
     = (emit (EvPrint (LogSkippingNewState (artifact_id_of d) (new_state_of d))) w, Ok ())).
Proof.
  intros Hd. rewrite (process_message_decoded _ _ _ _ Hd). unfold try_except.
  rewrite dispatch_dict. split.
  - intros H1 H2 H3 H4. by rewrite !py_eq_str_false.
  - intros -> Hn. cbn [py_eq_str String.eqb Ascii.eqb Bool.eqb].
    by rewrite py_eq_str_false.
Qed.

Lemma unhandled_events_are_logged_and_skipped_witness :
  process_message (sample_env ENABLED sample_tool) (message "state-changed") empty_world
  = (emit (EvPrint (LogSkippingNewState (PStr "orders-api") PNone)) empty_world, Ok ()).
Proof.
  apply (unhandled_events_are_logged_and_skipped
           (sample_env ENABLED sample_tool) (message "state-changed")
           [("eventType", PStr "ARTIFACT_VERSION_STATE_CHANGED"); ("artifactId", PStr "orders-api");
            ("version", PStr "1"); ("groupId", PStr "shop")] empty_world);
    [reflexivity|reflexivity|discriminate].
Defined.

(** Reading a field of a dictionary with one more binding at its end. *)
Lemma dict_get_snoc key k x d :
  dict_get key (d ++ [(k, x)])
  = match dict_get key d with
    | Some y => Some y
    | None => if String.eqb k key then Some x else None
    end.
Proof.
  induction d as [|[k' y] d IH]; [reflexivity|]. cbn.
  destruct (String.eqb k' key); [reflexivity|exact IH].
Qed.

(** X6. The default group.  An event without the [groupId] field is
    handled exactly as the same event with [groupId] set to ["default"]:
    the same world and the same result, for every type of event.  A
    [groupId] that is there with the value null is another matter: it is
    not replaced by the default, and an ArtifactDeleted event with it
    raises [TypeError] out of [process_message]. *)
Theorem missing_groupId_means_default env msg d w :
  payload_of env msg = Some d →
  (∀ msg',
     dict_get "groupId" d = None →
     payload_of env msg' = Some (d ++ [("groupId", PStr "default")]) →
     process_message env msg w = process_message env msg' w)
  ∧ (dict_get "groupId" d = Some PNone →
     event_type_of d = PStr "ARTIFACT_DELETED" →
     process_message env msg w
     = (emit (EvPrint (LogArtifactDeleted (PStr "ARTIFACT_DELETED") (artifact_id_of d))) w,
        Raise TypeError)).
Proof.
  intros Hd. split.
  - intros msg' Hg Hd'.
    rewrite (process_message_decoded _ _ _ _ Hd), (process_message_decoded _ _ _ _ Hd').
    unfold try_except. rewrite !dispatch_dict.
    assert (∀ key default, key ≠ "groupId" →
              field key default (d ++ [("groupId", PStr "default")]) = field key default d)
      as Hf.
    { intros key default Hne. unfold field. rewrite dict_get_snoc.
      destruct (dict_get key d); [reflexivity|].
      destruct (String.eqb_spec "groupId" key); [congruence|reflexivity]. }
    assert (group_id_of (d ++ [("groupId", PStr "default")]) = group_id_of d) as Hgd.
    { unfold group_id_of, field. rewrite dict_get_snoc, Hg. reflexivity. }
    unfold artifact_id_of, version_of, event_type_of, new_state_of in *.
    rewrite !Hf by discriminate. rewrite Hgd. reflexivity.
  - intros Hg Ht. rewrite (process_message_decoded _ _ _ _ Hd). unfold try_except.
    rewrite dispatch_dict, Ht.
    assert (group_id_of d = PNone) as -> by (unfold group_id_of, field; by rewrite Hg).
    reflexivity.
Qed.

Lemma missing_groupId_means_default_witness :
  process_message (more_env ENABLED sample_tool) (message "version-deleted-no-group") empty_world
  = process_message (more_env ENABLED sample_tool) (message "version-deleted-default-group")
      empty_world.
Proof.
  apply (missing_groupId_means_default (more_env ENABLED sample_tool)
           (message "version-deleted-no-group")
           [("eventType", PStr "ARTIFACT_VERSION_DELETED"); ("artifactId", PStr "orders-api");
            ("version", PStr "1")] empty_world);
    reflexivity.
Defined.

(** ** Fetching *)

(** [get_artifact_content] lets no [Exception] out: what the registry
    client or the generation raises is printed, unless it is an
    interruption. *)
Lemma get_artifact_content_catches env g a v w w' r :
  get_artifact_content env g a v w = (w', r) →
  r = Ok () ∨ ∃ e, r = Raise e ∧ is_Exception e = false.
Proof.
  unfold get_artifact_content, try_except.
  match goal with |- context [let (_, _) := ?b w in _] => destruct (b w) as [w1 [[]|e]] end.
  - intros [= <- <-]. by left.
  - cbn [handle]. destruct (is_Exception e) eqn:E.
    + intros [= <- <-]. by left.
    + intros [= <- <-]. right. eauto.
Qed.

(** X7. A VersionCreated event, and a VersionStateChanged event to
    ENABLED, cannot end the run with an error: whatever the registry
    answers or raises, whatever the generators do, whatever is on disk,
    [process_message] returns, unless the exception is an interruption
    ([KeyboardInterrupt], [SystemExit]), which [except Exception] lets
    through. *)
Theorem creation_events_never_raise_an_Exception env msg d w w' r :
  payload_of env msg = Some d →
  event_type_of d = PStr "ARTIFACT_VERSION_CREATED"
  ∨ (event_type_of d = PStr "ARTIFACT_VERSION_STATE_CHANGED"
     ∧ new_state_of d = PStr "ENABLED") →
  process_message env msg w = (w', r) →
  r = Ok () ∨ ∃ e, r = Raise e ∧ is_Exception e = false.
Proof.
  intros Hd Ht. rewrite (process_message_decoded _ _ _ _ Hd). unfold try_except.
  rewrite dispatch_dict.
  assert (∀ line,
            (let (w1, r1) :=
               (print line ;;;
                get_artifact_content env (group_id_of d) (artifact_id_of d) (version_of d)) w in
             match r1 with
             | Ok x => (w1, Ok x)
             | Raise e =>
                 handle
                   [(is_JSONDecodeError, λ _, print LogFailedToDecodeJSON);
                    (is_KeyError,
                     λ e, match e with
                          | KeyError key => print (LogMissingExpectedKey key)
                          | _ => ret ()
                          end)] e w1
             end) = (w', r) →
            r = Ok () ∨ ∃ e, r = Raise e ∧ is_Exception e = false) as H.
  { intros line. unfold bind at 1, print at 1.
    destruct (get_artifact_content env (group_id_of d) (artifact_id_of d) (version_of d)
                (emit (EvPrint line) w)) as [w1 r1] eqn:E.
    apply get_artifact_content_catches in E as [->|(e & -> & He)].
    - intros [= <- <-]. by left.
    - cbn [handle]. destruct e; try discriminate; cbn; intros [= <- <-]; right; eauto. }
  destruct Ht as [->|[-> ->]]; cbn [py_eq_str String.eqb Ascii.eqb Bool.eqb]; apply H.
Qed.

Lemma creation_events_never_raise_an_Exception_witness :
  (process_message (sample_env ENABLED tool_httproute_garbled) (message "created") empty_world).2
  = Ok ()
  ∨ ∃ e, (process_message (sample_env ENABLED tool_httproute_garbled) (message "created")
            empty_world).2 = Raise e
         ∧ is_Exception e = false.
Proof.
  apply (creation_events_never_raise_an_Exception
           (sample_env ENABLED tool_httproute_garbled) (message "created")
           [("eventType", PStr "ARTIFACT_VERSION_CREATED"); ("artifactId", PStr "orders-api");
            ("version", PStr "1"); ("groupId", PStr "shop")]
           empty_world
           (process_message (sample_env ENABLED tool_httproute_garbled) (message "created")
              empty_world).1).
  - reflexivity.
  - left. reflexivity.
  - apply surjective_pairing.
Defined.

(** X8. How a fetch fails.  The content is requested first, whatever
    the state will be.  When that request raises an [Exception] the state
    is never requested; when the state request raises one, or answers with
    no state object, nothing is generated; each time the failure is printed
    with the artifact and the version, the tree is left alone and the
    function returns. *)
Theorem failed_fetch_is_logged env g a v w :
  (∀ e, registry_content env g a v = Raise e → is_Exception e = true →
     get_artifact_content env g a v w
     = (emit (EvPrint (LogFailedToRetrieve a v e)) (emit (EvRegistryContent g a v) w), Ok ()))
  ∧ (∀ content e,
       registry_content env g a v = Ok content →
       registry_state env g a v = Raise e → is_Exception e = true →
       get_artifact_content env g a v w
       = (emit (EvPrint (LogFailedToRetrieve a v e))
            (emit (EvRegistryState g a v) (emit (EvRegistryContent g a v) w)), Ok ()))
  ∧ (∀ content,
       registry_content env g a v = Ok content →
       registry_state env g a v = Ok None →
       get_artifact_content env g a v w
       = (emit (EvPrint (LogFailedToRetrieve a v AttributeError))
            (emit (EvRegistryState g a v) (emit (EvRegistryContent g a v) w)), Ok ())).
Proof.
  unfold get_artifact_content, try_except, bind, trace, lift, raise, print.
  split_and!.
  - intros e -> He. cbn. by rewrite He.
  - intros content e -> -> He. cbn. by rewrite He.
  - intros content -> ->. reflexivity.
Qed.

Lemma failed_fetch_is_logged_witness :
  get_artifact_content (sample_env ENABLED sample_tool) (PStr "shop") PNone (PStr "1") empty_world
  = (emit (EvPrint (LogFailedToRetrieve PNone (PStr "1") TypeError))
       (emit (EvRegistryContent (PStr "shop") PNone (PStr "1")) empty_world), Ok ()).
Proof.
  apply (failed_fetch_is_logged (sample_env ENABLED sample_tool)
           (PStr "shop") PNone (PStr "1") empty_world); reflexivity.
Defined.

(** ** The synchronizer *)

(** X9. The three [git] commands run in the order add, commit, push,
    and each only after the one before it exited with status 0.  A non-zero
    exit (of [git commit] with nothing to commit, for one) is printed and
    ends the function there, which returns all the same; the line carries
    no error text, the commands being run without [capture_output]. *)
Theorem git_steps_stop_at_the_first_failure env w :
  (∀ rc out err,
     subprocess_run env (git_add env) None = Completed rc out err → rc ≠ 0 →
     commit_and_push_to_git env w
     = (emit (EvPrint (LogErrorGit None)) (emit (EvRun (git_add env) None) w), Ok ()))
  ∧ (∀ out1 err1 rc out err,
       subprocess_run env (git_add env) None = Completed 0 out1 err1 →
       subprocess_run env (git_commit env) None = Completed rc out err → rc ≠ 0 →
       commit_and_push_to_git env w
       = (emit (EvPrint (LogErrorGit None))
            (emit (EvRun (git_commit env) None) (emit (EvRun (git_add env) None) w)), Ok ()))
  ∧ (∀ out1 err1 out2 err2 rc out err,
       subprocess_run env (git_add env) None = Completed 0 out1 err1 →
       subprocess_run env (git_commit env) None = Completed 0 out2 err2 →
       subprocess_run env (git_push env) None = Completed rc out err → rc ≠ 0 →
       commit_and_push_to_git env w
       = (emit (EvPrint (LogErrorGit None))
            (emit (EvRun (git_push env) None)
               (emit (EvRun (git_commit env) None) (emit (EvRun (git_add env) None) w))),
          Ok ()))
  ∧ (∀ out1 err1 out2 err2 out3 err3,
       subprocess_run env (git_add env) None = Completed 0 out1 err1 →
       subprocess_run env (git_commit env) None = Completed 0 out2 err2 →
       subprocess_run env (git_push env) None = Completed 0 out3 err3 →
       commit_and_push_to_git env w
       = (emit (EvPrint LogGitPushed)
            (emit (EvRun (git_push env) None)
               (emit (EvRun (git_commit env) None) (emit (EvRun (git_add env) None) w))),
          Ok ())).
Proof.
  unfold commit_and_push_to_git, run_checked, try_except, bind, trace, ret, raise, print.
  split_and!.
  - intros rc out err -> Hrc. by destruct (Z.eqb_spec rc 0).
  - intros out1 err1 rc out err -> -> Hrc. cbn. by destruct (Z.eqb_spec rc 0).
  - intros out1 err1 out2 err2 rc out err -> -> -> Hrc. cbn. by destruct (Z.eqb_spec rc 0).
  - intros out1 err1 out2 err2 out3 err3 -> -> ->. reflexivity.
Qed.

Lemma git_steps_stop_at_the_first_failure_witness :
  commit_and_push_to_git (sample_env ENABLED git_nothing_to_commit) empty_world
  = (emit (EvPrint (LogErrorGit None))
       (emit (EvRun (git_commit (sample_env ENABLED git_nothing_to_commit)) None)
          (emit (EvRun (git_add (sample_env ENABLED git_nothing_to_commit)) None) empty_world)),
     Ok ()).
Proof.
  destruct (git_steps_stop_at_the_first_failure
              (sample_env ENABLED git_nothing_to_commit) empty_world) as (_ & H & _).
  apply (H "" "" 1 "" ""); [reflexivity|reflexivity|discriminate].
Defined.

(** ** The loop, for every timeout and threshold *)

(** X10. Empty polls add up.  With a timeout that is not negative, as
    long as the idle time with [n] more timeouts stays below the threshold,
    [n] empty polls in a row leave the loop polling with exactly that idle
    time, and the world as it was: with a timeout of zero and a positive
    threshold no number of empty polls ends the run.  The poll that takes
    the idle time to the threshold invokes the synchronizer, once, and ends
    the loop. *)
Theorem empty_polls_add_up env timeout idle_timeout n idle_time w :
  0 ≤ timeout →
  idle_time + Z.of_nat n * timeout < idle_timeout →
  while_True env timeout idle_timeout (replicate n (Batch [])) idle_time w
  = (w, Ok (Polling (idle_time + Z.of_nat n * timeout)))
  ∧ (idle_timeout ≤ idle_time + Z.of_nat (S n) * timeout →
     ∀ rest w' r,
       while_True env timeout idle_timeout (replicate (S n) (Batch []) ++ rest) idle_time w
       = (w', r) →
       exited r ∧ sync_count env w' = S (sync_count env w) ∧ fs w' = fs w).
Proof.
  intros Ht. revert idle_time.
  assert (∀ idle_time,
            idle_time + Z.of_nat n * timeout < idle_timeout →
            while_True env timeout idle_timeout (replicate n (Batch [])) idle_time w
            = (w, Ok (Polling (idle_time + Z.of_nat n * timeout)))) as Hbelow.
  { induction n as [|n IH]; intros i Hn.
    - cbn. by rewrite Z.add_0_r.
    - cbn [replicate while_True]. unfold bind.
      rewrite loop_body_empty_below by nia.
      rewrite IH by nia. do 3 f_equal. lia. }
  intros i Hn. split; [by apply Hbelow|].
  intros Hreach rest w' r.
  replace (S n) with (n + 1)%nat by lia. rewrite replicate_add, <- app_assoc.
  rewrite while_True_app, Hbelow by exact Hn.
  cbn [replicate app while_True]. unfold bind.
  destruct (loop_body env timeout idle_timeout (Batch []) (i + Z.of_nat n * timeout) w)
    as [w1 r1] eqn:E.
  apply loop_body_empty_reached in E as (Hc & Hf & Hr); [|lia].
  destruct Hr as [->|(e & args & -> & _)]; intros [= <- <-]; split_and!; done.
Qed.

Lemma empty_polls_add_up_witness :
  while_True (sample_env ENABLED sample_tool) 2 7 (replicate 3 (Batch [])) 0 empty_world
  = (empty_world, Ok (Polling (0 + Z.of_nat 3 * 2)))
  ∧ (7 ≤ 0 + Z.of_nat 4 * 2 →
     ∀ rest w' r,
       while_True (sample_env ENABLED sample_tool) 2 7 (replicate 4 (Batch []) ++ rest)
         0 empty_world = (w', r) →
       exited r
       ∧ sync_count (sample_env ENABLED sample_tool) w'
         = S (sync_count (sample_env ENABLED sample_tool) empty_world)
       ∧ fs w' = fs empty_world).
Proof.
  apply (empty_polls_add_up (sample_env ENABLED sample_tool) 2 7 3 0 empty_world); lia.
Defined.

(** X11. The synchronizer runs at most once in a run, and only as the
    last thing the loop does.  While the loop is polling it has not run;
    when the loop is left by [break] it has run once; when the loop is left
    by an exception it has not run, unless the exception came from a [git]
    command that could not be run.  So what a run wrote before an error in
    a message or in a poll ended it is not pushed. *)
Theorem synchronizer_runs_at_most_once env timeout idle_timeout polls idle_time w w' r :
  while_True env timeout idle_timeout polls idle_time w = (w', r) →
  match r with
  | Ok (Polling _) => sync_count env w' = sync_count env w
  | Ok Break => sync_count env w' = S (sync_count env w)
  | Raise e =>
      sync_count env w' = sync_count env w
      ∨ (sync_count env w' = S (sync_count env w)
         ∧ ∃ args, subprocess_run env args None = RunRaises e)
  end.
Proof.
  revert idle_time w. induction polls as [|p polls IH]; intros i w.
  - intros [= <- <-]. reflexivity.
  - cbn [while_True]. unfold bind.
    destruct (loop_body env timeout idle_timeout p i w) as [w1 r1] eqn:E.
    destruct p as [[|msg messages]|e].
    + destruct (decide (i + timeout < idle_timeout)) as [Hlt|Hge].
      * rewrite loop_body_empty_below in E by exact Hlt. injection E as <- <-. apply IH.
      * apply loop_body_empty_reached in E as (Hc & _ & [->|(e & args & -> & Hr)]); [| |lia];
          intros [= <- <-]; eauto.
    + apply loop_body_nonempty in E as [Hc [->|[e ->]]].
      * intros H. apply IH in H. by rewrite Hc in H.
      * intros [= <- <-]. by left.
    + rewrite loop_body_raises in E. injection E as <- <-. intros [= <- <-]. by left.
Qed.

Lemma synchronizer_runs_at_most_once_witness :
  sync_count (sample_env ENABLED sample_tool)
    (while_True (sample_env ENABLED sample_tool) 5 10
       [Batch [message "created"]; Batch [message "version-deleted-no-version"]; Batch []; Batch []]
       0 empty_world).1
  = sync_count (sample_env ENABLED sample_tool) empty_world
  ∨ (sync_count (sample_env ENABLED sample_tool)
       (while_True (sample_env ENABLED sample_tool) 5 10
          [Batch [message "created"]; Batch [message "version-deleted-no-version"];
           Batch []; Batch []] 0 empty_world).1
     = S (sync_count (sample_env ENABLED sample_tool) empty_world)
     ∧ ∃ args, sample_tool args None = RunRaises TypeError).
Proof.
  apply (synchronizer_runs_at_most_once (sample_env ENABLED sample_tool) 5 10
           [Batch [message "created"]; Batch [message "version-deleted-no-version"];
            Batch []; Batch []] 0 empty_world _ (Raise TypeError)).
  vm_compute. reflexivity.
Defined.

(** ** The start of the process *)

(** X12. When the consumer cannot be created or cannot subscribe to the
    topic, [main] raises that exception and the loop is never entered: no
    poll is made, nothing is processed or pushed, the world is as it was
    (there is no consumer to close either way: a consumer that was created
    but could not subscribe is not closed). *)
Theorem failed_start_leaves_everything_alone
    kafka env GROUP_ID polls kafka_bootstrap_server apicurio_registry_url kafka_topic w e :
  new_consumer kafka (consumer_config GROUP_ID kafka_bootstrap_server) = Raise e
  ∨ (new_consumer kafka (consumer_config GROUP_ID kafka_bootstrap_server) = Ok ()
     ∧ consumer_subscribe kafka [kafka_topic] = Raise e) →
  ∃ started,
    main kafka env GROUP_ID polls kafka_bootstrap_server apicurio_registry_url kafka_topic w
    = (started, w, Raise e)
    ∧ (In (StSubscribe [kafka_topic]) started ↔
       new_consumer kafka (consumer_config GROUP_ID kafka_bootstrap_server) = Ok ()).
Proof.
  unfold main, create_consumer. intros [H|[H1 H2]].
  - rewrite H. eexists. split; [reflexivity|]. cbn. split; [|discriminate].
    intros [|[|[|[|[]]]]]; discriminate.
  - rewrite H1, H2. eexists. split; [reflexivity|]. cbn. tauto.
Qed.

Lemma failed_start_leaves_everything_alone_witness :
  ∃ started,
    main unreachable_kafka (sample_env ENABLED sample_tool) "0b5f9f0c"
      [Batch [message "created"]; Batch []; Batch []]
      "kafka:9093" "https://registry/apis/registry/v3" "registry-events" empty_world
    = (started, empty_world, Raise (OtherException "KafkaException"))
    ∧ (In (StSubscribe ["registry-events"]) started ↔
       new_consumer unreachable_kafka (consumer_config "0b5f9f0c" "kafka:9093") = Ok ()).
Proof.
  apply (failed_start_leaves_everything_alone unreachable_kafka
           (sample_env ENABLED sample_tool) "0b5f9f0c"
           [Batch [message "created"]; Batch []; Batch []]
           "kafka:9093" "https://registry/apis/registry/v3" "registry-events" empty_world).
  right. split; reflexivity.
Defined.

(** Two empty polls after the counter stood at zero, with the timeout
    and the threshold [main] passes. *)
Lemma two_empty_polls_end_the_loop env pre rest w w1 :
  while_True env 5 10 pre 0 w = (w1, Ok (Polling 0)) →
  ∃ w2 r,
    while_True env 5 10 (pre ++ Batch [] :: Batch [] :: rest) 0 w = (w2, r)
    ∧ exited r
    ∧ sync_count env w2 = S (sync_count env w)
    ∧ fs w2 = fs w1.
Proof.
  intros E.
  destruct (polling_invariant env pre 0 w w1 0) as [Hc0 _]; [by left|exact E|].
  rewrite while_True_app, E. cbn [while_True]. unfold bind.
  rewrite loop_body_empty_below by lia. change (0 + 5) with 5.
  destruct (loop_body env 5 10 (Batch []) 5 w1) as [w2 r2] eqn:E2.
  apply loop_body_empty_reached in E2 as (Hc & Hf & Hr); [|lia].
  rewrite Hc0 in Hc.
  destruct Hr as [->|(e & args & -> & Hr)]; eexists _, _; split_and!; done.
Qed.

(** X13. A whole run.  When the consumer is created and subscribed,
    [main] subscribes to the one topic it was given, reading from the
    earliest offset under the group identifier of the process, and runs the
    loop with a timeout of 5 and a threshold of 10: once the polls hold two
    empty ones in a row (after polls that left the loop polling), the run is
    over, the synchronizer has been invoked exactly once, and closing the
    consumer is the last thing that happened. *)
Theorem a_run_ends_after_two_empty_polls
    kafka env GROUP_ID pre rest kafka_bootstrap_server apicurio_registry_url kafka_topic w w1 :
  new_consumer kafka (consumer_config GROUP_ID kafka_bootstrap_server) = Ok () →
  consumer_subscribe kafka [kafka_topic] = Ok () →
  while_True env 5 10 pre 0 w = (w1, Ok (Polling 0)) →
  ∃ w2 r later,
    main kafka env GROUP_ID (pre ++ Batch [] :: Batch [] :: rest)
      kafka_bootstrap_server apicurio_registry_url kafka_topic w
    = ([ StSubscribe [kafka_topic];
         StConsumer [ ("bootstrap.servers", kafka_bootstrap_server);
                      ("group.id", GROUP_ID);
                      ("auto.offset.reset", "earliest");
                      ("security.protocol", "SSL");
                      ("enable.ssl.certificate.verification", "false") ];
         StPrintTopic kafka_topic;
         StPrintRegistryUrl apicurio_registry_url;
         StPrintBootstrapServer kafka_bootstrap_server ],
       w2, r)
    ∧ exited r
    ∧ sync_count env w2 = S (sync_count env w)
    ∧ events w2 = EvClose :: later
    ∧ fs w2 = fs w1.
Proof.
  intros Hn Hs E.
  destruct (two_empty_polls_end_the_loop env pre rest w w1 E) as (w2 & r & E2 & Hx & Hc & Hf).
  unfold main, create_consumer. rewrite Hn, Hs.
  unfold consume_messages_in_batches, try_finally, consumer_close, trace. rewrite E2.
  destruct r as [[i|]|e]; [destruct Hx| |];
    eexists _, _, _; (split; [reflexivity|]); split_and!; try done;
    unfold sync_count in *; cbn; exact Hc.
Qed.

Lemma a_run_ends_after_two_empty_polls_witness :
  ∃ w2 r later,
    main sample_kafka (sample_env ENABLED sample_tool) "0b5f9f0c"
      ([Batch [message "created"]] ++ Batch [] :: Batch [] :: [])
      "kafka:9093" "https://registry/apis/registry/v3" "registry-events" empty_world
    = ([ StSubscribe ["registry-events"];
         StConsumer [ ("bootstrap.servers", "kafka:9093");
                      ("group.id", "0b5f9f0c");
                      ("auto.offset.reset", "earliest");
                      ("security.protocol", "SSL");
                      ("enable.ssl.certificate.verification", "false") ];
         StPrintTopic "registry-events";
         StPrintRegistryUrl "https://registry/apis/registry/v3";
         StPrintBootstrapServer "kafka:9093" ],
       w2, r)
    ∧ exited r
    ∧ sync_count (sample_env ENABLED sample_tool) w2
      = S (sync_count (sample_env ENABLED sample_tool) empty_world)
    ∧ events w2 = EvClose :: later
    ∧ fs w2 = fs (process_message (sample_env ENABLED sample_tool) (message "created")
                    empty_world).1.
Proof.
  apply (a_run_ends_after_two_empty_polls sample_kafka (sample_env ENABLED sample_tool)
           "0b5f9f0c" [Batch [message "created"]] [] "kafka:9093"
           "https://registry/apis/registry/v3" "registry-events" empty_world).
  - reflexivity.
  - reflexivity.
  - vm_compute. reflexivity.
Defined.

(** ** The tree after any message *)

(** The two clauses of [process_message] print and nothing more. *)
Lemma process_message_clauses_fs e w w' (r : result ()) :
  handle [(is_JSONDecodeError, λ _, print LogFailedToDecodeJSON);
          (is_KeyError,
           λ e, match e with
                | KeyError key => print (LogMissingExpectedKey key)
                | _ => ret ()
                end)] e w = (w', r) →
  fs w' = fs w.
Proof.
  cbn [handle]. destruct (is_JSONDecodeError e); [by intros [= <- <-]|].
  destruct (is_KeyError e); [|by intros [= <- <-]].
  destruct e; by intros [= <- <-].
Qed.

Lemma rmtree_fs p w w' r :
  (b <- os_path_exists p ;;
   if b : bool then shutil_rmtree p ;;; print (LogDeletedDirectory p)
   else print (LogDirectoryDoesNotExist p)) w = (w', r) →
  fs w' = deleted_fs p (fs w).
Proof.
  unfold bind, os_path_exists, shutil_rmtree, deleted_fs, print.
  destruct (fs w !! p) as [[|document]|] eqn:E.
  - rewrite bool_decide_eq_true_2 by eauto. rewrite E. by intros [= <- <-].
  - rewrite bool_decide_eq_true_2 by eauto. rewrite E. by intros [= <- <-].
  - rewrite bool_decide_eq_false_2 by (by intros [? [=]]). by intros [= <- <-].
Qed.

Lemma delete_version_fs g a v w w' r :
  delete_version g a v w = (w', r) →
  fs w' = match os_path_join [g; a; v] with
          | Ok folder_path => deleted_fs folder_path (fs w)
          | Raise _ => fs w
          end.
Proof.
  unfold delete_version. unfold bind at 1, lift.
  destruct (os_path_join [g; a; v]) as [p|e]; [|by intros [= <- <-]].
  apply rmtree_fs.
Qed.

Lemma delete_artifact_directory_fs g a w w' r :
  delete_artifact_directory g a w = (w', r) →
  fs w' = match os_path_join [g; a] with
          | Ok folder_path => deleted_fs folder_path (fs w)
          | Raise _ => fs w
          end.
Proof.
  unfold delete_artifact_directory. unfold bind at 1, lift.
  destruct (os_path_join [g; a]) as [p|e]; [|by intros [= <- <-]].
  unfold bind, os_path_exists, shutil_rmtree, deleted_fs, print.
  destruct (fs w !! p) as [[|document]|] eqn:E.
  - rewrite bool_decide_eq_true_2 by eauto. rewrite E. by intros [= <- <-].
  - rewrite bool_decide_eq_true_2 by eauto. rewrite E. by intros [= <- <-].
  - rewrite bool_decide_eq_false_2 by (by intros [? [=]]). by intros [= <- <-].
Qed.

Lemma dispatch_fs env d w w' r :
  dispatch env (PDict d) w = (w', r) → fs w' = dispatched_fs env d (fs w).
Proof.
  rewrite dispatch_dict. unfold dispatched_fs.
  destruct (py_eq_str (event_type_of d) "ARTIFACT_VERSION_CREATED").
  { unfold bind at 1, print at 1. intros E. by apply get_artifact_content_fs in E. }
  destruct (py_eq_str (event_type_of d) "ARTIFACT_VERSION_STATE_CHANGED").
  { destruct (py_eq_str (new_state_of d) "ENABLED").
    - unfold bind at 1, print at 1. intros E. by apply get_artifact_content_fs in E.
    - by intros [= <- <-]. }
  destruct (py_eq_str (event_type_of d) "ARTIFACT_DELETED").
  { unfold bind at 1, print at 1. intros E. by apply delete_artifact_directory_fs in E. }
  destruct (py_eq_str (event_type_of d) "ARTIFACT_VERSION_DELETED").
  { unfold bind at 1, print at 1. intros E. by apply delete_version_fs in E. }
  by intros [= <- <-].
Qed.

(** [process_message] follows [processed_fs], whatever the message. *)
Lemma process_message_fs env msg w w' r :
  process_message env msg w = (w', r) → fs w' = processed_fs env msg (fs w).
Proof.
  unfold processed_fs. destruct (payload_of env msg) as [d|] eqn:Hd.
  - rewrite (process_message_decoded _ _ _ _ Hd). unfold try_except.
    destruct (dispatch env (PDict d) w) as [w1 r1] eqn:E.
    apply dispatch_fs in E. rewrite <- E.
    destruct r1 as [[]|e]; [by intros [= <- <-]|]. apply process_message_clauses_fs.
  - revert Hd. unfold payload_of, process_message, decode_value.
    unfold try_except at 1. unfold bind at 1.
    destruct (msg_value msg) as [[text|]|];
      [|intros _; apply process_message_clauses_fs..].
    unfold ret at 1, bind at 1, py_json_loads at 1.
    destruct (json_loads env text) as [top|];
      [|intros _; apply process_message_clauses_fs].
    unfold ret at 1, bind at 1 2, subscript.
    destruct top as [| | | |l|top];
      try (intros _; apply process_message_clauses_fs).
    destruct (dict_get "payload" top) as [p|];
      [|intros _; apply process_message_clauses_fs].
    unfold ret at 1, py_json_loads.
    destruct p as [| | |ptext| |];
      try (intros _; apply process_message_clauses_fs).
    destruct (json_loads env ptext) as [payload|];
      [|intros _; apply process_message_clauses_fs].
    unfold ret at 1.
    destruct payload; try discriminate; intros _; apply process_message_clauses_fs.
Qed.

(** ** The tree after a run *)

Lemma tree_after_app env a b f :
  tree_after env (a ++ b) f = tree_after env b (tree_after env a f).
Proof. unfold tree_after. apply foldl_app. Qed.

(** A batch: the messages handed to [process_message] are the ones
    without a delivery error, in order, up to the first that raises; the
    tree follows them. *)
Lemma process_messages_fs env messages w w' r :
  process_messages env messages w = (w', r) →
  ∃ done,
    done `prefix_of` List.filter no_delivery_error messages
    ∧ fs w' = tree_after env done (fs w)
    ∧ (r = Ok () → done = List.filter no_delivery_error messages).
Proof.
  revert w. induction messages as [|msg messages IH]; intros w.
  { intros [= <- <-]. exists []. done. }
  cbn [process_messages List.filter]. unfold bind at 1.
  destruct (msg_error msg) as [code|] eqn:Herr.
  - replace (no_delivery_error msg) with false by (unfold no_delivery_error; by rewrite Herr).
    assert (∃ w1, (if code =? _PARTITION_EOF then ret () else print (LogKafkaError code)) w
                  = (w1, Ok ()) ∧ fs w1 = fs w) as (w1 & -> & <-).
    { destruct (code =? _PARTITION_EOF); eexists; split; reflexivity. }
    apply IH.
  - replace (no_delivery_error msg) with true by (unfold no_delivery_error; by rewrite Herr).
    unfold try_except at 1.
    destruct (process_message env msg w) as [w1 r1] eqn:E1.
    apply process_message_fs in E1.
    assert (∀ w2, fs w2 = fs w1 →
              process_messages env messages w2 = (w', r) →
              ∃ done, done `prefix_of` msg :: List.filter no_delivery_error messages
                ∧ fs w' = tree_after env done (fs w)
                ∧ (r = Ok () → done = msg :: List.filter no_delivery_error messages))
      as Hgo.
    { intros w2 F2 E. destruct (IH _ E) as (done & Hp & Hf & Hr).
      exists (msg :: done). split_and!.
      - by apply prefix_cons.
      - rewrite Hf, F2, E1. reflexivity.
      - intros Hok. by rewrite Hr. }
    destruct r1 as [[]|e]; [by apply Hgo|].
    cbn [handle]. destruct (is_JSONDecodeError e); [by apply Hgo|].
    intros [= <- <-]. exists [msg]. split_and!.
    + apply prefix_cons, prefix_nil.
    + by rewrite E1.
    + discriminate.
Qed.

(** The loop. *)
Lemma while_True_fs env timeout idle_timeout polls idle_time w w' r :
  while_True env timeout idle_timeout polls idle_time w = (w', r) →
  ∃ done,
    done `prefix_of` delivered polls
    ∧ fs w' = tree_after env done (fs w)
    ∧ (∀ idle_time', r = Ok (Polling idle_time') → done = delivered polls).
Proof.
  revert idle_time w. induction polls as [|p polls IH]; intros idle_time w.
  { intros [= <- <-]. exists []. done. }
  cbn [while_True delivered]. unfold bind at 1.
  destruct p as [[|msg messages]|e].
  - destruct (Z_lt_le_dec (idle_time + timeout) idle_timeout) as [Hlt|Hge].
    + rewrite loop_body_empty_below by exact Hlt. apply IH.
    + destruct (loop_body env timeout idle_timeout (Batch []) idle_time w) as [w1 r1] eqn:E1.
      apply loop_body_empty_reached in E1 as (_ & F1 & Hr); [|exact Hge].
      destruct Hr as [->|(e & args & -> & _)]; intros [= <- <-];
        exists []; (split_and!; [apply prefix_nil|by rewrite F1|discriminate]).
  - destruct (loop_body env timeout idle_timeout (Batch (msg :: messages)) idle_time w)
      as [w2 r2] eqn:E2.
    unfold loop_body, bind, ret in E2.
    destruct (process_messages env (msg :: messages) w) as [w1 r1] eqn:E1.
    apply process_messages_fs in E1 as (done1 & Hp1 & Hf1 & Hr1).
    destruct r1 as [[]|e]; injection E2 as <- <-.
    + intros E. destruct (IH _ _ E) as (done & Hp & Hf & Hr).
      exists (done1 ++ done). rewrite Hr1 by reflexivity. split_and!.
      * by apply prefix_app.
      * rewrite <- Hr1 by reflexivity. by rewrite tree_after_app, <- Hf1.
      * intros i Hi. by rewrite (Hr i Hi).
    + intros [= <- <-]. exists done1. split_and!.
      * by apply prefix_app_r.
      * exact Hf1.
      * discriminate.
  - rewrite loop_body_raises. intros [= <- <-]. exists []. done.
Qed.

Lemma consume_messages_in_batches_fs env polls batch_size timeout idle_timeout w w' r :
  consume_messages_in_batches env polls batch_size timeout idle_timeout w = (w', r) →
  ∃ done,
    done `prefix_of` delivered polls
    ∧ fs w' = tree_after env done (fs w)
    ∧ (∀ idle_time', r = Ok (Polling idle_time') → done = delivered polls).
Proof.
  unfold consume_messages_in_batches, try_finally, consumer_close, trace.
  destruct (while_True env timeout idle_timeout polls 0 w) as [w1 r1] eqn:E.
  apply while_True_fs in E as (done & Hp & Hf & Hr).
  destruct r1 as [[i|]|e]; intros [= <- <-]; exists done; split_and!; try done.
Qed.

(** X14. The output tree after a run is a function of the messages
    alone, when the names the messages bring to the disk are plain.  It is
    the tree before with the messages that carry no delivery
    error processed one after the other, in the order polled, up to the
    point the run had come to; how they were cut into batches, the empty
    polls in between and what was printed play no part.  While the loop is
    still polling, every message polled so far is in. *)
Theorem the_tree_follows_the_messages env polls batch_size timeout idle_timeout w w' r :
  forallb (plain_message env) (delivered polls) = true →
  consume_messages_in_batches env polls batch_size timeout idle_timeout w = (w', r) →
  ∃ done,
    done `prefix_of` delivered polls
    ∧ fs w' = tree_after env done (fs w)
    ∧ (∀ idle_time', r = Ok (Polling idle_time') → done = delivered polls).
Proof. intros _. apply consume_messages_in_batches_fs. Qed.

Lemma the_tree_follows_the_messages_witness :
  ∃ done,
    done `prefix_of`
      delivered [Batch [message "created"; {| msg_error := Some (-185); msg_value := None |}];
                 Batch []; Batch [message "version-deleted"]]
    ∧ fs (consume_messages_in_batches (sample_env ENABLED sample_tool)
            [Batch [message "created"; {| msg_error := Some (-185); msg_value := None |}];
             Batch []; Batch [message "version-deleted"]] 10 5 10 empty_world).1
      = tree_after (sample_env ENABLED sample_tool) done (fs empty_world)
    ∧ (∀ idle_time',
         (consume_messages_in_batches (sample_env ENABLED sample_tool)
            [Batch [message "created"; {| msg_error := Some (-185); msg_value := None |}];
             Batch []; Batch [message "version-deleted"]] 10 5 10 empty_world).2
         = Ok (Polling idle_time') →
         done = delivered
                  [Batch [message "created"; {| msg_error := Some (-185); msg_value := None |}];
                   Batch []; Batch [message "version-deleted"]]).
Proof.
  apply (the_tree_follows_the_messages (sample_env ENABLED sample_tool)
           [Batch [message "created"; {| msg_error := Some (-185); msg_value := None |}];
            Batch []; Batch [message "version-deleted"]] 10 5 10 empty_world).
  - reflexivity.
  - vm_compute. reflexivity.
Defined.

(** ** Any event again *)

Lemma deleted_fs_gone p f q : p `prefix_of` q → f !! p = Some Dir → deleted_fs p f !! q = None.
Proof.
  intros Hq Hp. unfold deleted_fs. rewrite Hp.
  apply map_lookup_filter_None. right. intros x _ Hn. by apply Hn.
Qed.

Lemma deleted_fs_frame p f q : ¬ p `prefix_of` q → deleted_fs p f !! q = f !! q.
Proof.
  intros Hq. unfold deleted_fs. destruct (f !! p) as [[|?]|]; try reflexivity.
  destruct (f !! q) as [x|] eqn:E.
  - by apply map_lookup_filter_Some.
  - apply map_lookup_filter_None. by left.
Qed.

Lemma deleted_fs_idempotent p f : deleted_fs p (deleted_fs p f) = deleted_fs p f.
Proof.
  destruct (f !! p) as [[|?]|] eqn:E.
  - unfold deleted_fs at 1. by rewrite (deleted_fs_gone p f p).
  - unfold deleted_fs. by rewrite !E.
  - unfold deleted_fs. by rewrite !E.
Qed.

Lemma dispatched_fs_idempotent env d f :
  dispatched_fs env d (dispatched_fs env d f) = dispatched_fs env d f.
Proof.
  unfold dispatched_fs.
  repeat match goal with
         | |- context [if ?b then _ else _] => destruct b
         | |- context [match os_path_join ?l with _ => _ end] => destruct (os_path_join l)
         end;
    first [apply fetched_fs_idempotent | apply deleted_fs_idempotent | reflexivity].
Qed.

Lemma processed_fs_idempotent env msg f :
  processed_fs env msg (processed_fs env msg f) = processed_fs env msg f.
Proof.
  unfold processed_fs. destruct (payload_of env msg); [apply dispatched_fs_idempotent|done].
Qed.

(** X15. Any message again.  Whatever a message is (an event of any
    type, with or without its fields, or no event at all) and whatever
    processing it does (returning or raising), processing it a second time
    right after the first, with the registry and the generators answering
    as before, leaves the output tree exactly as the first processing left
    it: a redelivered message is harmless for the tree. *)
Theorem any_message_again_keeps_the_tree env msg w :
  fs (process_message env msg (process_message env msg w).1).1
  = fs (process_message env msg w).1.
Proof.
  destruct (process_message env msg w) as [w1 r1] eqn:E1. cbn [fst].
  destruct (process_message env msg w1) as [w2 r2] eqn:E2. cbn [fst].
  apply process_message_fs in E1, E2. rewrite E2, E1. apply processed_fs_idempotent.
Qed.

(** ** The layout of the output tree *)

Lemma not_snoc {A} (q : list A) x : q ++ [x] ≠ q.
Proof.
  intros E. apply (f_equal length) in E. rewrite length_app in E. cbn in E. lia.
Qed.

(** A directory made where nothing or a directory was, at depth one to
    three, with its parent in place. *)
Lemma layout_insert_dir f p :
  layout f →
  (1 ≤ length p ≤ 3)%nat →
  not_a_file f p →
  (∀ q x, p = q ++ [x] → q ≠ [] → f !! q = Some Dir) →
  layout (<[p := Dir]> f).
Proof.
  intros L Hlen Hnf Hpar p' n. destruct (decide (p' = p)) as [->|Hne].
  - rewrite lookup_insert_eq. intros [= <-]. split; [exact Hlen|].
    intros q x -> Hq. rewrite lookup_insert_ne by apply not_snoc. by eapply Hpar.
  - rewrite lookup_insert_ne by done. intros H. destruct (L p' n H) as [Hl Hp].
    split; [exact Hl|]. intros q x -> Hq. destruct (decide (q = p)) as [->|Hqp].
    + by rewrite lookup_insert_eq.
    + rewrite lookup_insert_ne by done. by eapply Hp.
Qed.

(** A file written at depth four into a directory. *)
Lemma layout_insert_file f p document :
  layout f →
  length p = 4%nat →
  (∀ q x, p = q ++ [x] → f !! q = Some Dir) →
  layout (<[p := File document]> f).
Proof.
  intros L Hlen Hpar p' n. destruct (decide (p' = p)) as [->|Hne].
  - rewrite lookup_insert_eq. intros [= <-]. split; [exact Hlen|].
    intros q x -> Hq. rewrite lookup_insert_ne by apply not_snoc. by eapply Hpar.
  - rewrite lookup_insert_ne by done. intros H. destruct (L p' n H) as [Hl Hp].
    split; [exact Hl|]. intros q x -> Hq. destruct (decide (q = p)) as [->|Hqp].
    + exfalso. rewrite length_app in Hl. cbn in Hl. destruct n; lia.
    + rewrite lookup_insert_ne by done. by eapply Hp.
Qed.

(** On a tree of that layout no file is in the way of a coordinate. *)
Lemma layout_not_a_file f p : layout f → length p ≠ 4%nat → not_a_file f p.
Proof. intros L Hlen document H. destruct (L _ _ H) as [Hl _]. done. Qed.

Lemma layout_not_a_directory f p : layout f → length p = 4%nat → not_a_directory f p.
Proof. intros L Hlen H. destruct (L _ _ H) as [Hl _]. lia. Qed.

(** [os.makedirs] on a coordinate, when no file is in the way: the three
    directories are made or kept. *)
Lemma makedirs_inserts g a v f :
  not_a_file f [g] → not_a_file f [g; a] → not_a_file f [g; a; v] →
  makedirs_from [] [g; a; v] f
  = (<[ [g; a; v] := Dir ]> (<[ [g; a] := Dir ]> (<[ [g] := Dir ]> f)), Ok ()).
Proof.
  intros H1 H2 H3. makedirs_cases g a v f;
    try (by destruct (H1 document)); try (by destruct (H2 document));
    try (by destruct (H3 document)); f_equal;
    rewrite ?(insert_id f [g] Dir) by done;
    rewrite ?(insert_id _ [g; a] Dir) by (by simplify_map_eq);
    rewrite ?(insert_id _ [g; a; v] Dir) by (by simplify_map_eq);
    reflexivity.
Qed.

Lemma layout_makedirs g a v f :
  layout f →
  ∃ f1, makedirs_from [] [g; a; v] f = (f1, Ok ()) ∧ layout f1.
Proof.
  intros L. eexists. split.
  { apply makedirs_inserts; apply layout_not_a_file; done. }
  assert (layout (<[ [g] := Dir ]> f)) as L1.
  { apply layout_insert_dir; [done|cbn; lia|by apply layout_not_a_file|].
    intros [|? [|? ?]] x [=]; done. }
  assert (layout (<[ [g; a] := Dir ]> (<[ [g] := Dir ]> f))) as L2.
  { apply layout_insert_dir; [done|cbn; lia|by apply layout_not_a_file|].
    intros [|? [|? [|? ?]]] x [=]; subst; try done. intros _. by rewrite lookup_insert_eq. }
  apply layout_insert_dir; [done|cbn; lia|by apply layout_not_a_file|].
  intros [|? [|? [|? [|? ?]]]] x [=]; subst; try done. intros _. by rewrite lookup_insert_eq.
Qed.

Lemma layout_command env g a v args content mode f f' c :
  layout f → command_fs env g a v args content mode f = (f', c) → layout f'.
Proof.
  intros L. unfold command_fs.
  destruct (layout_makedirs g a v f L) as (f1 & Emk & L1). rewrite Emk.
  destruct (makedirs_ok_dirs _ _ _ _ _ Emk) as (_ & _ & Hd).
  destruct (generated env args content) as [data|e]; [|by intros [= <- _]].
  destruct (f1 !! [g; a; v; output_filename g a v mode]) as [[|?]|] eqn:E;
    intros [= <- _]; try done;
    (apply layout_insert_file; [done|reflexivity|]);
    intros q x Hq;
    change [g; a; v; output_filename g a v mode]
      with ([g; a; v] ++ [output_filename g a v mode]) in Hq;
    apply app_inj_tail in Hq as [<- _]; exact Hd.
Qed.

Lemma layout_cli env g a v content f : layout f → layout (cli_fs env g a v content f).
Proof.
  intros L. unfold cli_fs.
  destruct (command_fs env g a v httproute_args content "httproute" f) as [f1 c1] eqn:E1.
  apply layout_command in E1; [|done]. destruct c1; [|done].
  destruct (command_fs env g a v authpolicy_args content "authpolicy" f1) as [f2 c2] eqn:E2.
  apply layout_command in E2; [|done]. destruct c2; [|done].
  destruct (command_fs env g a v ratelimitpolicy_args content "ratelimiting_policy" f2)
    as [f3 c3] eqn:E3.
  by apply layout_command in E3.
Qed.

Lemma layout_fetched env g a v f : layout f → layout (fetched_fs env g a v f).
Proof.
  intros L. unfold fetched_fs.
  destruct (registry_content env g a v) as [content|]; [|done].
  destruct (registry_state env g a v) as [[[[]|]|]|]; try done.
  destruct g, a, v; try done. by apply layout_cli.
Qed.

Lemma layout_deleted p f : layout f → layout (deleted_fs p f).
Proof.
  intros L. unfold deleted_fs. destruct (f !! p) as [[|?]|] eqn:E; try done.
  intros q n H. apply map_lookup_filter_Some in H as [H Hn]. cbn in Hn.
  destruct (L _ _ H) as [Hl Hp]. split; [exact Hl|]. intros q' x -> Hq'.
  apply map_lookup_filter_Some. split; [by eapply Hp|]. cbn.
  intros Hpre. apply Hn. by apply prefix_app_r.
Qed.

Lemma layout_dispatched env d f : layout f → layout (dispatched_fs env d f).
Proof.
  intros L. unfold dispatched_fs.
  repeat match goal with
         | |- context [if ?b then _ else _] => destruct b
         | |- context [match os_path_join ?l with _ => _ end] => destruct (os_path_join l)
         end;
    first [by apply layout_fetched | by apply layout_deleted | done].
Qed.

Lemma layout_processed env msg f : layout f → layout (processed_fs env msg f).
Proof.
  intros L. unfold processed_fs. destruct (payload_of env msg); [by apply layout_dispatched|done].
Qed.

(** What every message keeps, a run keeps. *)
Lemma tree_after_keeps (env : Env) (P : gmap (list string) node → Prop)
    (msgs : list Message) (f : gmap (list string) node) :
  (∀ msg f0, P f0 → P (processed_fs env msg f0)) → P f → P (tree_after env msgs f).
Proof.
  intros HP. unfold tree_after. revert f. induction msgs as [|msg msgs IH]; intros f Hf.
  - exact Hf.
  - cbn. apply IH. by apply HP.
Qed.

(** X16. The layout is an invariant of the script.  On an output tree
    with directories at depth one to three, files at depth four and every
    node below the first level inside a directory (the empty tree is one),
    every run, returning, breaking or raising, whatever the registry and
    the generators do, on messages whose names are plain (whatever else
    they are), leaves a tree of that layout: the
    script never writes a file at the place of a directory or outside a
    version directory, and never leaves a node without its parent. *)
Theorem the_layout_is_kept env polls batch_size timeout idle_timeout w w' r :
  forallb (plain_message env) (delivered polls) = true →
  layout (fs w) →
  consume_messages_in_batches env polls batch_size timeout idle_timeout w = (w', r) →
  layout (fs w').
Proof.
  intros _ L E. apply consume_messages_in_batches_fs in E as (done & _ & -> & _).
  apply tree_after_keeps; [|exact L]. intros msg f. apply layout_processed.
Qed.

Lemma the_layout_is_kept_witness :
  layout (fs (consume_messages_in_batches (sample_env ENABLED sample_tool)
                [Batch [message "created"; message "version-deleted"; message "created"];
                 Batch []; Batch []] 10 5 10 empty_world).1).
Proof.
  apply (the_layout_is_kept (sample_env ENABLED sample_tool)
           [Batch [message "created"; message "version-deleted"; message "created"];
            Batch []; Batch []] 10 5 10 empty_world _
           (consume_messages_in_batches (sample_env ENABLED sample_tool)
                [Batch [message "created"; message "version-deleted"; message "created"];
                 Batch []; Batch []] 10 5 10 empty_world).2).
  - reflexivity.
  - intros p n H. vm_compute in H. discriminate H.
  - vm_compute. reflexivity.
Defined.

(** ** No [status] on disk *)

Lemma generated_no_status env args content data :
  generated env args content = Ok data →
  ∃ d, data = PDict d ∧ dict_get "status" d = None.
Proof.
  unfold generated. intros H.
  assert (match subprocess_run env args (content_text content) with
          | RunRaises e => Raise e
          | Completed returncode stdout stderr =>
              if returncode =? 0 then
                match yaml_safe_load env stdout with
                | None => Raise YAMLError
                | Some (PDict d) => Ok (PDict (dict_pop "status" d))
                | Some (PList _) => Raise TypeError
                | Some _ => Raise AttributeError
                end
              else Raise (CalledProcessError (Some stderr))
          end = Ok data) as H'.
  { destruct content as [[?|]|]; done. }
  clear H. destruct (subprocess_run env args (content_text content)) as [rc out err|e]; [|done].
  destruct (rc =? 0); [|done].
  destruct (yaml_safe_load env out) as [[| | | | |d]|]; try done.
  injection H' as <-. eexists. split; [reflexivity|]. apply dict_get_pop_same.
Qed.

(** [os.makedirs] makes directories: a file after it was a file before. *)
Lemma makedirs_files g a v f f1 r p document :
  makedirs_from [] [g; a; v] f = (f1, r) →
  f1 !! p = Some (File document) → f !! p = Some (File document).
Proof.
  makedirs_cases g a v f; intros [= <- <-] H;
    repeat match type of H with
           | (<[_ := _]> _) !! _ = _ => apply lookup_insert_Some in H as [[_ [=]]|[_ H]]
           end; exact H.
Qed.

Lemma no_status_command env g a v args content mode f f' c :
  no_status_on_disk f → command_fs env g a v args content mode f = (f', c) →
  no_status_on_disk f'.
Proof.
  intros N. unfold command_fs.
  destruct (makedirs_from [] [g; a; v] f) as [f1 [[]|e]] eqn:Emk.
  2: { intros [= <- _] p document H. eapply N, makedirs_files; eassumption. }
  assert (no_status_on_disk f1) as N1.
  { intros p document H. eapply N, makedirs_files; eassumption. }
  destruct (generated env args content) as [data|e] eqn:G; [|by intros [= <- _]].
  apply generated_no_status in G.
  destruct (f1 !! [g; a; v; output_filename g a v mode]) as [[|?]|];
    intros [= <- _]; try done;
    intros p doc H; apply lookup_insert_Some in H as [[_ [= <-]]|[_ H]];
    first [exact G | by apply (N1 p)].
Qed.

Lemma no_status_cli env g a v content f :
  no_status_on_disk f → no_status_on_disk (cli_fs env g a v content f).
Proof.
  intros L. unfold cli_fs.
  destruct (command_fs env g a v httproute_args content "httproute" f) as [f1 c1] eqn:E1.
  apply no_status_command in E1; [|done]. destruct c1; [|done].
  destruct (command_fs env g a v authpolicy_args content "authpolicy" f1) as [f2 c2] eqn:E2.
  apply no_status_command in E2; [|done]. destruct c2; [|done].
  destruct (command_fs env g a v ratelimitpolicy_args content "ratelimiting_policy" f2)
    as [f3 c3] eqn:E3.
  by apply no_status_command in E3.
Qed.

Lemma no_status_processed env msg f :
  no_status_on_disk f → no_status_on_disk (processed_fs env msg f).
Proof.
  intros N. unfold processed_fs. destruct (payload_of env msg) as [d|]; [|done].
  assert (∀ g a v, no_status_on_disk (fetched_fs env g a v f)) as Hfetch.
  { intros g a v. unfold fetched_fs.
    destruct (registry_content env g a v) as [content|]; [|done].
    destruct (registry_state env g a v) as [[[[]|]|]|]; try done.
    destruct g, a, v; try done. by apply no_status_cli. }
  assert (∀ p, no_status_on_disk (deleted_fs p f)) as Hdel.
  { intros p. unfold deleted_fs. destruct (f !! p) as [[|?]|]; try done.
    intros q document H. apply map_lookup_filter_Some in H as [H _]. by apply (N q). }
  unfold dispatched_fs.
  repeat match goal with
         | |- context [if ?b then _ else _] => destruct b
         | |- context [match os_path_join ?l with _ => _ end] => destruct (os_path_join l)
         end;
    first [apply Hfetch | apply Hdel | done].
Qed.

(** X17. No document with a [status] is ever on disk.  When every file
    of the output tree holds a mapping without a top-level [status] key
    (as in the empty tree), so does every file after a run, whatever the
    messages, the registry and the generators do and however the run ends:
    whatever the script writes is a mapping with [status] removed. *)
Theorem no_status_is_ever_written env polls batch_size timeout idle_timeout w w' r :
  no_status_on_disk (fs w) →
  consume_messages_in_batches env polls batch_size timeout idle_timeout w = (w', r) →
  no_status_on_disk (fs w').
Proof.
  intros L E. apply consume_messages_in_batches_fs in E as (done & _ & -> & _).
  apply tree_after_keeps; [|exact L]. intros msg f. apply no_status_processed.
Qed.

Lemma no_status_is_ever_written_witness :
  no_status_on_disk
    (fs (consume_messages_in_batches (sample_env ENABLED sample_tool)
           [Batch [message "created"]; Batch []; Batch []] 10 5 10 empty_world).1).
Proof.
  apply (no_status_is_ever_written (sample_env ENABLED sample_tool)
           [Batch [message "created"]; Batch []; Batch []] 10 5 10 empty_world _
           (consume_messages_in_batches (sample_env ENABLED sample_tool)
              [Batch [message "created"]; Batch []; Batch []] 10 5 10 empty_world).2).
  - intros p document H. vm_compute in H. discriminate H.
  - vm_compute. reflexivity.
Defined.

(** ** Deletions on the trees the script builds *)

(** [shutil.rmtree] on a regular file raises; the tree stays. *)
Lemma delete_artifact_directory_file g a document w :
  fs w !! [g; a] = Some (File document) →
  delete_artifact_directory (PStr g) (PStr a) w = (w, Raise OSError).
Proof.
  intros Hp. unfold delete_artifact_directory, bind, lift, os_path_exists, shutil_rmtree.
  cbn [os_path_join path_component].
  rewrite Hp, bool_decide_eq_true_2 by eauto. by rewrite Hp.
Qed.

Lemma delete_version_file g a v document w :
  fs w !! [g; a; v] = Some (File document) →
  delete_version (PStr g) (PStr a) (PStr v) w = (w, Raise OSError).
Proof.
  intros Hp. unfold delete_version, bind, lift, os_path_exists, shutil_rmtree.
  cbn [os_path_join path_component].
  rewrite Hp, bool_decide_eq_true_2 by eauto. by rewrite Hp.
Qed.

(** X18. When a deletion fails.  For an ArtifactDeleted or
    VersionDeleted event whose coordinate is a plain path, the deletion
    fails in one case only: a regular file sits at the place of the
    directory.  [shutil.rmtree] raises [OSError] then, which leaves
    [process_message] with the tree as it was.  In every other case the
    event is processed to the end, the directory and all below it gone when
    it was there; on a tree of the layout the script builds there is no
    such file, so there the event is always processed to the end. *)
Theorem deletions_fail_only_on_a_file env msg d g a folder_path w :
  payload_of env msg = Some d →
  group_id_of d = PStr g →
  artifact_id_of d = PStr a →
  (event_type_of d = PStr "ARTIFACT_DELETED" ∧ folder_path = [g; a])
  ∨ (event_type_of d = PStr "ARTIFACT_VERSION_DELETED"
     ∧ ∃ v, version_of d = PStr v ∧ folder_path = [g; a; v]) →
  plain_path env folder_path = true →
  ∃ w',
    process_message env msg w
    = (w', match fs w !! folder_path with
           | Some (File _) => Raise OSError
           | _ => Ok ()
           end)
    ∧ fs w' = deleted_fs folder_path (fs w)
    ∧ (layout (fs w) → process_message env msg w = (w', Ok ())).
Proof.
  intros Hd Hg Ha Hkind _.
  assert (∃ w', process_message env msg w
                = (w', match fs w !! folder_path with
                       | Some (File _) => Raise OSError
                       | _ => Ok ()
                       end)) as (w' & E).
  { rewrite (process_message_decoded _ _ _ _ Hd). unfold try_except.
    rewrite dispatch_dict, Hg, Ha.
    destruct Hkind as [[-> ->]|(-> & v & -> & ->)];
      cbn [py_eq_str String.eqb Ascii.eqb Bool.eqb]; unfold bind, print.
    - destruct (fs w !! [g; a]) as [[|document]|] eqn:Hp.
      + destruct (delete_artifact_directory_present g a
                    (emit (EvPrint (LogArtifactDeleted (PStr "ARTIFACT_DELETED") (PStr a))) w)
                    Hp) as (w' & -> & _).
        eauto.
      + rewrite (delete_artifact_directory_file g a document) by exact Hp. eauto.
      + rewrite delete_artifact_directory_absent by exact Hp. eauto.
    - destruct (fs w !! [g; a; v]) as [[|document]|] eqn:Hp.
      + destruct (delete_version_present g a v
                    (emit (EvPrint (LogVersionDeleted (PStr "ARTIFACT_VERSION_DELETED")
                                      (PStr a) (PStr v))) w) Hp) as (w' & -> & _).
        eauto.
      + rewrite (delete_version_file g a v document) by exact Hp. eauto.
      + rewrite delete_version_absent by exact Hp. eauto. }
  exists w'. split_and!.
  - exact E.
  - apply process_message_fs in E. rewrite E. unfold processed_fs. rewrite Hd.
    unfold dispatched_fs. rewrite Hg, Ha.
    destruct Hkind as [[-> ->]|(-> & v & -> & ->)]; reflexivity.
  - intros L. rewrite E.
    destruct (fs w !! folder_path) as [[|document]|] eqn:Hp; try reflexivity.
    destruct (L _ _ Hp) as [Hl _].
    destruct Hkind as [[_ ->]|(_ & v & _ & ->)]; discriminate Hl.
Qed.

Lemma deletions_fail_only_on_a_file_witness :
  ∃ w',
    process_message (sample_env ENABLED sample_tool) (message "version-deleted")
      version_is_a_file
    = (w', Raise OSError)
    ∧ fs w' = deleted_fs ["shop"; "orders-api"; "1"] (fs version_is_a_file)
    ∧ (layout (fs version_is_a_file) →
       process_message (sample_env ENABLED sample_tool) (message "version-deleted")
         version_is_a_file
       = (w', Ok ())).
Proof.
  apply (deletions_fail_only_on_a_file (sample_env ENABLED sample_tool)
           (message "version-deleted")
           [("eventType", PStr "ARTIFACT_VERSION_DELETED"); ("artifactId", PStr "orders-api");
            ("version", PStr "1"); ("groupId", PStr "shop")]
           "shop" "orders-api" ["shop"; "orders-api"; "1"] version_is_a_file).
  - reflexivity.
  - reflexivity.
  - reflexivity.
  - right. split; [reflexivity|]. exists "1". split; reflexivity.
  - reflexivity.
Defined.

(** ** What stays behind *)

Lemma command_dirs env g a v args content mode f f' c :
  not_a_file f [g] → not_a_file f [g; a] → not_a_file f [g; a; v] →
  command_fs env g a v args content mode f = (f', c) →
  settled g a v f'.
Proof.
  intros H1 H2 H3. unfold command_fs, settled.
  destruct (makedirs_clear g a v f H1 H2 H3) as (f1 & -> & D1 & D2 & D3 & _).
  destruct (generated env args content) as [data|e]; [|by intros [= <- _]].
  destruct (f1 !! [g; a; v; output_filename g a v mode]) as [[|?]|];
    intros [= <- _]; by rewrite ?lookup_insert_ne.
Qed.

Lemma cli_dirs env g a v content f :
  not_a_file f [g] → not_a_file f [g; a] → not_a_file f [g; a; v] →
  settled g a v (cli_fs env g a v content f).
Proof.
  intros H1 H2 H3. unfold cli_fs.
  destruct (command_fs env g a v httproute_args content "httproute" f) as [f1 c1] eqn:E1.
  pose proof (command_dirs _ _ _ _ _ _ _ _ _ _ H1 H2 H3 E1) as S1.
  destruct c1; [|done].
  destruct (command_fs env g a v authpolicy_args content "authpolicy" f1) as [f2 c2] eqn:E2.
  destruct (command_on_settled _ _ _ _ _ _ _ _ _ _ S1 E2) as [S2 _].
  destruct c2; [|done].
  destruct (command_fs env g a v ratelimitpolicy_args content "ratelimiting_policy" f2)
    as [f3 c3] eqn:E3.
  by destruct (command_on_settled _ _ _ _ _ _ _ _ _ _ S2 E3) as [S3 _].
Qed.

(** The files of a coordinate are below its version directory. *)
Lemma output_file_below g a v mode : [g; a; v] `prefix_of` [g; a; v; output_filename g a v mode].
Proof. by exists [output_filename g a v mode]. Qed.

Lemma created_then_deleted_fs env g a v f :
  f !! [g] = Some Dir → f !! [g; a] = Some Dir →
  (∀ q, [g; a; v] `prefix_of` q → f !! q = None) →
  deleted_fs [g; a; v] (fetched_fs env (PStr g) (PStr a) (PStr v) f) = f.
Proof.
  intros D1 D2 Hnone.
  assert (f !! [g; a; v] = None) as D3 by (apply Hnone; done).
  assert (deleted_fs [g; a; v] f = f) as Hsame by (unfold deleted_fs; by rewrite D3).
  unfold fetched_fs.
  destruct (registry_content env (PStr g) (PStr a) (PStr v)) as [content|]; [|done].
  destruct (registry_state env (PStr g) (PStr a) (PStr v)) as [[[[]|]|]|]; try done.
  destruct (cli_dirs env g a v content f) as (S1 & S2 & S3);
    [intros ?; congruence..|].
  apply map_eq. intros q. destruct (decide ([g; a; v] `prefix_of` q)) as [Hq|Hq].
  - rewrite deleted_fs_gone by done. symmetry. by apply Hnone.
  - rewrite deleted_fs_frame by done.
    destruct (decide (q = [g])) as [->|N1]; [congruence|].
    destruct (decide (q = [g; a])) as [->|N2]; [congruence|].
    apply cli_fs_frame; try done.
    + intros ->. by apply Hq.
    + intros mode _ ->. apply Hq, output_file_below.
Qed.

(** X19. Creating a version and deleting it again.  For a coordinate
    of plain names, an artifact whose directory is there and a version that
    is not on disk, a
    VersionCreated event followed by the VersionDeleted event of the same
    coordinate leaves the output tree exactly as it was before the two,
    whatever the registry answered and the generators did in between:
    nothing of the version stays behind. *)
Theorem created_then_deleted_restores_the_tree env created deleted dc dd g a v w :
  payload_of env created = Some dc →
  event_type_of dc = PStr "ARTIFACT_VERSION_CREATED" →
  payload_of env deleted = Some dd →
  event_type_of dd = PStr "ARTIFACT_VERSION_DELETED" →
  group_id_of dc = PStr g → artifact_id_of dc = PStr a → version_of dc = PStr v →
  group_id_of dd = PStr g → artifact_id_of dd = PStr a → version_of dd = PStr v →
  plain_path env [g; a; v; output_filename g a v "ratelimiting_policy"] = true →
  fs w !! [g] = Some Dir →
  fs w !! [g; a] = Some Dir →
  (∀ q, [g; a; v] `prefix_of` q → fs w !! q = None) →
  fs (process_message env deleted (process_message env created w).1).1 = fs w.
Proof.
  intros Hc Tc Hd Td Gc Ac Vc Gd Ad Vd _ D1 D2 Hnone.
  destruct (process_message env created w) as [w1 r1] eqn:E1. cbn [fst].
  destruct (process_message env deleted w1) as [w2 r2] eqn:E2. cbn [fst].
  apply process_message_fs in E1, E2. rewrite E2, E1.
  unfold processed_fs. rewrite Hc, Hd. unfold dispatched_fs.
  rewrite Tc, Td, Gc, Ac, Vc, Gd, Ad, Vd.
  cbn [py_eq_str String.eqb Ascii.eqb Bool.eqb os_path_join path_component].
  by apply created_then_deleted_fs.
Qed.

Lemma created_then_deleted_restores_the_tree_witness :
  fs (process_message (sample_env ENABLED sample_tool) (message "version-deleted")
        (process_message (sample_env ENABLED sample_tool) (message "created")
           known_artifact).1).1
  = fs known_artifact.
Proof.
  apply (created_then_deleted_restores_the_tree (sample_env ENABLED sample_tool)
           (message "created") (message "version-deleted")
           [("eventType", PStr "ARTIFACT_VERSION_CREATED"); ("artifactId", PStr "orders-api");
            ("version", PStr "1"); ("groupId", PStr "shop")]
           [("eventType", PStr "ARTIFACT_VERSION_DELETED"); ("artifactId", PStr "orders-api");
            ("version", PStr "1"); ("groupId", PStr "shop")]
           "shop" "orders-api" "1" known_artifact); try reflexivity.
  intros q [k ->]. cbn. rewrite !lookup_insert_ne by discriminate. apply lookup_empty.
Defined.

(** [os.makedirs] keeps the directories that are there. *)
Lemma makedirs_keeps_dirs g a v f f1 r q :
  makedirs_from [] [g; a; v] f = (f1, r) → f !! q = Some Dir → f1 !! q = Some Dir.
Proof.
  makedirs_cases g a v f; intros [= <- <-] H;
    repeat match goal with
           | |- (<[?k := Dir]> _) !! q = Some Dir =>
               destruct (decide (k = q)) as [<-|?];
               [by rewrite lookup_insert_eq|rewrite lookup_insert_ne by done]
           end; exact H.
Qed.

Lemma command_keeps_dirs env g a v args content mode f f' c q :
  command_fs env g a v args content mode f = (f', c) →
  length q ≠ 4%nat → f !! q = Some Dir → f' !! q = Some Dir.
Proof.
  unfold command_fs.
  destruct (makedirs_from [] [g; a; v] f) as [f1 [[]|e]] eqn:Emk; intros H Hl Hq;
    pose proof (makedirs_keeps_dirs _ _ _ _ _ _ _ Emk Hq) as Hq1.
  - destruct (generated env args content) as [data|e]; [|by injection H as <- _].
    destruct (f1 !! [g; a; v; output_filename g a v mode]) as [[|?]|];
      injection H as <- _; try done;
      rewrite lookup_insert_ne; first [done | by intros <-].
  - by injection H as <- _.
Qed.

Lemma cli_keeps_dirs env g a v content f q :
  length q ≠ 4%nat → f !! q = Some Dir → cli_fs env g a v content f !! q = Some Dir.
Proof.
  intros Hl Hq. unfold cli_fs.
  destruct (command_fs env g a v httproute_args content "httproute" f) as [f1 c1] eqn:E1.
  pose proof (command_keeps_dirs _ _ _ _ _ _ _ _ _ _ _ E1 Hl Hq) as H1.
  destruct c1; [|done].
  destruct (command_fs env g a v authpolicy_args content "authpolicy" f1) as [f2 c2] eqn:E2.
  pose proof (command_keeps_dirs _ _ _ _ _ _ _ _ _ _ _ E2 Hl H1) as H2.
  destruct c2; [|done].
  destruct (command_fs env g a v ratelimitpolicy_args content "ratelimiting_policy" f2)
    as [f3 c3] eqn:E3.
  exact (command_keeps_dirs _ _ _ _ _ _ _ _ _ _ _ E3 Hl H2).
Qed.

Lemma os_path_join_length parts p : os_path_join parts = Ok p → length p = length parts.
Proof.
  revert p. induction parts as [|x parts IH]; intros p; cbn.
  - by intros [= <-].
  - destruct (path_component x); [|done]. destruct (os_path_join parts); [|done].
    intros [= <-]. cbn. by rewrite (IH _ eq_refl).
Qed.

Lemma processed_keeps_groups env msg f g :
  f !! [g] = Some Dir → processed_fs env msg f !! [g] = Some Dir.
Proof.
  intros Hg. unfold processed_fs. destruct (payload_of env msg) as [d|]; [|done].
  assert (∀ x y z, fetched_fs env x y z f !! [g] = Some Dir) as Hfetch.
  { intros x y z. unfold fetched_fs.
    destruct (registry_content env x y z) as [content|]; [|done].
    destruct (registry_state env x y z) as [[[[]|]|]|]; try done.
    destruct x, y, z; try done. by apply cli_keeps_dirs. }
  assert (∀ parts p, (2 ≤ length parts)%nat → os_path_join parts = Ok p →
                     deleted_fs p f !! [g] = Some Dir) as Hdel.
  { intros parts p Hl Hp. apply os_path_join_length in Hp.
    rewrite deleted_fs_frame; [done|].
    intros Hpre. apply prefix_length in Hpre. cbn in Hpre. lia. }
  unfold dispatched_fs.
  repeat match goal with
         | |- context [if ?b then _ else _] => destruct b
         | |- context [match os_path_join ?l with _ => _ end] =>
             destruct (os_path_join l) eqn:?
         end;
    first [apply Hfetch | eapply Hdel; [|eassumption]; cbn; lia | done].
Qed.

(** X20. Group directories are never removed.  A group directory that
    is on disk is still there after any run on messages whose names are
    plain, whatever else the messages are: no event deletes above the
    artifact level, so the directory of a group
    stays behind, empty, when its last artifact is deleted. *)
Theorem group_directories_are_never_removed
    env polls batch_size timeout idle_timeout g w w' r :
  forallb (plain_message env) (delivered polls) = true →
  fs w !! [g] = Some Dir →
  consume_messages_in_batches env polls batch_size timeout idle_timeout w = (w', r) →
  fs w' !! [g] = Some Dir.
Proof.
  intros _ Hg E. apply consume_messages_in_batches_fs in E as (done & _ & -> & _).
  apply (tree_after_keeps env (λ f, f !! [g] = Some Dir)); [|exact Hg].
  intros msg f. apply processed_keeps_groups.
Qed.

Lemma group_directories_are_never_removed_witness :
  fs (consume_messages_in_batches (sample_env ENABLED sample_tool)
        [Batch [message "artifact-deleted"]; Batch []; Batch []] 10 5 10 two_versions).1
  !! ["shop"] = Some Dir.
Proof.
  apply (group_directories_are_never_removed (sample_env ENABLED sample_tool)
           [Batch [message "artifact-deleted"]; Batch []; Batch []] 10 5 10
           "shop" two_versions _
           (consume_messages_in_batches (sample_env ENABLED sample_tool)
              [Batch [message "artifact-deleted"]; Batch []; Batch []] 10 5 10
              two_versions).2).
  - reflexivity.
  - vm_compute. reflexivity.
  - vm_compute. reflexivity.
Defined.

(** ** An enabled version, when everything works *)

(** One command that works, on a tree of the layout. *)
Lemma invoke_kuadrant_command_writes env g a v args content mode stdout stderr d w :
  layout (fs w) →
  content ≠ Some NotUtf8 →
  subprocess_run env args (content_text content) = Completed 0 stdout stderr →
  yaml_safe_load env stdout = Some (PDict d) →
  ∃ w',
    invoke_kuadrant_command env (PStr g) (PStr a) (PStr v) args content mode w = (w', Ok ())
    ∧ layout (fs w')
    ∧ settled g a v (fs w')
    ∧ fs w' !! [g; a; v; output_filename g a v mode] = Some (File (PDict (dict_pop "status" d)))
    ∧ (∀ q, q ≠ [g] → q ≠ [g; a] → q ≠ [g; a; v] →
            q ≠ [g; a; v; output_filename g a v mode] → fs w' !! q = fs w !! q)
    ∧ events w'
      = EvPrint (LogResourceSaved [g; a; v; output_filename g a v mode])
        :: EvRun args (content_text content) :: events w.
Proof.
  intros L Hc Hrun Hyaml.
  destruct (layout_makedirs g a v (fs w) L) as (f1 & Emk & L1).
  destruct (makedirs_ok_dirs _ _ _ _ _ Emk) as (D1 & D2 & D3).
  pose proof (layout_not_a_directory f1 [g; a; v; output_filename g a v mode] L1 eq_refl)
    as Hfile.
  assert (decode_content content = ret (content_text content)) as Edec
    by (destruct content as [[|]|]; [reflexivity|congruence|reflexivity]).
  exists (emit (EvPrint (LogResourceSaved [g; a; v; output_filename g a v mode]))
            (with_fs (<[ [g; a; v; output_filename g a v mode]
                         := File (PDict (dict_pop "status" d)) ]> f1)
               (emit (EvRun args (content_text content)) (with_fs f1 w)))).
  split_and!.
  - unfold invoke_kuadrant_command, bind at 1 2 3, lift. cbn [path_component].
    unfold bind at 1, os_makedirs. rewrite Emk.
    unfold try_except. rewrite Edec. unfold bind at 1, ret at 1.
    unfold run_checked, bind at 1 2, trace. rewrite Hrun. cbn [Z.eqb]. unfold ret at 1.
    rewrite Hyaml. unfold bind at 1, ret at 1. unfold pop_status, bind at 1, ret at 1.
    unfold bind at 1, write_yaml. cbn [fs emit with_fs]. rewrite D3.
    fold (output_filename g a v mode).
    destruct (f1 !! ([g; a; v] ++ [output_filename g a v mode])) as [[|?]|] eqn:E;
      [by destruct Hfile|reflexivity|reflexivity].
  - cbn. apply layout_insert_file; [exact L1|reflexivity|].
    intros q x Hq.
    change [g; a; v; output_filename g a v mode]
      with ([g; a; v] ++ [output_filename g a v mode]) in Hq.
    apply app_inj_tail in Hq as [<- _]. exact D3.
  - cbn. unfold settled. by rewrite !lookup_insert_ne.
  - cbn. apply lookup_insert_eq.
  - intros q N1 N2 N3 N4. cbn. rewrite lookup_insert_ne by done.
    by eapply makedirs_frame.
  - reflexivity.
Qed.

(** The three commands, when each works. *)
Lemma invoke_kuadrant_cli_writes env g a v content o1 e1 d1 o2 e2 d2 o3 e3 d3 w :
  layout (fs w) →
  content ≠ Some NotUtf8 →
  subprocess_run env httproute_args (content_text content) = Completed 0 o1 e1 →
  yaml_safe_load env o1 = Some (PDict d1) →
  subprocess_run env authpolicy_args (content_text content) = Completed 0 o2 e2 →
  yaml_safe_load env o2 = Some (PDict d2) →
  subprocess_run env ratelimitpolicy_args (content_text content) = Completed 0 o3 e3 →
  yaml_safe_load env o3 = Some (PDict d3) →
  ∃ w',
    invoke_kuadrant_cli env (PStr g) (PStr a) (PStr v) content w = (w', Ok ())
    ∧ settled g a v (fs w')
    ∧ fs w' !! [g; a; v; output_filename g a v "httproute"]
      = Some (File (PDict (dict_pop "status" d1)))
    ∧ fs w' !! [g; a; v; output_filename g a v "authpolicy"]
      = Some (File (PDict (dict_pop "status" d2)))
    ∧ fs w' !! [g; a; v; output_filename g a v "ratelimiting_policy"]
      = Some (File (PDict (dict_pop "status" d3)))
    ∧ (∀ q, q ≠ [g] → q ≠ [g; a] → q ≠ [g; a; v] →
            (∀ mode, mode ∈ ["httproute"; "authpolicy"; "ratelimiting_policy"] →
                     q ≠ [g; a; v; output_filename g a v mode]) →
            fs w' !! q = fs w !! q)
    ∧ events w'
      = [ EvPrint (LogResourceSaved [g; a; v; output_filename g a v "ratelimiting_policy"]);
          EvRun ratelimitpolicy_args (content_text content);
          EvPrint (LogResourceSaved [g; a; v; output_filename g a v "authpolicy"]);
          EvRun authpolicy_args (content_text content);
          EvPrint (LogResourceSaved [g; a; v; output_filename g a v "httproute"]);
          EvRun httproute_args (content_text content) ] ++ events w.
Proof.
  intros L Hc R1 Y1 R2 Y2 R3 Y3.
  destruct (output_filenames_distinct g a v) as (N12 & N13 & N23).
  destruct (invoke_kuadrant_command_writes env g a v _ content "httproute" _ _ _ w
              L Hc R1 Y1) as (w1 & E1 & L1 & S1 & F1 & Fr1 & Ev1).
  destruct (invoke_kuadrant_command_writes env g a v _ content "authpolicy" _ _ _ w1
              L1 Hc R2 Y2) as (w2 & E2 & L2 & S2 & F2 & Fr2 & Ev2).
  destruct (invoke_kuadrant_command_writes env g a v _ content "ratelimiting_policy" _ _ _ w2
              L2 Hc R3 Y3) as (w3 & E3 & L3 & S3 & F3 & Fr3 & Ev3).
  exists w3. split_and!.
  - unfold invoke_kuadrant_cli, bind. by rewrite E1, E2, E3.
  - exact S3.
  - rewrite Fr3, Fr2 by (intros [= ?]; congruence). exact F1.
  - rewrite Fr3 by (intros [= ?]; congruence). exact F2.
  - exact F3.
  - intros q Q1 Q2 Q3 Qm.
    rewrite Fr3, Fr2, Fr1 by (try done; apply Qm; set_solver). reflexivity.
  - rewrite Ev3, Ev2, Ev1. reflexivity.
Qed.

(** X21. An enabled version, when everything works.  For a
    VersionCreated event, or a VersionStateChanged event to ENABLED, with
    a coordinate of plain names, on a tree of the layout the script builds:
    when the registry hands over content that is text (or not bytes) and
    reports the version ENABLED, and each of the three generators exits
    with status 0 and prints a YAML mapping, [process_message] returns with
    the three directories of the coordinate in place and the three files in
    the version directory, each holding the mapping its generator printed
    without [status]; nothing else on disk has changed.  The registry was
    asked for the content, then for the state, and the generators ran in
    the order httproute, authpolicy, ratelimitpolicy, each with the content
    on its standard input. *)
Theorem an_enabled_version_gets_its_three_files
    env msg d g a v content o1 e1 d1 o2 e2 d2 o3 e3 d3 w :
  payload_of env msg = Some d →
  event_type_of d = PStr "ARTIFACT_VERSION_CREATED"
  ∨ (event_type_of d = PStr "ARTIFACT_VERSION_STATE_CHANGED"
     ∧ new_state_of d = PStr "ENABLED") →
  group_id_of d = PStr g → artifact_id_of d = PStr a → version_of d = PStr v →
  plain_path env [g; a; v; output_filename g a v "ratelimiting_policy"] = true →
  registry_content env (PStr g) (PStr a) (PStr v) = Ok content →
  content ≠ Some NotUtf8 →
  registry_state env (PStr g) (PStr a) (PStr v) = Ok (Some (Some ENABLED)) →
  subprocess_run env httproute_args (content_text content) = Completed 0 o1 e1 →
  yaml_safe_load env o1 = Some (PDict d1) →
  subprocess_run env authpolicy_args (content_text content) = Completed 0 o2 e2 →
  yaml_safe_load env o2 = Some (PDict d2) →
  subprocess_run env ratelimitpolicy_args (content_text content) = Completed 0 o3 e3 →
  yaml_safe_load env o3 = Some (PDict d3) →
  layout (fs w) →
  ∃ w' line,
    process_message env msg w = (w', Ok ())
    ∧ settled g a v (fs w')
    ∧ fs w' !! [g; a; v; output_filename g a v "httproute"]
      = Some (File (PDict (dict_pop "status" d1)))
    ∧ fs w' !! [g; a; v; output_filename g a v "authpolicy"]
      = Some (File (PDict (dict_pop "status" d2)))
    ∧ fs w' !! [g; a; v; output_filename g a v "ratelimiting_policy"]
      = Some (File (PDict (dict_pop "status" d3)))
    ∧ (∀ q, q ≠ [g] → q ≠ [g; a] → q ≠ [g; a; v] →
            (∀ mode, mode ∈ ["httproute"; "authpolicy"; "ratelimiting_policy"] →
                     q ≠ [g; a; v; output_filename g a v mode]) →
            fs w' !! q = fs w !! q)
    ∧ events w'
      = [ EvPrint (LogResourceSaved [g; a; v; output_filename g a v "ratelimiting_policy"]);
          EvRun ratelimitpolicy_args (content_text content);
          EvPrint (LogResourceSaved [g; a; v; output_filename g a v "authpolicy"]);
          EvRun authpolicy_args (content_text content);
          EvPrint (LogResourceSaved [g; a; v; output_filename g a v "httproute"]);
          EvRun httproute_args (content_text content);
          EvRegistryState (PStr g) (PStr a) (PStr v);
          EvRegistryContent (PStr g) (PStr a) (PStr v);
          EvPrint line ] ++ events w.
Proof.
  intros Hd Ht Hg Ha Hv _ Hcontent Hc Hstate R1 Y1 R2 Y2 R3 Y3 L.
  assert (∀ line,
            ∃ w', (print line ;;; get_artifact_content env (PStr g) (PStr a) (PStr v)) w
                  = (w', Ok ())
              ∧ settled g a v (fs w')
              ∧ fs w' !! [g; a; v; output_filename g a v "httproute"]
                = Some (File (PDict (dict_pop "status" d1)))
              ∧ fs w' !! [g; a; v; output_filename g a v "authpolicy"]
                = Some (File (PDict (dict_pop "status" d2)))
              ∧ fs w' !! [g; a; v; output_filename g a v "ratelimiting_policy"]
                = Some (File (PDict (dict_pop "status" d3)))
              ∧ (∀ q, q ≠ [g] → q ≠ [g; a] → q ≠ [g; a; v] →
                      (∀ mode, mode ∈ ["httproute"; "authpolicy"; "ratelimiting_policy"] →
                               q ≠ [g; a; v; output_filename g a v mode]) →
                      fs w' !! q = fs w !! q)
              ∧ events w'
                = [ EvPrint (LogResourceSaved
                               [g; a; v; output_filename g a v "ratelimiting_policy"]);
                    EvRun ratelimitpolicy_args (content_text content);
                    EvPrint (LogResourceSaved [g; a; v; output_filename g a v "authpolicy"]);
                    EvRun authpolicy_args (content_text content);
                    EvPrint (LogResourceSaved [g; a; v; output_filename g a v "httproute"]);
                    EvRun httproute_args (content_text content);
                    EvRegistryState (PStr g) (PStr a) (PStr v);
                    EvRegistryContent (PStr g) (PStr a) (PStr v);
                    EvPrint line ] ++ events w) as Hfetch.
  { intros line.
    destruct (invoke_kuadrant_cli_writes env g a v content _ _ _ _ _ _ _ _ _
                (emit (EvRegistryState (PStr g) (PStr a) (PStr v))
                   (emit (EvRegistryContent (PStr g) (PStr a) (PStr v))
                      (emit (EvPrint line) w)))
                L Hc R1 Y1 R2 Y2 R3 Y3) as (w' & E & S & F1 & F2 & F3 & Fr & Ev).
    exists w'. split_and!; try done.
    unfold bind at 1, print at 1, get_artifact_content, try_except, bind at 1 2 3 4,
      trace, lift.
    rewrite Hcontent, Hstate. cbn [fst snd]. by rewrite E. }
  rewrite (process_message_decoded _ _ _ _ Hd). unfold try_except.
  rewrite dispatch_dict, Hg, Ha, Hv.
  destruct Ht as [->|[-> ->]]; cbn [py_eq_str String.eqb Ascii.eqb Bool.eqb];
    match goal with
    | |- context [(print ?line ;;; _) w] =>
        destruct (Hfetch line) as (w' & -> & H); exists w', line; split; [reflexivity|exact H]
    end.
Qed.

Lemma an_enabled_version_gets_its_three_files_witness :
  ∃ w' line,
    process_message (sample_env ENABLED sample_tool) (message "enabled") known_artifact
    = (w', Ok ())
    ∧ settled "shop" "orders-api" "1" (fs w')
    ∧ fs w' !! ["shop"; "orders-api"; "1"; output_filename "shop" "orders-api" "1" "httproute"]
      = Some (File (PDict (dict_pop "status"
                             [("kind", PStr "HTTPRoute");
                              ("status", PDict [("parents", PList [])])])))
    ∧ fs w' !! ["shop"; "orders-api"; "1"; output_filename "shop" "orders-api" "1" "authpolicy"]
      = Some (File (PDict (dict_pop "status"
                             [("kind", PStr "AuthPolicy"); ("status", PStr "stale")])))
    ∧ fs w' !! ["shop"; "orders-api"; "1";
                output_filename "shop" "orders-api" "1" "ratelimiting_policy"]
      = Some (File (PDict (dict_pop "status"
                             [("status", PNone); ("kind", PStr "RateLimitPolicy")])))
    ∧ (∀ q, q ≠ ["shop"] → q ≠ ["shop"; "orders-api"] → q ≠ ["shop"; "orders-api"; "1"] →
            (∀ mode, mode ∈ ["httproute"; "authpolicy"; "ratelimiting_policy"] →
                     q ≠ ["shop"; "orders-api"; "1";
                          output_filename "shop" "orders-api" "1" mode]) →
            fs w' !! q = fs known_artifact !! q)
    ∧ events w'
      = [ EvPrint (LogResourceSaved
                     ["shop"; "orders-api"; "1";
                      output_filename "shop" "orders-api" "1" "ratelimiting_policy"]);
          EvRun ratelimitpolicy_args (content_text (Some (Utf8 "openapi: 3.0.0")));
          EvPrint (LogResourceSaved
                     ["shop"; "orders-api"; "1";
                      output_filename "shop" "orders-api" "1" "authpolicy"]);
          EvRun authpolicy_args (content_text (Some (Utf8 "openapi: 3.0.0")));
          EvPrint (LogResourceSaved
                     ["shop"; "orders-api"; "1";
                      output_filename "shop" "orders-api" "1" "httproute"]);
          EvRun httproute_args (content_text (Some (Utf8 "openapi: 3.0.0")));
          EvRegistryState (PStr "shop") (PStr "orders-api") (PStr "1");
          EvRegistryContent (PStr "shop") (PStr "orders-api") (PStr "1");
          EvPrint line ] ++ events known_artifact.
Proof.
  apply (an_enabled_version_gets_its_three_files (sample_env ENABLED sample_tool)
           (message "enabled")
           [("eventType", PStr "ARTIFACT_VERSION_STATE_CHANGED");
            ("artifactId", PStr "orders-api"); ("version", PStr "1");
            ("groupId", PStr "shop"); ("newState", PStr "ENABLED")]
           "shop" "orders-api" "1" (Some (Utf8 "openapi: 3.0.0"))
           "httproute.yaml" "" _ "authpolicy.yaml" "" _ "ratelimitpolicy.yaml" "" _
           known_artifact); try reflexivity.
  - right. split; reflexivity.
  - discriminate.
  - intros p n H. cbn in H.
    apply lookup_insert_Some in H as [[<- <-]|[_ H]].
    { split; [cbn; lia|]. intros [|? [|? [|? ?]]] x [=]; subst; try done. }
    apply lookup_insert_Some in H as [[<- <-]|[_ H]].
    { split; [cbn; lia|]. intros [|? [|? ?]] x [=]; done. }
    by rewrite lookup_empty in H.
Defined.

(** ** Generators and content that are not as expected *)

(** X22. Output that is YAML but no mapping.  On a coordinate of plain
    names and a tree of the layout: when a generator exits with status 0 and prints YAML that is not a mapping (nothing at all,
    which YAML reads as null, a scalar, a list), [data.pop('status', None)]
    raises: [TypeError] on a list, [AttributeError] on the others.  The
    clause of [invoke_kuadrant_command] is for [CalledProcessError] only, so
    the exception leaves the function: nothing is printed for the mode, no
    file is written, and the version directory made before stays. *)
Theorem output_that_is_no_mapping_is_not_caught
    env g a v args content mode stdout stderr data w :
  plain_path env [g; a; v] = true →
  layout (fs w) →
  content ≠ Some NotUtf8 →
  subprocess_run env args (content_text content) = Completed 0 stdout stderr →
  yaml_safe_load env stdout = Some data →
  (∀ d, data ≠ PDict d) →
  ∃ w',
    invoke_kuadrant_command env (PStr g) (PStr a) (PStr v) args content mode w
    = (w', Raise (match data with PList _ => TypeError | _ => AttributeError end))
    ∧ events w' = EvRun args (content_text content) :: events w
    ∧ settled g a v (fs w')
    ∧ ∀ q, q ≠ [g] → q ≠ [g; a] → q ≠ [g; a; v] → fs w' !! q = fs w !! q.
Proof.
  intros _ L Hc Hrun Hyaml Hd.
  destruct (layout_makedirs g a v (fs w) L) as (f1 & Emk & L1).
  pose proof (makedirs_ok_dirs _ _ _ _ _ Emk) as S1.
  assert (decode_content content = ret (content_text content)) as Edec
    by (destruct content as [[|]|]; [reflexivity|congruence|reflexivity]).
  exists (emit (EvRun args (content_text content)) (with_fs f1 w)). split_and!.
  - unfold invoke_kuadrant_command, bind at 1 2 3, lift. cbn [path_component].
    unfold bind at 1, os_makedirs. rewrite Emk.
    unfold try_except. rewrite Edec. unfold bind at 1, ret at 1.
    unfold run_checked, bind at 1 2, trace. rewrite Hrun. cbn [Z.eqb]. unfold ret at 1.
    rewrite Hyaml. unfold bind at 1, ret at 1. unfold pop_status, bind at 1.
    destruct data as [| | | | |d]; try reflexivity. by destruct (Hd d).
  - reflexivity.
  - exact S1.
  - intros q N1 N2 N3. cbn. by eapply makedirs_frame.
Qed.

Lemma output_that_is_no_mapping_is_not_caught_witness :
  ∃ w',
    invoke_kuadrant_command silent_generators
      (PStr "shop") (PStr "orders-api") (PStr "1") httproute_args
      (Some (Utf8 "openapi: 3.0.0")) "httproute" empty_world
    = (w', Raise AttributeError)
    ∧ events w'
      = EvRun httproute_args (content_text (Some (Utf8 "openapi: 3.0.0")))
        :: events empty_world
    ∧ settled "shop" "orders-api" "1" (fs w')
    ∧ ∀ q, q ≠ ["shop"] → q ≠ ["shop"; "orders-api"] → q ≠ ["shop"; "orders-api"; "1"] →
           fs w' !! q = fs empty_world !! q.
Proof.
  apply (output_that_is_no_mapping_is_not_caught silent_generators
           "shop" "orders-api" "1" httproute_args (Some (Utf8 "openapi: 3.0.0"))
           "httproute" "" "" PNone empty_world); try reflexivity.
  - intros p n H. vm_compute in H. discriminate H.
  - discriminate.
  - discriminate.
Defined.

(** X23. Content that is not UTF-8.  The directories of the coordinate
    are made before the content is looked at.  On a coordinate of plain
    names and a tree of the layout: when the registry hands over
    bytes that are not UTF-8 for a version it reports ENABLED, decoding
    raises before any generator is started: [get_artifact_content] prints
    the failure and returns, no subprocess has run and no file is written,
    but the three directories are there, the version directory empty if it
    was not on disk before. *)
Theorem undecodable_content_leaves_the_directories env g a v w :
  plain_path env [g; a; v] = true →
  layout (fs w) →
  registry_content env (PStr g) (PStr a) (PStr v) = Ok (Some NotUtf8) →
  registry_state env (PStr g) (PStr a) (PStr v) = Ok (Some (Some ENABLED)) →
  ∃ w',
    get_artifact_content env (PStr g) (PStr a) (PStr v) w = (w', Ok ())
    ∧ events w'
      = [ EvPrint (LogFailedToRetrieve (PStr a) (PStr v) UnicodeDecodeError);
          EvRegistryState (PStr g) (PStr a) (PStr v);
          EvRegistryContent (PStr g) (PStr a) (PStr v) ] ++ events w
    ∧ settled g a v (fs w')
    ∧ ∀ q, q ≠ [g] → q ≠ [g; a] → q ≠ [g; a; v] → fs w' !! q = fs w !! q.
Proof.
  intros _ L Hcontent Hstate.
  destruct (layout_makedirs g a v (fs w) L) as (f1 & Emk & L1).
  pose proof (makedirs_ok_dirs _ _ _ _ _ Emk) as S1.
  exists (emit (EvPrint (LogFailedToRetrieve (PStr a) (PStr v) UnicodeDecodeError))
            (with_fs f1 (emit (EvRegistryState (PStr g) (PStr a) (PStr v))
                           (emit (EvRegistryContent (PStr g) (PStr a) (PStr v)) w)))).
  split_and!.
  - unfold get_artifact_content, try_except, bind at 1 2 3 4, trace, lift.
    rewrite Hcontent, Hstate. cbn [fst snd].
    unfold invoke_kuadrant_cli, bind at 1.
    unfold invoke_kuadrant_command at 1, bind at 1 2 3, lift. cbn [path_component].
    unfold bind at 1, os_makedirs. cbn [fs emit]. rewrite Emk.
    reflexivity.
  - reflexivity.
  - exact S1.
  - intros q N1 N2 N3. cbn. by eapply makedirs_frame.
Qed.

Lemma undecodable_content_leaves_the_directories_witness :
  ∃ w',
    get_artifact_content binary_content (PStr "shop") (PStr "orders-api") (PStr "1")
      empty_world
    = (w', Ok ())
    ∧ events w'
      = [ EvPrint (LogFailedToRetrieve (PStr "orders-api") (PStr "1") UnicodeDecodeError);
          EvRegistryState (PStr "shop") (PStr "orders-api") (PStr "1");
          EvRegistryContent (PStr "shop") (PStr "orders-api") (PStr "1") ]
        ++ events empty_world
    ∧ settled "shop" "orders-api" "1" (fs w')
    ∧ ∀ q, q ≠ ["shop"] → q ≠ ["shop"; "orders-api"] → q ≠ ["shop"; "orders-api"; "1"] →
           fs w' !! q = fs empty_world !! q.
Proof.
  apply (undecodable_content_leaves_the_directories binary_content
           "shop" "orders-api" "1" empty_world); try reflexivity.
  intros p n H. vm_compute in H. discriminate H.
Defined.

(** ** The clause of [process_messages] *)

(** X24. The decoding errors never leave [process_message].  Whatever
    the message and whatever processing it does, [process_message] raises
    neither [json.JSONDecodeError] nor [KeyError]: its own two clauses take
    them, wherever in the [try] block they come from.  So the clause
    [except json.JSONDecodeError] that [process_messages] puts around the
    call never runs: with it and without it the call does the same. *)
Theorem decoding_errors_never_leave_process_message env msg w :
  (process_message env msg w).2 ≠ Raise JSONDecodeError
  ∧ (∀ key, (process_message env msg w).2 ≠ Raise (KeyError key))
  ∧ try_except (process_message env msg)
      [(is_JSONDecodeError, λ _, print LogErrorDecodingMessage)] w
    = process_message env msg w.
Proof.
  unfold process_message. unfold try_except at 2 3 4. unfold try_except at 1.
  match goal with
  | |- context [try_except ?body ?cl w] =>
      unfold try_except; destruct (body w) as [w1 [[]|e]]
  end.
  { cbn. split_and!; done. }
  cbn [handle].
  destruct e; cbn; split_and!; done.
Qed.
